(** * The checkpoint memory-recovery path of the ep engine

    A shallow embedding of

    - [ClosedUnrefCheckpointRemoverTask] (engines/ep/src/checkpoint_remover.cc):
      [isReductionInCheckpointMemoryNeeded], [attemptMemoryRecovery], [run];
    - [PagingVisitor::removeClosedUnrefCheckpoints]
      (engines/ep/src/paging_visitor.cc);
    - the cursor operations of [CheckpointManager] that are only declared in
      engines/ep/src/checkpoint_manager.h ([registerCursorBySeqno],
      [getItemsForCursor], [getNextItemsForCursor]).

    [size_t] and [uint64_t] values are integers of [Z] with the wrap-around at
    2^64 written out.  The collaborators the task calls through pointers (the
    KVBucket, the vbucket map, the checkpoint managers, the DCP connection
    map) are an interface over an abstract world; every call the task makes
    is appended to a trace. *)

From Stdlib Require Import String ZArith List Bool Lia Sorted.
Import ListNotations.
Local Open Scope Z_scope.

(** ** Machine integers *)

Module SizeT.

Definition modulus : Z := 2 ^ 64.

(** The value a [size_t] expression has after the arithmetic of C++. *)
Definition wrap (z : Z) : Z := z mod modulus.

Definition add (a b : Z) : Z := wrap (a + b).
Definition sub (a b : Z) : Z := wrap (a - b).
Definition mul (a b : Z) : Z := wrap (a * b).

Definition in_range (z : Z) : Prop := 0 <= z < modulus.

End SizeT.

(** ** Types shared by the task and its collaborators *)

(** [Vbid]: the 16-bit partition id. *)
Definition Vbid := Z.

(** [Cursor]: the weak handle [std::weak_ptr<CheckpointCursor>] a manager
    hands out; the handle is identified by a number. *)
Definition Cursor := nat.

(** [ExpelResult] (checkpoint_types.h): the two elements the header of
    [expelUnreferencedCheckpointItems] documents. *)
Record ExpelResult := mkExpelResult {
  expelCount : Z;
  estimateOfFreeMemory : Z
}.

Inductive MemoryRecoveryMechanism := checkpointExpel | cursorDrop.

(** The part of [Configuration] the task reads.  The getters are generated
    code; the quota and the two marks are [size_t] values, as the [size_t]
    expressions they are used in take them. *)
Record Configuration := mkConfiguration {
  maxSize : Z;
  cursorDroppingCheckpointMemUpperMark : Z;
  cursorDroppingCheckpointMemLowerMark : Z;
  chkExpelEnabled : bool
}.

(** The part of [EPStats] the task reads and updates. *)
Record EPStats := mkEPStats {
  estimatedTotalMemoryUsed : Z;
  mem_low_wat : Z;
  cursorDroppingUThreshold : Z;
  cursorDroppingLThreshold : Z;
  cursorsDropped : Z;
  cursorMemoryFreed : Z
}.

(** The collaborators of the task, over a world [W] that holds the
    vbucket map, the checkpoint managers and the DCP connections. *)
Record Engine (W : Type) := mkEngine {
  (* VBucketMap::getVBucketsTotalCheckpointMemoryUsage *)
  getVBucketsTotalCheckpointMemoryUsage : W -> Z;
  (* VBucketMap::getVBucketsSortedByChkMgrMem: (vbid, memory usage) pairs *)
  getVBucketsSortedByChkMgrMem : W -> list (Vbid * Z);
  (* KVBucket::getVBucket: false for a null VBucketPtr *)
  getVBucket : W -> Vbid -> bool;
  (* CheckpointManager::expelUnreferencedCheckpointItems of a vbucket *)
  expelUnreferencedCheckpointItems : Vbid -> W -> ExpelResult * W;
  (* CheckpointManager::getListOfCursorsToDrop of a vbucket *)
  getListOfCursorsToDrop : Vbid -> W -> list Cursor;
  (* DcpConnMap::handleSlowStream *)
  handleSlowStream : Vbid -> Cursor -> W -> bool * W;
  (* VBucket::getChkMgrMemUsageOfUnrefCheckpoints *)
  getChkMgrMemUsageOfUnrefCheckpoints : Vbid -> W -> Z
}.

Arguments getVBucketsTotalCheckpointMemoryUsage {W}.
Arguments getVBucketsSortedByChkMgrMem {W}.
Arguments getVBucket {W}.
Arguments expelUnreferencedCheckpointItems {W}.
Arguments getListOfCursorsToDrop {W}.
Arguments handleSlowStream {W}.
Arguments getChkMgrMemUsageOfUnrefCheckpoints {W}.


(** Every call the task makes to a collaborator, with what it returned. *)
Inductive Event :=
| EvExpel (vbid : Vbid) (expelResult : ExpelResult)
| EvGetListOfCursorsToDrop (vbid : Vbid) (cursors : list Cursor)
| EvHandleSlowStream (vbid : Vbid) (cursor : Cursor) (dropped : bool)
| EvGetChkMgrMemUsageOfUnrefCheckpoints (vbid : Vbid) (memoryFreed : Z)
| EvVisitAsync
| EvSnooze.

Definition isExpelEvent (e : Event) : bool :=
  match e with EvExpel _ _ => true | _ => false end.

Definition isCursorDropEvent (e : Event) : bool :=
  match e with
  | EvGetListOfCursorsToDrop _ _
  | EvHandleSlowStream _ _ _
  | EvGetChkMgrMemUsageOfUnrefCheckpoints _ _ => true
  | _ => false
  end.

(** The partitions a trace operates on, one entry per partition visit: an
    expel, or the fetch of the cursors to drop. *)
Fixpoint visitedVBuckets (tr : list Event) : list Vbid :=
  match tr with
  | [] => []
  | EvExpel vbid _ :: tr' => vbid :: visitedVBuckets tr'
  | EvGetListOfCursorsToDrop vbid _ :: tr' => vbid :: visitedVBuckets tr'
  | _ :: tr' => visitedVBuckets tr'
  end.

(** The readings of getChkMgrMemUsageOfUnrefCheckpoints in a trace, and the
    cursors the hook gave up. *)
Fixpoint unrefReadings (tr : list Event) : list Z :=
  match tr with
  | [] => []
  | EvGetChkMgrMemUsageOfUnrefCheckpoints _ m :: tr' => m :: unrefReadings tr'
  | _ :: tr' => unrefReadings tr'
  end.

Fixpoint droppedCursors (tr : list Event) : list Cursor :=
  match tr with
  | [] => []
  | EvHandleSlowStream _ c true :: tr' => c :: droppedCursors tr'
  | _ :: tr' => droppedCursors tr'
  end.

(** The state a run of the task reads and writes: the configuration and the
    statistics of the engine, the [available] flag of the task, the world of
    the collaborators and the calls made so far. *)
Record TaskState (W : Type) := mkTaskState {
  config : Configuration;
  stats : EPStats;
  available : bool;
  world : W;
  trace : list Event
}.

Arguments mkTaskState {W}.
Arguments config {W}.
Arguments stats {W}.
Arguments available {W}.
Arguments world {W}.
Arguments trace {W}.

(** ** ClosedUnrefCheckpointRemoverTask (checkpoint_remover.cc) *)

Module Remover.
Section WithEngine.

Context {W : Type} (E : Engine W).

Definition setWorld (w : W) (s : TaskState W) : TaskState W :=
  mkTaskState (config s) (stats s) (available s) w (trace s).

Definition setStats (st : EPStats) (s : TaskState W) : TaskState W :=
  mkTaskState (config s) st (available s) (world s) (trace s).

Definition setAvailable (b : bool) (s : TaskState W) : TaskState W :=
  mkTaskState (config s) (stats s) b (world s) (trace s).

Definition log (e : Event) (s : TaskState W) : TaskState W :=
  mkTaskState (config s) (stats s) (available s) (world s) (trace s ++ [e]).

(** [++stats.cursorsDropped; stats.cursorMemoryFreed += memoryFreed;] *)
Definition countDroppedCursor (memoryFreed : Z) (st : EPStats) : EPStats :=
  mkEPStats (estimatedTotalMemoryUsed st) (mem_low_wat st)
            (cursorDroppingUThreshold st) (cursorDroppingLThreshold st)
            (SizeT.add (cursorsDropped st) 1)
            (SizeT.add (cursorMemoryFreed st) memoryFreed).

(** *** isReductionInCheckpointMemoryNeeded *)

Definition chkptMemLimit (s : TaskState W) : Z :=
  SizeT.mul (maxSize (config s))
            (cursorDroppingCheckpointMemUpperMark (config s)) / 100.

Definition hitCheckpointMemoryThreshold (s : TaskState W) : bool :=
  chkptMemLimit s <=? getVBucketsTotalCheckpointMemoryUsage E (world s).

Definition aboveLowWatermark (s : TaskState W) : bool :=
  mem_low_wat (stats s) <=? estimatedTotalMemoryUsed (stats s).

Definition ckptMemExceedsCheckpointMemoryThreshold (s : TaskState W) : bool :=
  aboveLowWatermark s && hitCheckpointMemoryThreshold s.

Definition memUsedExceedsCursorDroppingUpperMark (s : TaskState W) : bool :=
  cursorDroppingUThreshold (stats s) <? estimatedTotalMemoryUsed (stats s).

Definition isReductionInCheckpointMemoryNeeded (s : TaskState W) : bool * Z :=
  let bucketQuota := maxSize (config s) in
  if memUsedExceedsCursorDroppingUpperMark s
     || ckptMemExceedsCheckpointMemoryThreshold s
  then
    let amountOfMemoryToClear :=
      if ckptMemExceedsCheckpointMemoryThreshold s then
        SizeT.sub (estimatedTotalMemoryUsed (stats s))
                  (SizeT.mul bucketQuota
                     (cursorDroppingCheckpointMemLowerMark (config s)) / 100)
      else
        SizeT.sub (estimatedTotalMemoryUsed (stats s))
                  (cursorDroppingLThreshold (stats s)) in
    (true, amountOfMemoryToClear)
  else (false, 0).

(** *** attemptMemoryRecovery *)

(** The loop [for (const auto& cursor : cursors)] of the [cursorDrop] case;
    the [else] branch is its [break]. *)
Fixpoint dropCursors (vbid : Vbid) (amountOfMemoryToClear : Z)
    (cursors : list Cursor) (memoryCleared : Z) (s : TaskState W)
    : Z * TaskState W :=
  match cursors with
  | [] => (memoryCleared, s)
  | cursor :: rest =>
    if memoryCleared <? amountOfMemoryToClear then
      let (dropped, w1) := handleSlowStream E vbid cursor (world s) in
      let s1 := log (EvHandleSlowStream vbid cursor dropped) (setWorld w1 s) in
      if dropped then
        let memoryFreed := getChkMgrMemUsageOfUnrefCheckpoints E vbid w1 in
        let s2 := log (EvGetChkMgrMemUsageOfUnrefCheckpoints vbid memoryFreed)
                      s1 in
        let s3 := setStats (countDroppedCursor memoryFreed (stats s2)) s2 in
        dropCursors vbid amountOfMemoryToClear rest
                    (SizeT.add memoryCleared memoryFreed) s3
      else
        dropCursors vbid amountOfMemoryToClear rest memoryCleared s1
    else (memoryCleared, s)
  end.

(** The loop [for (const auto& it : vbuckets)]. *)
Fixpoint recoverFrom (mechanism : MemoryRecoveryMechanism)
    (amountOfMemoryToClear : Z) (vbuckets : list (Vbid * Z))
    (memoryCleared : Z) (s : TaskState W) : Z * TaskState W :=
  match vbuckets with
  | [] => (memoryCleared, s)
  | it :: rest =>
    if amountOfMemoryToClear <=? memoryCleared then (memoryCleared, s)
    else
      let vbid := fst it in
      if negb (getVBucket E (world s) vbid) then
        recoverFrom mechanism amountOfMemoryToClear rest memoryCleared s
      else
        match mechanism with
        | checkpointExpel =>
          let (expelResult, w1) :=
            expelUnreferencedCheckpointItems E vbid (world s) in
          recoverFrom mechanism amountOfMemoryToClear rest
            (SizeT.add memoryCleared (estimateOfFreeMemory expelResult))
            (log (EvExpel vbid expelResult) (setWorld w1 s))
        | cursorDrop =>
          let cursors := getListOfCursorsToDrop E vbid (world s) in
          let (memoryCleared1, s1) :=
            dropCursors vbid amountOfMemoryToClear cursors memoryCleared
                        (log (EvGetListOfCursorsToDrop vbid cursors) s) in
          recoverFrom mechanism amountOfMemoryToClear rest memoryCleared1 s1
        end
  end.

Definition attemptMemoryRecovery (mechanism : MemoryRecoveryMechanism)
    (amountOfMemoryToClear : Z) (s : TaskState W) : Z * TaskState W :=
  recoverFrom mechanism amountOfMemoryToClear
              (getVBucketsSortedByChkMgrMem E (world s)) 0 s.

(** *** run *)

(** [// Try expelling first, if enabled]: the value of
    [amountOfMemoryRecovered] and the state after it. *)
Definition expelPass (amountOfMemoryToClear : Z) (s : TaskState W)
    : Z * TaskState W :=
  if chkExpelEnabled (config s) then
    attemptMemoryRecovery checkpointExpel amountOfMemoryToClear s
  else (0, s).

(** [// If still need to recover more memory, drop cursors] *)
Definition cursorDropPass (amountOfMemoryToClear amountOfMemoryRecovered : Z)
    (s : TaskState W) : TaskState W :=
  if amountOfMemoryRecovered <? amountOfMemoryToClear then
    snd (attemptMemoryRecovery cursorDrop
           (SizeT.sub amountOfMemoryToClear amountOfMemoryRecovered) s)
  else s.

(** The body of [if (shouldReduceMemory)]. *)
Definition reduceMemory (amountOfMemoryToClear : Z) (s : TaskState W)
    : TaskState W :=
  let (amountOfMemoryRecovered, s1) := expelPass amountOfMemoryToClear s in
  cursorDropPass amountOfMemoryToClear amountOfMemoryRecovered s1.

(** [available.compare_exchange_strong(inverse, false)] with [inverse = true]
    succeeds, and clears the flag, exactly when the flag is set. *)
Definition run (s : TaskState W) : bool * TaskState W :=
  let s' :=
    if available s then
      let s0 := setAvailable false s in
      let (shouldReduceMemory, amountOfMemoryToClear) :=
        isReductionInCheckpointMemoryNeeded s0 in
      let s1 :=
        if shouldReduceMemory then reduceMemory amountOfMemoryToClear s0
        else s0 in
      log EvVisitAsync s1
    else s in
  (true, log EvSnooze s').

(** *** The recovery loop as the specification words it

    Section 4.4, step 3: one loop over the partitions; for each, until the
    target is met, (a) expel when enabled, (b) when still short, drop the
    cursors of that partition. *)
Fixpoint perPartitionRecovery (amountOfMemoryToClear : Z)
    (vbuckets : list (Vbid * Z)) (memoryCleared : Z) (s : TaskState W)
    : Z * TaskState W :=
  match vbuckets with
  | [] => (memoryCleared, s)
  | it :: rest =>
    if amountOfMemoryToClear <=? memoryCleared then (memoryCleared, s)
    else
      let vbid := fst it in
      if negb (getVBucket E (world s) vbid) then
        perPartitionRecovery amountOfMemoryToClear rest memoryCleared s
      else
        let (cleared1, s1) :=
          if chkExpelEnabled (config s) then
            let (expelResult, w1) :=
              expelUnreferencedCheckpointItems E vbid (world s) in
            (SizeT.add memoryCleared (estimateOfFreeMemory expelResult),
             log (EvExpel vbid expelResult) (setWorld w1 s))
          else (memoryCleared, s) in
        let (cleared2, s2) :=
          if cleared1 <? amountOfMemoryToClear then
            let cursors := getListOfCursorsToDrop E vbid (world s1) in
            dropCursors vbid amountOfMemoryToClear cursors cleared1
                        (log (EvGetListOfCursorsToDrop vbid cursors) s1)
          else (cleared1, s1) in
        perPartitionRecovery amountOfMemoryToClear rest cleared2 s2
  end.

End WithEngine.
End Remover.

(** ** PagingVisitor::removeClosedUnrefCheckpoints (paging_visitor.cc) *)

Module Paging.

(** The collaborators of the visitor: the checkpoint manager of the vbucket
    and what it reports. *)
Record Engine (W : Type) := mkEngine {
  (* CheckpointManager::removeClosedUnrefCheckpoints: the number of items
     purged and the flag it writes through [newOpenCheckpointCreated] *)
  checkpointManager_removeClosedUnrefCheckpoints :
    Vbid -> W -> (Z * bool) * W;
  (* CheckpointManager::getHighSeqno *)
  getHighSeqno : Vbid -> W -> Z
}.

Arguments checkpointManager_removeClosedUnrefCheckpoints {W}.
Arguments getHighSeqno {W}.

Inductive Event :=
| EvRemoveClosedUnrefCheckpoints (vbid : Vbid) (removed : Z)
    (newCheckpointCreated : bool)
| EvNotifyVBConnections (vbid : Vbid) (seqno : Z).

Record VisitorState (W : Type) := mkVisitorState {
  itemsRemovedFromCheckpoints : Z;
  world : W;
  trace : list Event
}.

Arguments mkVisitorState {W}.
Arguments itemsRemovedFromCheckpoints {W}.
Arguments world {W}.
Arguments trace {W}.

Section WithEngine.

Context {W : Type} (E : Engine W).

Definition removeClosedUnrefCheckpoints (vbid : Vbid)
    (s : VisitorState W) : VisitorState W :=
  let '(removed, newCheckpointCreated, w1) :=
    checkpointManager_removeClosedUnrefCheckpoints E vbid (world s) in
  let s1 :=
    mkVisitorState
      (SizeT.add (itemsRemovedFromCheckpoints s) removed) w1
      (trace s ++ [EvRemoveClosedUnrefCheckpoints vbid removed
                                                  newCheckpointCreated]) in
  if newCheckpointCreated then
    mkVisitorState (itemsRemovedFromCheckpoints s1) (world s1)
      (trace s1 ++ [EvNotifyVBConnections vbid (getHighSeqno E vbid (world s1))])
  else s1.

End WithEngine.
End Paging.

(** ** CheckpointManager (checkpoint_manager.h)

    The header declares the operations; their bodies (checkpoint_manager.cc)
    are not part of the sources at hand.  The data model follows sections 3
    and 4.2 of the specification. *)

Module CheckpointManager.

Inductive CheckpointType := Memory | Disk.

Inductive checkpoint_state := CHECKPOINT_OPEN | CHECKPOINT_CLOSED.

Inductive queue_op :=
| mutation | deletion | expiration
| pending_sync_write | commit_sync_write | abort_sync_write
| set_vbucket_state | checkpoint_start | checkpoint_end | empty.

Definition isMetaOp (op : queue_op) : bool :=
  match op with
  | set_vbucket_state | checkpoint_start | checkpoint_end | empty => true
  | _ => false
  end.

Definition CheckpointType_eqb (a b : CheckpointType) : bool :=
  match a, b with
  | Memory, Memory | Disk, Disk => true
  | _, _ => false
  end.

Record QueuedItem := mkItem {
  key : option string;
  bySeqno : Z;
  operation : queue_op
}.

Record Checkpoint := mkCheckpoint {
  id : Z;
  state : checkpoint_state;
  ckptType : CheckpointType;
  snapStart : Z;
  snapEnd : Z;
  highCompletedSeqno : option Z;
  items : list QueuedItem
}.

(** A cursor: the index of its checkpoint in the list of the manager and
    the number of items of that checkpoint it has gone past. *)
Record CheckpointCursor := mkCursor {
  name : string;
  currentCheckpoint : nat;
  currentPos : nat;
  droppable : bool
}.

Record Manager := mkManager {
  checkpointList : list Checkpoint;
  lastBySeqno : Z;
  connCursors : list (string * CheckpointCursor)
}.

(** [CursorRegResult]. *)
Record CursorRegResult := mkCursorRegResult {
  seqno : Z;
  tryBackfill : bool
}.

Record CheckpointSnapshotRange := mkRange {
  rangeStart : Z;
  rangeEnd : Z;
  rangeHighCompletedSeqno : option Z
}.

Record ItemsForCursor := mkItemsForCursor {
  ranges : list CheckpointSnapshotRange;
  moreAvailable : bool;
  checkpointType : CheckpointType
}.

Definition isNonMeta (it : QueuedItem) : bool := negb (isMetaOp (operation it)).

Definition numNonMeta (l : list QueuedItem) : Z :=
  Z.of_nat (List.length (filter isNonMeta l)).

Definition rangeOf (c : Checkpoint) : CheckpointSnapshotRange :=
  mkRange (snapStart c) (snapEnd c) (highCompletedSeqno c).

Fixpoint findIndex {A : Type} (p : A -> bool) (l : list A) : option nat :=
  match l with
  | [] => None
  | x :: l' =>
    if p x then Some O
    else match findIndex p l' with
         | Some i => Some (S i)
         | None => None
         end
  end.

Definition removeCursorNamed (n : string)
    (cs : list (string * CheckpointCursor)) : list (string * CheckpointCursor) :=
  filter (fun e => negb (String.eqb (fst e) n)) cs.

Fixpoint lookupCursor (n : string) (cs : list (string * CheckpointCursor))
    : option CheckpointCursor :=
  match cs with
  | [] => None
  | (n', c) :: cs' => if String.eqb n' n then Some c else lookupCursor n cs'
  end.

(** What a cursor at offset [pos] of checkpoint [idx] has still to observe:
    the rest of its checkpoint, then every later checkpoint. *)
Definition remainingItems (l : list Checkpoint) (idx pos : nat)
    : list QueuedItem :=
  match nth_error l idx with
  | Some c => skipn pos (items c) ++ concat (map items (skipn (S idx) l))
  | None => []
  end.

Definition containsSeqno (startBySeqno : Z) (c : Checkpoint) : bool :=
  (snapStart c <=? startBySeqno) && (startBySeqno <=? snapEnd c).

(** Modelled from the spec: the body of
    [CheckpointManager::registerCursorBySeqno] (checkpoint_manager.cc) is
    missing.  Section 4.2: the checkpoint whose snapshot range contains
    [startBySeqno], or the first one with [snapStart > startBySeqno] if none
    contains it; the open checkpoint when [startBySeqno >= lastBySeqno]. *)
Definition locateCheckpoint (startBySeqno : Z) (m : Manager) : nat :=
  if lastBySeqno m <=? startBySeqno then Nat.pred (List.length (checkpointList m))
  else
    match findIndex (containsSeqno startBySeqno) (checkpointList m) with
    | Some i => i
    | None =>
      match findIndex (fun c => startBySeqno <? snapStart c)
                      (checkpointList m) with
      | Some i => i
      | None => Nat.pred (List.length (checkpointList m))
      end
    end.

(** Modelled from the spec: the position inside the located checkpoint, at
    the first item whose [bySeqno > startBySeqno] (the end if there is
    none). *)
Definition locatePosition (startBySeqno : Z) (l : list QueuedItem) : nat :=
  match findIndex (fun it => startBySeqno <? bySeqno it) l with
  | Some i => i
  | None => List.length l
  end.

(** Modelled from the spec: [CheckpointManager::registerCursorBySeqno],
    whose body is missing.  Section 4.2: a cursor of that name is removed
    first; the cursor is placed as [locateCheckpoint] and [locatePosition]
    say; the result holds the seqno from which the cursor will next observe
    items (one past [lastBySeqno] when nothing is left to observe) and
    [tryBackfill], true iff [startBySeqno] precedes the earliest snapshot the
    manager still retains.  The closing of the open checkpoint on a landed
    range is a side effect on the list that the result does not depend on; it
    is left out. *)
Definition registerCursorBySeqno (n : string) (startBySeqno : Z) (m : Manager)
    : CursorRegResult * Manager :=
  let idx := locateCheckpoint startBySeqno m in
  let pos :=
    match nth_error (checkpointList m) idx with
    | Some c => locatePosition startBySeqno (items c)
    | None => O
    end in
  let cursor := mkCursor n idx pos (negb (String.eqb n "persistence")) in
  let result :=
    mkCursorRegResult
      match remainingItems (checkpointList m) idx pos with
      | it :: _ => bySeqno it
      | [] => lastBySeqno m + 1
      end
      match checkpointList m with
      | c :: _ => startBySeqno <? snapStart c
      | [] => false
      end in
  (result,
   mkManager (checkpointList m) (lastBySeqno m)
             ((n, cursor) :: removeCursorNamed n (connCursors m))).

(** [approxLimit]: [None] for the unbounded drain. *)
Definition limitReached (approxLimit : option Z) (count : Z) : bool :=
  match approxLimit with
  | Some l => l <=? count
  | None => false
  end.

(** Modelled from the spec: the walk of [getItemsForCursor], whose body is
    missing.  Section 4.2: walk to the end of the current checkpoint; at its
    [checkpoint_end] (a closed checkpoint that has a successor) go on into
    the next checkpoint only if it has the same type, and, for the bounded
    variant, only if fewer than [approxLimit] non-meta items were fetched so
    far.  The result lists each checkpoint visited with the items fetched
    from it. *)
Fixpoint visitCheckpoints (approxLimit : option Z) (count : Z)
    (cur : Checkpoint) (curItems : list QueuedItem) (next : list Checkpoint)
    : list (Checkpoint * list QueuedItem) :=
  (cur, curItems) ::
  match next with
  | [] => []
  | n :: next' =>
    match state cur with
    | CHECKPOINT_OPEN => []
    | CHECKPOINT_CLOSED =>
      if limitReached approxLimit (count + numNonMeta curItems) then []
      else if CheckpointType_eqb (ckptType cur) (ckptType n) then
        visitCheckpoints approxLimit (count + numNonMeta curItems)
                         n (items n) next'
      else []
    end
  end.

(** Where a drain starts: a cursor that has gone past every item of a closed
    checkpoint enters the next checkpoint (this is how a second call yields
    the checkpoint of the next type on its own). *)
Definition drainStart (l : list Checkpoint) (cursor : CheckpointCursor)
    : option (nat * nat * Checkpoint) :=
  match nth_error l (currentCheckpoint cursor) with
  | None => None
  | Some c =>
    match state c, nth_error l (S (currentCheckpoint cursor)) with
    | CHECKPOINT_CLOSED, Some c' =>
      if (List.length (items c) <=? currentPos cursor)%nat
      then Some (S (currentCheckpoint cursor), O, c')
      else Some (currentCheckpoint cursor, currentPos cursor, c)
    | _, _ => Some (currentCheckpoint cursor, currentPos cursor, c)
    end
  end.

(** Modelled from the spec: the drain shared by [getNextItemsForCursor] and
    [getItemsForCursor], whose bodies are missing.  [None] for a cursor whose
    checkpoint is not in the list.  Returns the items fetched, the
    [ItemsForCursor] and the cursor moved past the items fetched. *)
Definition drain (approxLimit : option Z) (cursor : CheckpointCursor)
    (m : Manager)
    : option (list QueuedItem * ItemsForCursor * CheckpointCursor) :=
  match drainStart (checkpointList m) cursor with
  | None => None
  | Some (idx, pos, c) =>
    let visited :=
      visitCheckpoints approxLimit 0 c (skipn pos (items c))
                       (skipn (S idx) (checkpointList m)) in
    let lastIdx := (idx + Nat.pred (List.length visited))%nat in
    let lastPos :=
      match nth_error (checkpointList m) lastIdx with
      | Some c' => List.length (items c')
      | None => O
      end in
    Some (concat (map snd visited),
          mkItemsForCursor
            (map (fun v => rangeOf (fst v)) visited)
            (negb (Nat.eqb (S lastIdx) (List.length (checkpointList m))))
            (ckptType c),
          mkCursor (name cursor) lastIdx lastPos (droppable cursor))
  end.

Definition getNextItemsForCursor (cursor : CheckpointCursor) (m : Manager)
    : option (list QueuedItem * ItemsForCursor * CheckpointCursor) :=
  drain None cursor m.

Definition getItemsForCursor (cursor : CheckpointCursor) (m : Manager)
    (approxLimit : Z)
    : option (list QueuedItem * ItemsForCursor * CheckpointCursor) :=
  drain (Some approxLimit) cursor m.

(** The logical log of a manager, and the invariant on it (section 3,
    invariant 2, with the meta items sharing the seqno of a neighbour):
    bySeqno never decreases along the log. *)
Definition logOf (l : list Checkpoint) : list QueuedItem :=
  concat (map items l).

Definition seqnosAscend (l : list Checkpoint) : Prop :=
  StronglySorted Z.le (map bySeqno (logOf l)).

End CheckpointManager.

(** ** A small manager to run the cursor operations on *)

Module CheckpointExample.
Import CheckpointManager.

Definition meta (op : queue_op) (s : Z) : QueuedItem := mkItem None s op.

Definition mut (k : string) (s : Z) : QueuedItem := mkItem (Some k) s mutation.

(** Two closed Memory checkpoints, a closed Disk checkpoint, the open
    Memory checkpoint. *)
Definition ckpt1 : Checkpoint :=
  mkCheckpoint 1 CHECKPOINT_CLOSED Memory 1 2 None
    [meta checkpoint_start 1; mut "a" 1; mut "b" 2; meta checkpoint_end 2].

Definition ckpt2 : Checkpoint :=
  mkCheckpoint 2 CHECKPOINT_CLOSED Memory 3 4 None
    [meta checkpoint_start 3; mut "c" 3; mut "d" 4; meta checkpoint_end 4].

Definition ckpt3 : Checkpoint :=
  mkCheckpoint 3 CHECKPOINT_CLOSED Disk 5 6 (Some 5)
    [meta checkpoint_start 5; mut "e" 5; mut "f" 6; meta checkpoint_end 6].

Definition ckpt4 : Checkpoint :=
  mkCheckpoint 4 CHECKPOINT_OPEN Memory 7 7 None
    [meta checkpoint_start 7; mut "g" 7].

Definition persistence : CheckpointCursor :=
  mkCursor "persistence" 0 0 false.

Definition manager : Manager :=
  mkManager [ckpt1; ckpt2; ckpt3; ckpt4] 7 [("persistence"%string, persistence)].

(** The manager after the first checkpoint was removed. *)
Definition managerFrom3 : Manager :=
  mkManager [ckpt2; ckpt3; ckpt4] 7
            [("persistence"%string, mkCursor "persistence" 0 4 false)].

End CheckpointExample.

(** ** Shapes of traces *)

(** [Subseq l1 l2]: [l1] is [l2] with some elements left out, in order. *)
Inductive Subseq {A : Type} : list A -> list A -> Prop :=
| Subseq_nil : forall l, Subseq [] l
| Subseq_take : forall x l1 l2, Subseq l1 l2 -> Subseq (x :: l1) (x :: l2)
| Subseq_skip : forall x l1 l2, Subseq l1 l2 -> Subseq l1 (x :: l2).

(** A pass of expels towards a target: every expel is made while the bytes
    cleared so far are short of the target, and adds its estimate. *)
Inductive ExpelPassTrace (amountOfMemoryToClear : Z)
    : Z -> list Event -> Z -> Prop :=
| ExpelPass_done : forall cleared,
    ExpelPassTrace amountOfMemoryToClear cleared [] cleared
| ExpelPass_step : forall cleared vbid r tr cleared',
    cleared < amountOfMemoryToClear ->
    ExpelPassTrace amountOfMemoryToClear
      (SizeT.add cleared (estimateOfFreeMemory r)) tr cleared' ->
    ExpelPassTrace amountOfMemoryToClear cleared (EvExpel vbid r :: tr) cleared'.

(** The calls of the cursor loop of one partition: the hook is called on the
    cursors in order, each call while the bytes cleared are short of the
    target; the unreferenced memory is read, and added, after the calls that
    returned true and only after those. *)
Inductive CursorLoopTrace (vbid : Vbid) (amountOfMemoryToClear : Z)
    : list Cursor -> Z -> list Event -> Z -> Prop :=
| CursorLoop_end : forall cleared,
    CursorLoopTrace vbid amountOfMemoryToClear [] cleared [] cleared
| CursorLoop_break : forall cursors cleared,
    amountOfMemoryToClear <= cleared ->
    CursorLoopTrace vbid amountOfMemoryToClear cursors cleared [] cleared
| CursorLoop_dropped : forall cursor rest cleared memoryFreed tr cleared',
    cleared < amountOfMemoryToClear ->
    CursorLoopTrace vbid amountOfMemoryToClear rest
      (SizeT.add cleared memoryFreed) tr cleared' ->
    CursorLoopTrace vbid amountOfMemoryToClear (cursor :: rest) cleared
      (EvHandleSlowStream vbid cursor true
         :: EvGetChkMgrMemUsageOfUnrefCheckpoints vbid memoryFreed :: tr)
      cleared'
| CursorLoop_kept : forall cursor rest cleared tr cleared',
    cleared < amountOfMemoryToClear ->
    CursorLoopTrace vbid amountOfMemoryToClear rest cleared tr cleared' ->
    CursorLoopTrace vbid amountOfMemoryToClear (cursor :: rest) cleared
      (EvHandleSlowStream vbid cursor false :: tr) cleared'.

(** A pass of cursor drops towards a target: the cursors of a partition are
    fetched while the bytes cleared so far are short of the target, and the
    cursor loop of that partition follows. *)
Inductive DropPassTrace (amountOfMemoryToClear : Z)
    : Z -> list Event -> Z -> Prop :=
| DropPass_done : forall cleared,
    DropPassTrace amountOfMemoryToClear cleared [] cleared
| DropPass_step : forall cleared vbid cursors trc cleared1 tr cleared',
    cleared < amountOfMemoryToClear ->
    CursorLoopTrace vbid amountOfMemoryToClear cursors cleared trc cleared1 ->
    DropPassTrace amountOfMemoryToClear cleared1 tr cleared' ->
    DropPassTrace amountOfMemoryToClear cleared
      (EvGetListOfCursorsToDrop vbid cursors :: trc ++ tr) cleared'.

(** ** Whole passes over the partitions

    A pass described call by call, from the list of partitions, the bytes
    cleared and the world it starts in to the bytes cleared and the world it
    ends in.  Nothing is left to choice: a partition is passed over only when
    its vbucket is gone, and the pass ends only at the end of the list or
    once the target is met. *)

(** The cursor loop of one partition, with the world each call leaves. *)
Inductive CursorLoopOver {W : Type} (E : Engine W) (vbid : Vbid)
    (amountOfMemoryToClear : Z)
    : list Cursor -> Z -> W -> list Event -> Z -> W -> Prop :=
| CursorOver_end : forall cleared w,
    CursorLoopOver E vbid amountOfMemoryToClear [] cleared w [] cleared w
| CursorOver_break : forall cursors cleared w,
    amountOfMemoryToClear <= cleared ->
    CursorLoopOver E vbid amountOfMemoryToClear cursors cleared w [] cleared w
| CursorOver_dropped : forall cursor rest cleared w w1 tr cleared' w',
    cleared < amountOfMemoryToClear ->
    handleSlowStream E vbid cursor w = (true, w1) ->
    CursorLoopOver E vbid amountOfMemoryToClear rest
      (SizeT.add cleared (getChkMgrMemUsageOfUnrefCheckpoints E vbid w1)) w1
      tr cleared' w' ->
    CursorLoopOver E vbid amountOfMemoryToClear (cursor :: rest) cleared w
      (EvHandleSlowStream vbid cursor true
         :: EvGetChkMgrMemUsageOfUnrefCheckpoints vbid
              (getChkMgrMemUsageOfUnrefCheckpoints E vbid w1)
         :: tr)
      cleared' w'
| CursorOver_kept : forall cursor rest cleared w w1 tr cleared' w',
    cleared < amountOfMemoryToClear ->
    handleSlowStream E vbid cursor w = (false, w1) ->
    CursorLoopOver E vbid amountOfMemoryToClear rest cleared w1 tr cleared' w' ->
    CursorLoopOver E vbid amountOfMemoryToClear (cursor :: rest) cleared w
      (EvHandleSlowStream vbid cursor false :: tr) cleared' w'.

(** The expel pass: while the target is not met, the next partition of the
    list whose vbucket is there is expelled from, and its estimate added. *)
Inductive ExpelPassOver {W : Type} (E : Engine W) (amountOfMemoryToClear : Z)
    : list (Vbid * Z) -> Z -> W -> list Event -> Z -> W -> Prop :=
| ExpelOver_end : forall cleared w,
    ExpelPassOver E amountOfMemoryToClear [] cleared w [] cleared w
| ExpelOver_met : forall vbuckets cleared w,
    amountOfMemoryToClear <= cleared ->
    ExpelPassOver E amountOfMemoryToClear vbuckets cleared w [] cleared w
| ExpelOver_gone : forall it rest cleared w tr cleared' w',
    cleared < amountOfMemoryToClear ->
    getVBucket E w (fst it) = false ->
    ExpelPassOver E amountOfMemoryToClear rest cleared w tr cleared' w' ->
    ExpelPassOver E amountOfMemoryToClear (it :: rest) cleared w tr cleared' w'
| ExpelOver_expel : forall it rest cleared w r w1 tr cleared' w',
    cleared < amountOfMemoryToClear ->
    getVBucket E w (fst it) = true ->
    expelUnreferencedCheckpointItems E (fst it) w = (r, w1) ->
    ExpelPassOver E amountOfMemoryToClear rest
      (SizeT.add cleared (estimateOfFreeMemory r)) w1 tr cleared' w' ->
    ExpelPassOver E amountOfMemoryToClear (it :: rest) cleared w
      (EvExpel (fst it) r :: tr) cleared' w'.

(** The cursor-drop pass: while the target is not met, the cursors of the
    next partition of the list whose vbucket is there are fetched and its
    cursor loop is run. *)
Inductive DropPassOver {W : Type} (E : Engine W) (amountOfMemoryToClear : Z)
    : list (Vbid * Z) -> Z -> W -> list Event -> Z -> W -> Prop :=
| DropOver_end : forall cleared w,
    DropPassOver E amountOfMemoryToClear [] cleared w [] cleared w
| DropOver_met : forall vbuckets cleared w,
    amountOfMemoryToClear <= cleared ->
    DropPassOver E amountOfMemoryToClear vbuckets cleared w [] cleared w
| DropOver_gone : forall it rest cleared w tr cleared' w',
    cleared < amountOfMemoryToClear ->
    getVBucket E w (fst it) = false ->
    DropPassOver E amountOfMemoryToClear rest cleared w tr cleared' w' ->
    DropPassOver E amountOfMemoryToClear (it :: rest) cleared w tr cleared' w'
| DropOver_step : forall it rest cleared w trc cleared1 w1 tr cleared' w',
    cleared < amountOfMemoryToClear ->
    getVBucket E w (fst it) = true ->
    CursorLoopOver E (fst it) amountOfMemoryToClear
      (getListOfCursorsToDrop E (fst it) w) cleared w trc cleared1 w1 ->
    DropPassOver E amountOfMemoryToClear rest cleared1 w1 tr cleared' w' ->
    DropPassOver E amountOfMemoryToClear (it :: rest) cleared w
      (EvGetListOfCursorsToDrop (fst it) (getListOfCursorsToDrop E (fst it) w)
         :: trc ++ tr)
      cleared' w'.

(** A list of (partition, checkpoint memory usage) pairs by checkpoint memory
    usage, descending. *)
Definition byChkMgrMemDescending (l : list (Vbid * Z)) : Prop :=
  StronglySorted (fun p q => snd q <= snd p) l.

(** ** A small bucket to run the task on *)

Module Example.

(** A vbucket: whether [getVBucket] still finds it, the memory of its
    checkpoint manager, what the next expel frees, its droppable cursors
    (handle, whether the stream gives the cursor up, bytes of checkpoints the
    drop unreferences) and the memory of its unreferenced checkpoints. *)
Record VB := mkVB {
  vbId : Vbid;
  vbPresent : bool;
  chkMgrMem : Z;
  expelEstimate : Z;
  vbCursors : list (Cursor * bool * Z);
  unrefMem : Z
}.

Definition World := list VB.

Definition findVB (vbid : Vbid) (w : World) : option VB :=
  find (fun v => vbId v =? vbid) w.

Definition updateVB (vbid : Vbid) (f : VB -> VB) (w : World) : World :=
  map (fun v => if vbId v =? vbid then f v else v) w.

Definition expelVB (v : VB) : VB :=
  mkVB (vbId v) (vbPresent v) (chkMgrMem v - expelEstimate v) 0
       (vbCursors v) (unrefMem v).

Definition dropCursorVB (c : Cursor) (gain : Z) (v : VB) : VB :=
  mkVB (vbId v) (vbPresent v) (chkMgrMem v) (expelEstimate v)
       (filter (fun e => negb (Nat.eqb (fst (fst e)) c)) (vbCursors v))
       (unrefMem v + gain).

(** Modelled from the spec: the sort of
    [VBucketMap::getVBucketsSortedByChkMgrMem], whose body (vbucketmap.cc) is
    missing.  Section 4.4, step 3: by checkpoint memory usage, descending. *)
Fixpoint insertByChkMgrMem (p : Vbid * Z) (l : list (Vbid * Z))
    : list (Vbid * Z) :=
  match l with
  | [] => [p]
  | q :: l' =>
    if snd q <? snd p then p :: q :: l' else q :: insertByChkMgrMem p l'
  end.

Definition sortByChkMgrMem (l : list (Vbid * Z)) : list (Vbid * Z) :=
  fold_right insertByChkMgrMem [] l.

Definition engine : Engine World := {|
  getVBucketsTotalCheckpointMemoryUsage :=
    fun w => fold_right (fun v acc => chkMgrMem v + acc) 0 w;
  getVBucketsSortedByChkMgrMem :=
    fun w => sortByChkMgrMem (map (fun v => (vbId v, chkMgrMem v)) w);
  getVBucket :=
    fun w vbid =>
      match findVB vbid w with Some v => vbPresent v | None => false end;
  expelUnreferencedCheckpointItems :=
    fun vbid w =>
      match findVB vbid w with
      | Some v => (mkExpelResult (if 0 <? expelEstimate v then 1 else 0)
                                 (expelEstimate v),
                   updateVB vbid expelVB w)
      | None => (mkExpelResult 0 0, w)
      end;
  getListOfCursorsToDrop :=
    fun vbid w =>
      match findVB vbid w with
      | Some v => map (fun e => fst (fst e)) (vbCursors v)
      | None => []
      end;
  handleSlowStream :=
    fun vbid c w =>
      match findVB vbid w with
      | Some v =>
        match find (fun e => Nat.eqb (fst (fst e)) c) (vbCursors v) with
        | Some (_, true, gain) => (true, updateVB vbid (dropCursorVB c gain) w)
        | _ => (false, w)
        end
      | None => (false, w)
      end;
  getChkMgrMemUsageOfUnrefCheckpoints :=
    fun vbid w =>
      match findVB vbid w with Some v => unrefMem v | None => 0 end
|}.

(** Quota 1000; checkpoint memory marks 50% and 30%; expel enabled. *)
Definition configuration : Configuration := mkConfiguration 1000 50 30 true.

(** Two vbuckets, by checkpoint memory descending; one cursor each. *)
Definition twoVBuckets : World :=
  [ mkVB 0 true 400 10 [(1%nat, true, 300)] 0;
    mkVB 1 true 200 20 [(2%nat, true, 100)] 0 ].

(** One vbucket that is gone when the task looks it up, one that is there. *)
Definition oneGone : World :=
  [ mkVB 0 false 400 10 [(1%nat, true, 300)] 0;
    mkVB 1 true 200 20 [(2%nat, false, 100)] 0 ].

(** One vbucket with two cursors; the second drop leaves 400 bytes of
    unreferenced checkpoints, 300 of them unreferenced by the first. *)
Definition twoCursors : World :=
  [ mkVB 0 true 600 0 [(1%nat, true, 300); (3%nat, true, 100)] 0 ].

(** One vbucket whose checkpoint memory, 100, is below 50% of the quota. *)
Definition oneSmall : World :=
  [ mkVB 0 true 100 10 [(1%nat, true, 50)] 0 ].

(** Memory used 900: above the low watermark 750, below the upper threshold
    950. *)
Definition statsCheckpointTrigger : EPStats := mkEPStats 900 750 950 800 0 0.

(** Memory used 900: above the low watermark 750 and above the upper
    threshold 850. *)
Definition statsBothTriggers : EPStats := mkEPStats 900 750 850 800 0 0.

(** Memory used 700: below the low watermark and the upper threshold. *)
Definition statsNoTrigger : EPStats := mkEPStats 700 750 850 800 0 0.

Definition start (st : EPStats) (w : World) : TaskState World :=
  mkTaskState configuration st true w [].

End Example.

(** ** What a run of the task accounts for *)

Module RemoverAccounting.

(** The memory estimate and the thresholds the task compares it with. *)
Definition thresholdsOf (st : EPStats) : Z * Z * Z * Z :=
  (estimatedTotalMemoryUsed st, mem_low_wat st,
   cursorDroppingUThreshold st, cursorDroppingLThreshold st).

(** [Accounted s s']: the calls [s'] logged after [s] explain its counters:
    [cursorsDropped] was incremented once per cursor the hook gave up, and
    [cursorMemoryFreed] grew by each reading of the unreferenced memory. *)
Definition Accounted {W : Type} (s s' : TaskState W) : Prop :=
  exists tr,
    trace s' = trace s ++ tr
    /\ cursorsDropped (stats s')
       = fold_left (fun n _ => SizeT.add n 1) (droppedCursors tr)
                   (cursorsDropped (stats s))
    /\ cursorMemoryFreed (stats s')
       = fold_left SizeT.add (unrefReadings tr) (cursorMemoryFreed (stats s)).

(** A bucket whose vbuckets are never gone: [getVBucket] finds every id. *)
Definition engineAllPresent : Engine Example.World :=
  mkEngine Example.World
    (getVBucketsTotalCheckpointMemoryUsage Example.engine)
    (getVBucketsSortedByChkMgrMem Example.engine)
    (fun _ _ => true)
    (expelUnreferencedCheckpointItems Example.engine)
    (getListOfCursorsToDrop Example.engine)
    (handleSlowStream Example.engine)
    (getChkMgrMemUsageOfUnrefCheckpoints Example.engine).

(** Memory used 200: above a low watermark of 100, below the 300 bytes that
    30% of the quota are. *)
Definition statsBelowLowerMark : EPStats := mkEPStats 200 100 950 800 0 0.

(** Memory used 300: exactly 30% of the quota. *)
Definition statsAtLowerMark : EPStats := mkEPStats 300 100 950 800 0 0.

(** Expel disabled. *)
Definition configurationNoExpel : Configuration :=
  mkConfiguration 1000 50 30 false.

End RemoverAccounting.

(** ** PagingVisitor: visit, doEviction, update, complete (paging_visitor.cc)

    [percent] is a [double]; the visitor only tests it against zero and
    hands it, times 100, to [ItemEviction::getThresholds], so it is a value
    of an abstract type [D] with those two operations.  The [ItemEviction]
    object is a value of an abstract type [IE]. *)

Module PagingVisitor.

Inductive vbucket_state_t :=
| vbucket_state_active | vbucket_state_replica
| vbucket_state_pending | vbucket_state_dead.

Inductive pager_type_t := ITEM_PAGER | EXPIRY_PAGER.

Inductive item_pager_phase := REPLICA_ONLY | ACTIVE_AND_PENDING_ONLY.

Inductive EvictionPolicy := Value | Full.

Definition isActive (st : vbucket_state_t) : bool :=
  match st with vbucket_state_active => true | _ => false end.

Definition isActiveOrPending (st : vbucket_state_t) : bool :=
  match st with
  | vbucket_state_active | vbucket_state_pending => true
  | _ => false
  end.

(** The part of a [StoredValue] the visitor reads and writes. *)
Record StoredValue := mkStoredValue {
  svKey : string;
  svPending : bool;
  svCompleted : bool;
  svDeleted : bool;
  svTempNonExistentItem : bool;
  svTempDeletedItem : bool;
  svExptime : Z;
  svFreqCounterValue : Z;
  svCas : Z
}.

(** [v.setFreqCounterValue(n)] *)
Definition setFreqCounterValue (n : Z) (v : StoredValue) : StoredValue :=
  mkStoredValue (svKey v) (svPending v) (svCompleted v) (svDeleted v)
    (svTempNonExistentItem v) (svTempDeletedItem v) (svExptime v) n (svCas v).

(** [v.toItem(vbid)]: the item made of a stored value for a vbucket. *)
Definition Item : Type := StoredValue * Vbid.

(** The collaborators: the store, the current vbucket, the [ItemEviction]
    object, the arithmetic of [double], and the constant
    [ItemEviction::casBitsNotTime]. *)
Record Store (D IE W : Type) := mkStore {
  (* KVBucket::deleteExpiredItems(expired, ExpireBy::Pager) *)
  deleteExpiredItems : list Item -> W -> W;
  (* KVBucket::getItemEvictionPolicy *)
  getItemEvictionPolicy : W -> EvictionPolicy;
  (* KVBucket::isMemoryUsageTooHigh *)
  isMemoryUsageTooHigh : W -> bool;
  (* KVBucket::notifyBackfillTasks *)
  notifyBackfillTasks : W -> W;
  (* KVBucket::checkAndMaybeFreeMemory *)
  checkAndMaybeFreeMemory : W -> W;
  (* currentBucket->getState(), currentBucket->getId() *)
  getState : W -> vbucket_state_t;
  getId : W -> Vbid;
  (* currentBucket->pageOut(readHandle, lh, v): whether the value was
     paged out, and the stored value after it *)
  pageOut : StoredValue -> W -> bool * StoredValue * W;
  (* currentBucket->eligibleToPageOut(lh, v) *)
  eligibleToPageOut : StoredValue -> W -> bool;
  (* currentBucket->addToFilter(key) *)
  addToFilter : string -> W -> W;
  (* StoredValue::isExpired(asOf) *)
  isExpired : StoredValue -> Z -> bool;
  (* ItemEviction *)
  addFreqAndAgeToHistograms : Z -> Z -> IE -> IE;
  isLearning : IE -> bool;
  isRequiredToUpdate : IE -> bool;
  getThresholds : D -> Z -> IE -> (Z * Z) * IE;
  casBitsNotTime : Z;
  (* percent <= 0 and percent * 100.0 *)
  leqZero : D -> bool;
  times100 : D -> D
}.

Arguments deleteExpiredItems {D IE W}.
Arguments getItemEvictionPolicy {D IE W}.
Arguments isMemoryUsageTooHigh {D IE W}.
Arguments notifyBackfillTasks {D IE W}.
Arguments checkAndMaybeFreeMemory {D IE W}.
Arguments getState {D IE W}.
Arguments getId {D IE W}.
Arguments pageOut {D IE W}.
Arguments eligibleToPageOut {D IE W}.
Arguments addToFilter {D IE W}.
Arguments isExpired {D IE W}.
Arguments addFreqAndAgeToHistograms {D IE W}.
Arguments isLearning {D IE W}.
Arguments isRequiredToUpdate {D IE W}.
Arguments getThresholds {D IE W}.
Arguments casBitsNotTime {D IE W}.
Arguments leqZero {D IE W}.
Arguments times100 {D IE W}.

(** The calls the visitor makes, with what they were given or returned. *)
Inductive Event :=
| EvDeleteExpiredItems (items : list Item)
| EvPageOut (k : string) (pagedOut : bool)
| EvAddToFilter (k : string)
| EvAddFreqAndAgeToHistograms (freq age : Z)
| EvFrequencyValuesEvictedHisto (activeOrPending : bool) (freq : Z)
| EvPagerHisto (owner : pager_type_t)
| EvNotifyBackfillTasks
| EvCheckAndMaybeFreeMemory.

(** The calls of [pageOut] in a trace, the keys given to [addToFilter] and
    the lists given to [deleteExpiredItems]. *)
Fixpoint pageOutCalls (tr : list Event) : list (string * bool) :=
  match tr with
  | [] => []
  | EvPageOut k pagedOut :: tr' => (k, pagedOut) :: pageOutCalls tr'
  | _ :: tr' => pageOutCalls tr'
  end.

Fixpoint filterAdds (tr : list Event) : list string :=
  match tr with
  | [] => []
  | EvAddToFilter k :: tr' => k :: filterAdds tr'
  | _ :: tr' => filterAdds tr'
  end.

Fixpoint deletedExpired (tr : list Event) : list (list Item) :=
  match tr with
  | [] => []
  | EvDeleteExpiredItems items :: tr' => items :: deletedExpired tr'
  | _ :: tr' => deletedExpired tr'
  end.

(** The members of the visitor that these functions read or write. *)
Record Visitor (D IE : Type) := mkVisitor {
  ejected : Z;
  freqCounterThreshold : Z;
  ageThreshold : Z;
  percent : D;
  startTime : Z;
  stateFinalizer : bool;
  owner : pager_type_t;
  isBelowLowWaterMark : bool;
  wasHighMemoryUsage : bool;
  pager_phase : option item_pager_phase;
  isEphemeral : bool;
  agePercentage : Z;
  freqCounterAgeThreshold : Z;
  maxCas : Z;
  expired : list Item;
  itemEviction : IE
}.

Arguments mkVisitor {D IE}.
Arguments ejected {D IE}.
Arguments freqCounterThreshold {D IE}.
Arguments ageThreshold {D IE}.
Arguments percent {D IE}.
Arguments startTime {D IE}.
Arguments stateFinalizer {D IE}.
Arguments owner {D IE}.
Arguments isBelowLowWaterMark {D IE}.
Arguments wasHighMemoryUsage {D IE}.
Arguments pager_phase {D IE}.
Arguments isEphemeral {D IE}.
Arguments agePercentage {D IE}.
Arguments freqCounterAgeThreshold {D IE}.
Arguments maxCas {D IE}.
Arguments expired {D IE}.
Arguments itemEviction {D IE}.

Record State (D IE W : Type) := mkState {
  visitor : Visitor D IE;
  world : W;
  trace : list Event
}.

Arguments mkState {D IE W}.
Arguments visitor {D IE W}.
Arguments world {D IE W}.
Arguments trace {D IE W}.

Section WithStore.

Context {D IE W : Type} (S : Store D IE W).

Definition setEjected (n : Z) (vs : Visitor D IE) : Visitor D IE :=
  mkVisitor n (freqCounterThreshold vs) (ageThreshold vs) (percent vs)
    (startTime vs) (stateFinalizer vs) (owner vs) (isBelowLowWaterMark vs)
    (wasHighMemoryUsage vs) (pager_phase vs) (isEphemeral vs)
    (agePercentage vs) (freqCounterAgeThreshold vs) (maxCas vs) (expired vs)
    (itemEviction vs).

Definition setExpired (l : list Item) (vs : Visitor D IE) : Visitor D IE :=
  mkVisitor (ejected vs) (freqCounterThreshold vs) (ageThreshold vs)
    (percent vs) (startTime vs) (stateFinalizer vs) (owner vs)
    (isBelowLowWaterMark vs) (wasHighMemoryUsage vs) (pager_phase vs)
    (isEphemeral vs) (agePercentage vs) (freqCounterAgeThreshold vs)
    (maxCas vs) l (itemEviction vs).

Definition setThresholds (thresholds : Z * Z) (vs : Visitor D IE)
    : Visitor D IE :=
  mkVisitor (ejected vs) (fst thresholds) (snd thresholds) (percent vs)
    (startTime vs) (stateFinalizer vs) (owner vs) (isBelowLowWaterMark vs)
    (wasHighMemoryUsage vs) (pager_phase vs) (isEphemeral vs)
    (agePercentage vs) (freqCounterAgeThreshold vs) (maxCas vs) (expired vs)
    (itemEviction vs).

Definition setItemEviction (ie : IE) (vs : Visitor D IE) : Visitor D IE :=
  mkVisitor (ejected vs) (freqCounterThreshold vs) (ageThreshold vs)
    (percent vs) (startTime vs) (stateFinalizer vs) (owner vs)
    (isBelowLowWaterMark vs) (wasHighMemoryUsage vs) (pager_phase vs)
    (isEphemeral vs) (agePercentage vs) (freqCounterAgeThreshold vs)
    (maxCas vs) (expired vs) ie.

Definition setStateFinalizer (b : bool) (vs : Visitor D IE) : Visitor D IE :=
  mkVisitor (ejected vs) (freqCounterThreshold vs) (ageThreshold vs)
    (percent vs) (startTime vs) b (owner vs) (isBelowLowWaterMark vs)
    (wasHighMemoryUsage vs) (pager_phase vs) (isEphemeral vs)
    (agePercentage vs) (freqCounterAgeThreshold vs) (maxCas vs) (expired vs)
    (itemEviction vs).

Definition setPagerPhase (p : item_pager_phase) (vs : Visitor D IE)
    : Visitor D IE :=
  mkVisitor (ejected vs) (freqCounterThreshold vs) (ageThreshold vs)
    (percent vs) (startTime vs) (stateFinalizer vs) (owner vs)
    (isBelowLowWaterMark vs) (wasHighMemoryUsage vs) (Some p) (isEphemeral vs)
    (agePercentage vs) (freqCounterAgeThreshold vs) (maxCas vs) (expired vs)
    (itemEviction vs).

Definition setVisitor (vs : Visitor D IE) (s : State D IE W) : State D IE W :=
  mkState vs (world s) (trace s).

Definition setWorld (w : W) (s : State D IE W) : State D IE W :=
  mkState (visitor s) w (trace s).

Definition logEvent (e : Event) (s : State D IE W) : State D IE W :=
  mkState (visitor s) (world s) (trace s ++ [e]).

(** [uint64_t age = (maxCas > v.getCas()) ? (maxCas - v.getCas()) : 0;
     age = age >> ItemEviction::casBitsNotTime;] *)
Definition itemAge (maxCasValue cas : Z) : Z :=
  Z.shiftr (if cas <? maxCasValue then SizeT.sub maxCasValue cas else 0)
           (casBitsNotTime S).

(** *** doEviction *)

Definition doEviction (v : StoredValue) (s : State D IE W)
    : bool * StoredValue * State D IE W :=
  let policy := getItemEvictionPolicy S (world s) in
  let k := svKey v in
  let '(pagedOut, v1, w1) := pageOut S v (world s) in
  let s1 := logEvent (EvPageOut k pagedOut) (setWorld w1 s) in
  if pagedOut then
    let s2 :=
      setVisitor (setEjected (SizeT.add (ejected (visitor s1)) 1) (visitor s1))
                 s1 in
    let s3 :=
      match policy with
      | Full => logEvent (EvAddToFilter k)
                         (setWorld (addToFilter S k (world s2)) s2)
      | Value => s2
      end in
    (true, v1, s3)
  else (false, v1, s1).

(** *** visit *)

(** The test [(storedValueFreqCounter <= freqCounterThreshold) &&
    ((storedValueFreqCounter < freqCounterAgeThreshold) ||
     (age >= ageThreshold))]. *)
Definition selectedForEviction (vs : Visitor D IE) (freq age : Z) : bool :=
  (freq <=? freqCounterThreshold vs)
  && ((freq <? freqCounterAgeThreshold vs) || (ageThreshold vs <=? age)).

(** The test [isExpired || v.isTempNonExistentItem() ||
    v.isTempDeletedItem()]. *)
Definition toBeExpired (v : StoredValue) (s : State D IE W) : bool :=
  (isActive (getState S (world s))
   && isExpired S v (startTime (visitor s)) && negb (svDeleted v))
  || svTempNonExistentItem v || svTempDeletedItem v.

(** The test [percent <= 0 || !pager_phase]. *)
Definition notItemPager (vs : Visitor D IE) : bool :=
  leqZero S (percent vs)
  || match pager_phase vs with None => true | Some _ => false end.

(** Whether a visit gets as far as the eviction test, and whether it then
    calls [doEviction]. *)
Definition reachesEviction (v : StoredValue) (s : State D IE W) : bool :=
  negb (svPending v || svCompleted v)
  && negb (toBeExpired v s)
  && negb (notItemPager (visitor s)).

Definition attemptsEviction (v : StoredValue) (s : State D IE W) : bool :=
  reachesEviction v s
  && selectedForEviction (visitor s) (svFreqCounterValue v)
                         (itemAge (maxCas (visitor s)) (svCas v)).

(** The tail of [visit]: the histograms and the thresholds. *)
Definition recordVisit (evicted : bool) (freq age : Z) (s : State D IE W)
    : State D IE W :=
  let s1 :=
    logEvent (EvAddFreqAndAgeToHistograms freq age)
      (setVisitor
         (setItemEviction
            (addFreqAndAgeToHistograms S freq age (itemEviction (visitor s)))
            (visitor s))
         s) in
  let s2 :=
    if evicted then
      logEvent (EvFrequencyValuesEvictedHisto
                  (isActiveOrPending (getState S (world s1))) freq) s1
    else s1 in
  if isLearning S (itemEviction (visitor s2))
     || isRequiredToUpdate S (itemEviction (visitor s2))
  then
    let '(thresholds, ie) :=
      getThresholds S (times100 S (percent (visitor s2)))
                    (agePercentage (visitor s2)) (itemEviction (visitor s2)) in
    setVisitor (setThresholds thresholds (setItemEviction ie (visitor s2))) s2
  else s2.

Definition visit (v : StoredValue) (s : State D IE W)
    : bool * StoredValue * State D IE W :=
  if svPending v || svCompleted v then (true, v, s)
  else if toBeExpired v s then
    (true, v,
     setVisitor
       (setExpired (expired (visitor s) ++ [(v, getId S (world s))])
                   (visitor s))
       s)
  else if notItemPager (visitor s) then (true, v, s)
  else
    let storedValueFreqCounter := svFreqCounterValue v in
    let age := itemAge (maxCas (visitor s)) (svCas v) in
    if selectedForEviction (visitor s) storedValueFreqCounter age then
      let '(done, v1, s1) := doEviction v s in
      if done then (true, v1, recordVisit true storedValueFreqCounter age s1)
      else (true, v1, recordVisit false 255 age s1)
    else if negb (eligibleToPageOut S v (world s)) then
      (true, v, recordVisit false 255 age s)
    else if 0 <? storedValueFreqCounter then
      (true, setFreqCounterValue (storedValueFreqCounter - 1) v,
       recordVisit false storedValueFreqCounter age s)
    else (true, v, recordVisit false storedValueFreqCounter age s).

(** *** update and complete *)

Definition update (s : State D IE W) : State D IE W :=
  let items := expired (visitor s) in
  let s1 :=
    logEvent (EvDeleteExpiredItems items)
             (setWorld (deleteExpiredItems S items (world s)) s) in
  setVisitor (setExpired [] (setEjected 0 (visitor s1))) s1.

(** The phase after [complete]: [REPLICA_ONLY] turns into
    [ACTIVE_AND_PENDING_ONLY], and that turns back unless the bucket is
    ephemeral. *)
Definition nextPhase (ephemeral : bool) (p : item_pager_phase)
    : item_pager_phase :=
  match p with
  | REPLICA_ONLY => ACTIVE_AND_PENDING_ONLY
  | ACTIVE_AND_PENDING_ONLY =>
    if negb ephemeral then REPLICA_ONLY else ACTIVE_AND_PENDING_ONLY
  end.

Definition complete (s : State D IE W) : State D IE W :=
  let s1 := update s in
  let s2 := logEvent (EvPagerHisto (owner (visitor s1))) s1 in
  (* bool inverse = false; stateFinalizer->compare_exchange_strong(inverse, true) *)
  let s3 :=
    if stateFinalizer (visitor s2) then s2
    else setVisitor (setStateFinalizer true (visitor s2)) s2 in
  let s4 :=
    match pager_phase (visitor s3) with
    | Some p =>
      if negb (isBelowLowWaterMark (visitor s3)) then
        setVisitor (setPagerPhase (nextPhase (isEphemeral (visitor s3)) p)
                                  (visitor s3)) s3
      else s3
    | None => s3
    end in
  let s5 :=
    if wasHighMemoryUsage (visitor s4)
       && negb (isMemoryUsageTooHigh S (world s4))
    then logEvent EvNotifyBackfillTasks
                  (setWorld (notifyBackfillTasks S (world s4)) s4)
    else s4 in
  match owner (visitor s5) with
  | ITEM_PAGER =>
    logEvent EvCheckAndMaybeFreeMemory
             (setWorld (checkAndMaybeFreeMemory S (world s5)) s5)
  | EXPIRY_PAGER => s5
  end.

End WithStore.
End PagingVisitor.

(** ** A small store to run the paging visitor on *)

Module PagingExample.
Import PagingVisitor.

(** The current vbucket: its state, the eviction policy, the keys whose
    values are resident and can be paged out, the keys in the bloom filter
    and the items given to [deleteExpiredItems]. *)
Record World := mkWorld {
  wState : vbucket_state_t;
  wPolicy : EvictionPolicy;
  wResident : list string;
  wFilter : list string;
  wExpired : list Item
}.

Definition isResident (k : string) (w : World) : bool :=
  existsb (String.eqb k) (wResident w).

(** [percent] as a whole number; the histogram as the list of its entries. *)
Definition store : Store Z (list (Z * Z)) World := {|
  deleteExpiredItems :=
    fun items w => mkWorld (wState w) (wPolicy w) (wResident w) (wFilter w)
                           (wExpired w ++ items);
  getItemEvictionPolicy := wPolicy;
  isMemoryUsageTooHigh := fun _ => false;
  notifyBackfillTasks := fun w => w;
  checkAndMaybeFreeMemory := fun w => w;
  getState := wState;
  getId := fun _ => 0;
  pageOut :=
    fun v w =>
      if isResident (svKey v) w then
        (true, v,
         mkWorld (wState w) (wPolicy w)
                 (filter (fun k => negb (String.eqb (svKey v) k)) (wResident w))
                 (wFilter w) (wExpired w))
      else (false, v, w);
  eligibleToPageOut := fun v w => isResident (svKey v) w;
  addToFilter :=
    fun k w => mkWorld (wState w) (wPolicy w) (wResident w) (k :: wFilter w)
                       (wExpired w);
  isExpired :=
    fun v asOf => negb (svExptime v =? 0) && (svExptime v <? asOf);
  addFreqAndAgeToHistograms := fun freq age ie => ie ++ [(freq, age)];
  isLearning := fun ie => (List.length ie <? 2)%nat;
  isRequiredToUpdate := fun _ => false;
  getThresholds := fun _ _ ie => ((100, 0), ie);
  casBitsNotTime := 16;
  leqZero := fun d => d <=? 0;
  times100 := fun d => d * 100
|}.

Definition value (k : string) (freq cas : Z) : StoredValue :=
  mkStoredValue k false false false false false 0 freq cas.

(** An item pager visitor in the replica phase of a persistent bucket, with
    one expired item queued. *)
Definition itemPager : Visitor Z (list (Z * Z)) :=
  mkVisitor 0 4 0 50 1000 false ITEM_PAGER false true (Some REPLICA_ONLY)
            false 50 2 (Z.shiftl 10 16) [(value "old" 0 0, 0)] [].

Definition fullEviction : World :=
  mkWorld vbucket_state_active Full ["a"%string; "b"%string] [] [].

Definition start : State Z (list (Z * Z)) World :=
  mkState itemPager fullEviction [].

(** The same visitor on an ephemeral bucket, and one that found the memory
    below the low watermark. *)
Definition ephemeralPager : Visitor Z (list (Z * Z)) :=
  mkVisitor 0 4 0 50 1000 false ITEM_PAGER false true (Some REPLICA_ONLY)
            true 50 2 (Z.shiftl 10 16) [] [].

Definition belowLowWaterMark : Visitor Z (list (Z * Z)) :=
  mkVisitor 0 4 0 50 1000 false ITEM_PAGER true true (Some REPLICA_ONLY)
            false 50 2 (Z.shiftl 10 16) [] [].

(** A value that expired at 500, before the visitor started at 1000. *)
Definition expiredValue : StoredValue :=
  mkStoredValue "e" false false false false false 500 0 0.

End PagingExample.

(** ** DurabilityCompletionTask (durability/durability_completion_task.cc)

    One thread at a time: the atomics are plain fields.  The steady clock is
    a collaborator that is read, [now]; a vbucket id is a natural number here,
    the index into [pendingVBs]. *)

Module DurabilityCompletionTask.

Record Engine (W : Type) := mkEngine {
  (* engine->getEpStats().isShutdown *)
  isShutdown : W -> bool;
  (* engine->getVBucket(Vbid(vbid)): false for a null pointer *)
  getVBucket : W -> nat -> bool;
  (* vb->processResolvedSyncWrites() *)
  processResolvedSyncWrites : nat -> W -> W;
  (* std::chrono::steady_clock::now() *)
  now : W -> Z * W;
  (* DurabilityCompletionTask::maxChunkDuration *)
  maxChunkDuration : Z
}.

Arguments isShutdown {W}.
Arguments getVBucket {W}.
Arguments processResolvedSyncWrites {W}.
Arguments now {W}.
Arguments maxChunkDuration {W}.

Inductive Event :=
| EvSnooze
| EvProcessResolvedSyncWrites (vbid : nat)
| EvWakeUp
| EvExecutorPoolWake.

Record Task (W : Type) := mkTask {
  pendingVBs : list bool;
  vbid : nat;
  wakeUpScheduled : bool;
  world : W;
  trace : list Event
}.

Arguments mkTask {W}.
Arguments pendingVBs {W}.
Arguments vbid {W}.
Arguments wakeUpScheduled {W}.
Arguments world {W}.
Arguments trace {W}.

(** [l[i] = b] for an index in the vector. *)
Fixpoint storeAt (i : nat) (b : bool) (l : list bool) : list bool :=
  match l, i with
  | [], _ => []
  | _ :: l', O => b :: l'
  | x :: l', S i' => x :: storeAt i' b l'
  end.

Fixpoint wakes (tr : list Event) : nat :=
  match tr with
  | [] => O
  | EvExecutorPoolWake :: tr' => S (wakes tr')
  | _ :: tr' => wakes tr'
  end.

Section WithEngine.

Context {W : Type} (E : Engine W).

Definition setPendingVBs (l : list bool) (s : Task W) : Task W :=
  mkTask l (vbid s) (wakeUpScheduled s) (world s) (trace s).

Definition setVbid (v : nat) (s : Task W) : Task W :=
  mkTask (pendingVBs s) v (wakeUpScheduled s) (world s) (trace s).

Definition setWakeUpScheduled (b : bool) (s : Task W) : Task W :=
  mkTask (pendingVBs s) (vbid s) b (world s) (trace s).

Definition setWorld (w : W) (s : Task W) : Task W :=
  mkTask (pendingVBs s) (vbid s) (wakeUpScheduled s) w (trace s).

Definition logEvent (e : Event) (s : Task W) : Task W :=
  mkTask (pendingVBs s) (vbid s) (wakeUpScheduled s) (world s)
         (trace s ++ [e]).

(** [if (pendingVBs[vbid].exchange(false)) { ... }] *)
Definition processPending (s : Task W) : Task W :=
  if nth (vbid s) (pendingVBs s) false then
    let s1 := setPendingVBs (storeAt (vbid s) false (pendingVBs s)) s in
    if getVBucket E (world s1) (vbid s1) then
      logEvent (EvProcessResolvedSyncWrites (vbid s1))
               (setWorld (processResolvedSyncWrites E (vbid s1) (world s1)) s1)
    else s1
  else s.

(** The loop [for (size_t count = 0; count < pendingVBs.size(); count++,
    vbid = (vbid + 1) % pendingVBs.size())] with [remaining] iterations to
    go; the [break] leaves the loop before [vbid] is advanced. *)
Fixpoint sweep (remaining : nat) (startTime : Z) (s : Task W) : Task W :=
  match remaining with
  | O => s
  | S n =>
    let s1 := processPending s in
    let (t, w1) := now E (world s1) in
    let s2 := setWorld w1 s1 in
    if maxChunkDuration E <? t - startTime then logEvent EvWakeUp s2
    else
      sweep n startTime
            (setVbid (Nat.modulo (vbid s2 + 1) (List.length (pendingVBs s2)))
                     s2)
  end.

Definition run (s : Task W) : bool * Task W :=
  if isShutdown E (world s) then (false, s)
  else
    let s1 := setWakeUpScheduled false (logEvent EvSnooze s) in
    let (startTime, w1) := now E (world s1) in
    (true, sweep (List.length (pendingVBs s1)) startTime (setWorld w1 s1)).

(** [pendingVBs[vbid].compare_exchange_strong(expected = false, true)], then
    [wakeUpScheduled.compare_exchange_strong(expected = false, true)]. *)
Definition notifySyncWritesToComplete (v : nat) (s : Task W) : Task W :=
  if nth v (pendingVBs s) false then s
  else
    let s1 := setPendingVBs (storeAt v true (pendingVBs s)) s in
    if wakeUpScheduled s1 then s1
    else logEvent EvExecutorPoolWake (setWakeUpScheduled true s1).

(** A burst of notifications. *)
Definition notifyAll (vs : list nat) (s : Task W) : Task W :=
  fold_left (fun st v => notifySyncWritesToComplete v st) vs s.

End WithEngine.

(** A clock that stands still, vbuckets that are all there. *)
Definition quietEngine : Engine unit :=
  mkEngine unit (fun _ => false) (fun _ _ => true) (fun _ w => w)
           (fun w => (0, w)) 25.

(** Four vbuckets, the second and the fourth pending, the loop at the
    third. *)
Definition fourVBuckets : Task unit :=
  mkTask [false; true; false; true] 2 true tt [].

(** A clock that advances by one at every reading: the world is the time.
    [limit] is maxChunkDuration in ticks of this clock. *)
Definition tickingEngine (limit : Z) : Engine Z :=
  mkEngine Z (fun _ => false) (fun _ _ => true) (fun _ w => w)
           (fun w => (w, w + 1)) limit.

(** The same four vbuckets, at time 0 of the ticking clock. *)
Definition fourVBucketsTicking : Task Z :=
  mkTask [false; true; false; true] 2 true 0 [].

(** An engine that is shutting down. *)
Definition stoppedEngine : Engine unit :=
  mkEngine unit (fun _ => true) (fun _ _ => true) (fun _ w => w)
           (fun w => (0, w)) 25.

End DurabilityCompletionTask.

(** ** cb_isPrefix (string_utils.cc) *)

Module StringUtils.

(** [input.compare(0, prefix.length(), prefix) == 0]: the characters of
    [input] from 0, at most [prefix.length()] of them, compared with
    [prefix]. *)
Definition cb_isPrefix (input prefix : string) : bool :=
  match String.compare (substring 0 (String.length prefix) input) prefix with
  | Eq => true
  | _ => false
  end.

(** [memcmp(a, b, n) == 0] on the first [n] characters of two buffers that
    have them. *)
Fixpoint memcmp_eq (a b : string) (n : nat) {struct n} : bool :=
  match n with
  | O => true
  | S n' =>
    match a, b with
    | String x a', String y b' => Ascii.eqb x y && memcmp_eq a' b' n'
    | _, _ => false
    end
  end.

(** The overload on [cb::const_char_buffer]. *)
Definition cb_isPrefix_buffer (input prefix : string) : bool :=
  if (String.length input <? String.length prefix)%nat then false
  else memcmp_eq input prefix (String.length prefix).

End StringUtils.

(** * Properties *)

(** ** Machine integers *)

Module SizeTFacts.

Lemma modulus_pos : 0 < SizeT.modulus.
Proof. reflexivity. Qed.

Lemma wrap_in_range z : SizeT.in_range (SizeT.wrap z).
Proof.
  unfold SizeT.in_range, SizeT.wrap. apply Z.mod_pos_bound, modulus_pos.
Qed.

Lemma wrap_small z : SizeT.in_range z -> SizeT.wrap z = z.
Proof. unfold SizeT.in_range, SizeT.wrap. intros H. now apply Z.mod_small. Qed.

Lemma sub_exact a b : SizeT.in_range a -> 0 <= b <= a -> SizeT.sub a b = a - b.
Proof.
  unfold SizeT.sub. intros Ha Hb. apply wrap_small.
  unfold SizeT.in_range in *. lia.
Qed.

Lemma add_exact a b :
  0 <= a -> 0 <= b -> a + b < SizeT.modulus -> SizeT.add a b = a + b.
Proof.
  intros. unfold SizeT.add. apply wrap_small. unfold SizeT.in_range. lia.
Qed.

Lemma mul_exact a b :
  0 <= a -> 0 <= b -> a * b < SizeT.modulus -> SizeT.mul a b = a * b.
Proof.
  intros. unfold SizeT.mul. apply wrap_small. unfold SizeT.in_range. nia.
Qed.

End SizeTFacts.

(** ** The remover task *)

Module RemoverFacts.
Import Remover.

Section WithEngine.

Context {W : Type} (E : Engine W).

Lemma isReduction_setAvailable (b : bool) (s : TaskState W) :
  isReductionInCheckpointMemoryNeeded E (setAvailable b s)
  = isReductionInCheckpointMemoryNeeded E s.
Proof. reflexivity. Qed.

Lemma needed_iff_triggers (s : TaskState W) :
  fst (isReductionInCheckpointMemoryNeeded E s) = true <->
  memUsedExceedsCursorDroppingUpperMark s = true
  \/ ckptMemExceedsCheckpointMemoryThreshold E s = true.
Proof.
  unfold isReductionInCheckpointMemoryNeeded.
  destruct (memUsedExceedsCursorDroppingUpperMark s);
    destruct (ckptMemExceedsCheckpointMemoryThreshold E s); simpl;
    intuition congruence.
Qed.

Lemma ckptTrigger_iff (s : TaskState W) :
  ckptMemExceedsCheckpointMemoryThreshold E s = true <->
  mem_low_wat (stats s) <= estimatedTotalMemoryUsed (stats s)
  /\ SizeT.mul (maxSize (config s))
               (cursorDroppingCheckpointMemUpperMark (config s)) / 100
     <= getVBucketsTotalCheckpointMemoryUsage E (world s).
Proof.
  unfold ckptMemExceedsCheckpointMemoryThreshold, aboveLowWatermark,
    hitCheckpointMemoryThreshold, chkptMemLimit.
  rewrite andb_true_iff, !Z.leb_le. reflexivity.
Qed.

Lemma memTrigger_iff (s : TaskState W) :
  memUsedExceedsCursorDroppingUpperMark s = true <->
  cursorDroppingUThreshold (stats s) < estimatedTotalMemoryUsed (stats s).
Proof. unfold memUsedExceedsCursorDroppingUpperMark. apply Z.ltb_lt. Qed.

(** C1.  Memory recovery is reported as needed if and only if the estimated
    total memory used strictly exceeds the cursor_dropping_upper_mark
    threshold, or it is at least the low watermark and the total checkpoint
    memory of the partitions is at least
    cursor_dropping_checkpoint_mem_upper_mark percent of the bucket quota.
    The percentage is the [size_t] expression [(quota * mark) / 100] of the
    code; when the product fits 64 bits it is the integer quotient. *)
Theorem reduction_needed_iff (s : TaskState W) :
  (fst (isReductionInCheckpointMemoryNeeded E s) = true <->
   cursorDroppingUThreshold (stats s) < estimatedTotalMemoryUsed (stats s)
   \/ (mem_low_wat (stats s) <= estimatedTotalMemoryUsed (stats s)
       /\ SizeT.mul (maxSize (config s))
                    (cursorDroppingCheckpointMemUpperMark (config s)) / 100
          <= getVBucketsTotalCheckpointMemoryUsage E (world s)))
  /\
  (0 <= maxSize (config s) ->
   0 <= cursorDroppingCheckpointMemUpperMark (config s) ->
   maxSize (config s) * cursorDroppingCheckpointMemUpperMark (config s)
     < SizeT.modulus ->
   (fst (isReductionInCheckpointMemoryNeeded E s) = true <->
    cursorDroppingUThreshold (stats s) < estimatedTotalMemoryUsed (stats s)
    \/ (mem_low_wat (stats s) <= estimatedTotalMemoryUsed (stats s)
        /\ (maxSize (config s)
            * cursorDroppingCheckpointMemUpperMark (config s)) / 100
           <= getVBucketsTotalCheckpointMemoryUsage E (world s)))).
Proof.
  assert (H : fst (isReductionInCheckpointMemoryNeeded E s) = true <->
   cursorDroppingUThreshold (stats s) < estimatedTotalMemoryUsed (stats s)
   \/ (mem_low_wat (stats s) <= estimatedTotalMemoryUsed (stats s)
       /\ SizeT.mul (maxSize (config s))
                    (cursorDroppingCheckpointMemUpperMark (config s)) / 100
          <= getVBucketsTotalCheckpointMemoryUsage E (world s))).
  { rewrite needed_iff_triggers, memTrigger_iff, ckptTrigger_iff. reflexivity. }
  split; [exact H|].
  intros Hq Hm Hfit. rewrite H.
  rewrite SizeTFacts.mul_exact by assumption. reflexivity.
Qed.

(** C3, as the code has it.  When recovery is triggered the target is the
    estimated total memory used minus a lower limit, in [size_t] arithmetic:
    the limit is (quota * cursor_dropping_checkpoint_mem_lower_mark) / 100
    whenever the checkpoint-memory trigger holds, also when the total-memory
    trigger holds with it, and the cursor_dropping_lower_mark threshold when
    the total-memory trigger alone holds.  When the limit does not exceed the
    memory used the target is the exact integer difference. *)
Theorem amount_to_clear (s : TaskState W) :
  fst (isReductionInCheckpointMemoryNeeded E s) = true ->
  let used := estimatedTotalMemoryUsed (stats s) in
  let ckptLimit :=
    SizeT.mul (maxSize (config s))
              (cursorDroppingCheckpointMemLowerMark (config s)) / 100 in
  let target := snd (isReductionInCheckpointMemoryNeeded E s) in
  (ckptMemExceedsCheckpointMemoryThreshold E s = true ->
   target = SizeT.sub used ckptLimit
   /\ (SizeT.in_range used -> 0 <= ckptLimit <= used ->
       target = used - ckptLimit))
  /\
  (ckptMemExceedsCheckpointMemoryThreshold E s = false ->
   memUsedExceedsCursorDroppingUpperMark s = true
   /\ target = SizeT.sub used (cursorDroppingLThreshold (stats s))
   /\ (SizeT.in_range used ->
       0 <= cursorDroppingLThreshold (stats s) <= used ->
       target = used - cursorDroppingLThreshold (stats s))).
Proof.
  intros Hneed used ckptLimit target. subst used ckptLimit target.
  apply needed_iff_triggers in Hneed.
  unfold isReductionInCheckpointMemoryNeeded.
  destruct (ckptMemExceedsCheckpointMemoryThreshold E s) eqn:Hc.
  - rewrite orb_true_r. simpl. split; [|discriminate].
    intros _. split; [reflexivity|].
    intros Hr Hl. now apply SizeTFacts.sub_exact.
  - destruct Hneed as [Hm|Hm]; [|discriminate].
    rewrite Hm. simpl. split; [discriminate|].
    intros _. split; [reflexivity|]. split; [reflexivity|].
    intros Hr Hl. now apply SizeTFacts.sub_exact.
Qed.

(** C4, as the code has it.  On a run that takes the [available] flag and
    finds neither trigger, no expel is attempted and no cursor is dropped:
    the world and the statistics are untouched, and the only calls are the
    scheduling of the visitor and the snooze.  The visitor is scheduled on
    every run that takes the flag, with or without recovery; a run that does
    not take the flag only snoozes. *)
Theorem run_without_trigger (s : TaskState W) :
  (available s = true ->
   fst (isReductionInCheckpointMemoryNeeded E s) = false ->
   run E s = (true, log EvSnooze (log EvVisitAsync (setAvailable false s))))
  /\ (available s = true -> In EvVisitAsync (trace (snd (run E s))))
  /\ (available s = false -> run E s = (true, log EvSnooze s)).
Proof.
  unfold run. split; [|split].
  - intros Ha Hn. rewrite Ha, isReduction_setAvailable.
    destruct (isReductionInCheckpointMemoryNeeded E s) as [b amt].
    simpl in Hn. subst b. reflexivity.
  - intros Ha. rewrite Ha.
    destruct (isReductionInCheckpointMemoryNeeded E (setAvailable false s))
      as [b amt].
    simpl. apply in_or_app. left. apply in_or_app. right. left. reflexivity.
  - intros Ha. rewrite Ha. reflexivity.
Qed.

(** *** The cursor loop *)

Lemma dropCursors_target_met vbid amt cursors cleared (s : TaskState W) :
  amt <= cleared -> dropCursors E vbid amt cursors cleared s = (cleared, s).
Proof.
  intros H. destruct cursors as [|c rest]; [reflexivity|].
  simpl. destruct (Z.ltb_spec cleared amt); [lia|reflexivity].
Qed.

Lemma dropCursors_shape vbid amt cursors :
  forall cleared (s : TaskState W),
  exists tr,
    trace (snd (dropCursors E vbid amt cursors cleared s)) = trace s ++ tr
    /\ CursorLoopTrace vbid amt cursors cleared tr
         (fst (dropCursors E vbid amt cursors cleared s)).
Proof.
  induction cursors as [|c rest IH]; intros cleared s.
  - exists []. simpl. rewrite app_nil_r. split; [reflexivity|constructor].
  - simpl. destruct (Z.ltb_spec cleared amt) as [Hlt|Hge].
    + destruct (handleSlowStream E vbid c (world s)) as [dropped w1].
      destruct dropped.
      * match goal with
        | |- context [dropCursors E vbid amt rest ?m ?st] =>
          destruct (IH m st) as (tr & Htr & Hshape)
        end.
        eexists. split.
        -- rewrite Htr. simpl. rewrite <- !app_assoc. simpl. reflexivity.
        -- apply CursorLoop_dropped; assumption.
      * match goal with
        | |- context [dropCursors E vbid amt rest ?m ?st] =>
          destruct (IH m st) as (tr & Htr & Hshape)
        end.
        eexists. split.
        -- rewrite Htr. simpl. rewrite <- app_assoc. simpl. reflexivity.
        -- apply CursorLoop_kept; assumption.
    + exists []. simpl. rewrite app_nil_r. split; [reflexivity|].
      apply CursorLoop_break. assumption.
Qed.

(** C6.  In the cursor loop of a partition the hook handleSlowStream is
    invoked on the cursors of getListOfCursorsToDrop in order, each while the
    reclaim target is not yet met; the memory of the unreferenced checkpoints
    of the partition is read and added to the bytes cleared when the hook
    returns true and not when it returns false; once the target is met no
    further cursor is processed. *)
Theorem cursor_drop_loop vbid amt cursors cleared (s : TaskState W) :
  (amt <= cleared -> dropCursors E vbid amt cursors cleared s = (cleared, s))
  /\
  (forall cursor rest,
     cursors = cursor :: rest -> cleared < amt ->
     let dropped := fst (handleSlowStream E vbid cursor (world s)) in
     let w1 := snd (handleSlowStream E vbid cursor (world s)) in
     let s1 := log (EvHandleSlowStream vbid cursor dropped) (setWorld w1 s) in
     let memoryFreed := getChkMgrMemUsageOfUnrefCheckpoints E vbid w1 in
     (dropped = true ->
      dropCursors E vbid amt cursors cleared s
      = dropCursors E vbid amt rest (SizeT.add cleared memoryFreed)
          (setStats (countDroppedCursor memoryFreed (stats s1))
             (log (EvGetChkMgrMemUsageOfUnrefCheckpoints vbid memoryFreed)
                  s1)))
     /\ (dropped = false ->
         dropCursors E vbid amt cursors cleared s
         = dropCursors E vbid amt rest cleared s1))
  /\
  (exists tr,
     trace (snd (dropCursors E vbid amt cursors cleared s)) = trace s ++ tr
     /\ CursorLoopTrace vbid amt cursors cleared tr
          (fst (dropCursors E vbid amt cursors cleared s))).
Proof.
  split; [apply dropCursors_target_met|]. split; [|apply dropCursors_shape].
  intros cursor rest -> Hlt. simpl.
  destruct (Z.ltb_spec cleared amt); [|lia].
  destruct (handleSlowStream E vbid cursor (world s)) as [dropped w1]. simpl.
  split; intros ->; reflexivity.
Qed.

Lemma CursorLoopTrace_accounting vbid amt cursors cleared tr cleared' :
  CursorLoopTrace vbid amt cursors cleared tr cleared' ->
  cleared' = fold_left SizeT.add (unrefReadings tr) cleared
  /\ List.length (unrefReadings tr) = List.length (droppedCursors tr).
Proof.
  induction 1 as [| |? ? ? ? ? ? _ _ [IH1 IH2]|? ? ? ? ? _ _ [IH1 IH2]];
    simpl; auto.
Qed.

(** C10.  Each cursor the hook gives up adds the whole current memory of the
    unreferenced checkpoints of the partition to the bytes cleared: the bytes
    cleared by the cursor loop grow by the sum of the readings, one reading
    per dropped cursor.  After two drops from one partition they have grown
    by the reading after the first drop plus the reading after the second, so
    the bytes the first drop unreferenced, still part of the second reading,
    are counted twice. *)
Theorem each_drop_adds_whole_unref_memory vbid amt cursors cleared
    (s : TaskState W) :
  (exists tr,
     trace (snd (dropCursors E vbid amt cursors cleared s)) = trace s ++ tr
     /\ fst (dropCursors E vbid amt cursors cleared s)
        = fold_left SizeT.add (unrefReadings tr) cleared
     /\ List.length (unrefReadings tr) = List.length (droppedCursors tr))
  /\
  (forall c1 c2 w1 w2,
     cursors = [c1; c2] ->
     handleSlowStream E vbid c1 (world s) = (true, w1) ->
     handleSlowStream E vbid c2 w1 = (true, w2) ->
     let m1 := getChkMgrMemUsageOfUnrefCheckpoints E vbid w1 in
     let m2 := getChkMgrMemUsageOfUnrefCheckpoints E vbid w2 in
     cleared < amt ->
     SizeT.add cleared m1 < amt ->
     fst (dropCursors E vbid amt cursors cleared s)
     = SizeT.add (SizeT.add cleared m1) m2
     /\ (0 <= cleared -> 0 <= m1 <= m2 -> cleared + m1 + m2 < SizeT.modulus ->
         fst (dropCursors E vbid amt cursors cleared s) = cleared + m1 + m2
         /\ cleared + 2 * m1
            <= fst (dropCursors E vbid amt cursors cleared s))).
Proof.
  split.
  - destruct (dropCursors_shape vbid amt cursors cleared s)
      as (tr & Htr & Hshape).
    apply CursorLoopTrace_accounting in Hshape. destruct Hshape as [Hsum Hlen].
    exists tr. repeat split; assumption.
  - intros c1 c2 w1 w2 -> H1 H2 m1 m2 Hlt1 Hlt2.
    assert (Heq : fst (dropCursors E vbid amt [c1; c2] cleared s)
                  = SizeT.add (SizeT.add cleared m1) m2).
    { simpl. destruct (Z.ltb_spec cleared amt); [|lia].
      rewrite H1. simpl.
      fold m1. destruct (Z.ltb_spec (SizeT.add cleared m1) amt); [|lia].
      rewrite H2. reflexivity. }
    split; [exact Heq|].
    intros Hc Hm Hfit. rewrite Heq.
    rewrite (SizeTFacts.add_exact cleared m1) by lia.
    rewrite SizeTFacts.add_exact by lia. lia.
Qed.

(** *** The loop over the partitions *)

Lemma recoverFrom_skip mech amt it rest cleared (s : TaskState W) :
  getVBucket E (world s) (fst it) = false ->
  recoverFrom E mech amt (it :: rest) cleared s
  = recoverFrom E mech amt rest cleared s.
Proof.
  intros Hnull. simpl. rewrite Hnull. simpl.
  destruct (Z.leb_spec amt cleared) as [Hge|Hlt]; [|reflexivity].
  destruct rest as [|it' rest']; [reflexivity|].
  simpl. destruct (Z.leb_spec amt cleared); [reflexivity|lia].
Qed.

Lemma recoverFrom_all_gone mech amt vbuckets cleared (s : TaskState W) :
  (forall it, In it vbuckets -> getVBucket E (world s) (fst it) = false) ->
  recoverFrom E mech amt vbuckets cleared s = (cleared, s).
Proof.
  induction vbuckets as [|it rest IH]; intros Hall; [reflexivity|].
  rewrite recoverFrom_skip by (apply Hall; left; reflexivity).
  apply IH. intros it' Hin. apply Hall. right. exact Hin.
Qed.

(** C9.  A partition whose vbucket lookup yields null is skipped: the loop
    goes on with the next partition from the same state, with no call made
    and nothing cleared; a pass over partitions that are all gone returns
    what it started with, and the run returns true. *)
Theorem missing_vbucket_is_skipped mech amt vbuckets cleared (s : TaskState W) :
  (forall it rest,
     vbuckets = it :: rest ->
     getVBucket E (world s) (fst it) = false ->
     recoverFrom E mech amt vbuckets cleared s
     = recoverFrom E mech amt rest cleared s)
  /\ ((forall it, In it vbuckets -> getVBucket E (world s) (fst it) = false) ->
      recoverFrom E mech amt vbuckets cleared s = (cleared, s))
  /\ fst (run E s) = true.
Proof.
  split; [|split].
  - intros it rest -> Hnull. now apply recoverFrom_skip.
  - apply recoverFrom_all_gone.
  - reflexivity.
Qed.

(** *** The two passes of a run *)

Lemma visitedVBuckets_app tr1 tr2 :
  visitedVBuckets (tr1 ++ tr2) = visitedVBuckets tr1 ++ visitedVBuckets tr2.
Proof.
  induction tr1 as [|e tr1 IH]; [reflexivity|].
  destruct e; simpl; rewrite IH; reflexivity.
Qed.

Lemma CursorLoopTrace_events vbid amt cursors cleared tr cleared' :
  CursorLoopTrace vbid amt cursors cleared tr cleared' ->
  forallb isCursorDropEvent tr = true /\ visitedVBuckets tr = [].
Proof.
  induction 1; simpl; auto.
Qed.

Lemma expel_loop_shape amt vbuckets :
  forall cleared (s : TaskState W),
  exists tr,
    trace (snd (recoverFrom E checkpointExpel amt vbuckets cleared s))
    = trace s ++ tr
    /\ ExpelPassTrace amt cleared tr
         (fst (recoverFrom E checkpointExpel amt vbuckets cleared s))
    /\ Subseq (visitedVBuckets tr) (map fst vbuckets).
Proof.
  induction vbuckets as [|it rest IH]; intros cleared s.
  - exists []. simpl. rewrite app_nil_r. repeat split; constructor.
  - simpl. destruct (Z.leb_spec amt cleared) as [Hge|Hlt].
    + exists []. simpl. rewrite app_nil_r. repeat split; constructor.
    + destruct (getVBucket E (world s) (fst it)); simpl.
      * destruct (expelUnreferencedCheckpointItems E (fst it) (world s))
          as [r w1].
        match goal with
        | |- context [recoverFrom E checkpointExpel amt rest ?m ?st] =>
          destruct (IH m st) as (tr & Htr & Hshape & Hsub)
        end.
        exists (EvExpel (fst it) r :: tr). split; [|split].
        -- rewrite Htr. simpl. rewrite <- app_assoc. reflexivity.
        -- apply ExpelPass_step; assumption.
        -- simpl. apply Subseq_take. exact Hsub.
      * destruct (IH cleared s) as (tr & Htr & Hshape & Hsub).
        exists tr. repeat split; try assumption.
        apply Subseq_skip. exact Hsub.
Qed.

Lemma drop_loop_shape amt vbuckets :
  forall cleared (s : TaskState W),
  exists tr,
    trace (snd (recoverFrom E cursorDrop amt vbuckets cleared s))
    = trace s ++ tr
    /\ DropPassTrace amt cleared tr
         (fst (recoverFrom E cursorDrop amt vbuckets cleared s))
    /\ forallb isCursorDropEvent tr = true
    /\ Subseq (visitedVBuckets tr) (map fst vbuckets).
Proof.
  induction vbuckets as [|it rest IH]; intros cleared s.
  - exists []. simpl. rewrite app_nil_r. repeat split; constructor.
  - simpl. destruct (Z.leb_spec amt cleared) as [Hge|Hlt].
    + exists []. simpl. rewrite app_nil_r. repeat split; constructor.
    + destruct (getVBucket E (world s) (fst it)); simpl.
      * set (cursors := getListOfCursorsToDrop E (fst it) (world s)).
        set (s0 := log (EvGetListOfCursorsToDrop (fst it) cursors) s).
        destruct (dropCursors_shape (fst it) amt cursors cleared s0)
          as (trc & Htrc & Hloop).
        destruct (CursorLoopTrace_events _ _ _ _ _ _ Hloop) as [Hall Hnone].
        destruct (dropCursors E (fst it) amt cursors cleared s0)
          as [cleared1 s1].
        simpl in Htrc, Hloop.
        destruct (IH cleared1 s1) as (tr & Htr & Hpass & Hall' & Hsub).
        exists (EvGetListOfCursorsToDrop (fst it) cursors :: trc ++ tr).
        split; [|split; [|split]].
        -- rewrite Htr, Htrc. subst s0. simpl.
           rewrite <- !app_assoc. reflexivity.
        -- eapply DropPass_step; eassumption.
        -- simpl. rewrite forallb_app, Hall, Hall'. reflexivity.
        -- simpl. rewrite visitedVBuckets_app, Hnone. simpl.
           apply Subseq_take. exact Hsub.
      * destruct (IH cleared s) as (tr & Htr & Hpass & Hall & Hsub).
        exists tr. repeat split; try assumption.
        apply Subseq_skip. exact Hsub.
Qed.

Lemma expelPass_shape amt (s : TaskState W) :
  exists tE,
    trace (snd (expelPass E amt s)) = trace s ++ tE
    /\ ExpelPassTrace amt 0 tE (fst (expelPass E amt s))
    /\ Subseq (visitedVBuckets tE)
              (map fst (getVBucketsSortedByChkMgrMem E (world s)))
    /\ (chkExpelEnabled (config s) = false -> tE = []).
Proof.
  unfold expelPass, attemptMemoryRecovery.
  destruct (chkExpelEnabled (config s)).
  - destruct (expel_loop_shape amt
                (getVBucketsSortedByChkMgrMem E (world s)) 0 s)
      as (tr & Htr & Hshape & Hsub).
    exists tr. repeat split; try assumption. discriminate.
  - exists []. simpl. rewrite app_nil_r. repeat split; constructor.
Qed.

Lemma cursorDropPass_shape amt recovered (s : TaskState W) :
  exists tD,
    trace (cursorDropPass E amt recovered s) = trace s ++ tD
    /\ (exists cleared, DropPassTrace (SizeT.sub amt recovered) 0 tD cleared)
    /\ forallb isCursorDropEvent tD = true
    /\ Subseq (visitedVBuckets tD)
              (map fst (getVBucketsSortedByChkMgrMem E (world s)))
    /\ (tD <> [] -> recovered < amt).
Proof.
  unfold cursorDropPass, attemptMemoryRecovery.
  destruct (Z.ltb_spec recovered amt) as [Hlt|Hge].
  - destruct (drop_loop_shape (SizeT.sub amt recovered)
                (getVBucketsSortedByChkMgrMem E (world s)) 0 s)
      as (tr & Htr & Hpass & Hall & Hsub).
    exists tr. split; [exact Htr|]. split; [eexists; exact Hpass|].
    split; [exact Hall|]. split; [exact Hsub|]. intros _. exact Hlt.
  - exists []. rewrite app_nil_r. split; [reflexivity|].
    split; [exists 0; constructor|]. split; [reflexivity|].
    split; [constructor|]. intros Hne. now contradiction Hne.
Qed.

Lemma run_needed (s : TaskState W) amt :
  available s = true ->
  isReductionInCheckpointMemoryNeeded E s = (true, amt) ->
  snd (run E s)
  = log EvSnooze (log EvVisitAsync (reduceMemory E amt (setAvailable false s))).
Proof.
  intros Ha Hred. unfold run.
  rewrite Ha, isReduction_setAvailable, Hred. reflexivity.
Qed.

(** *** Whole passes *)

Lemma dropCursors_over vbid amt cursors :
  forall cleared (s : TaskState W),
  exists tr,
    trace (snd (dropCursors E vbid amt cursors cleared s)) = trace s ++ tr
    /\ CursorLoopOver E vbid amt cursors cleared (world s) tr
         (fst (dropCursors E vbid amt cursors cleared s))
         (world (snd (dropCursors E vbid amt cursors cleared s))).
Proof.
  induction cursors as [|c rest IH]; intros cleared s.
  - exists []. simpl. rewrite app_nil_r. split; [reflexivity|constructor].
  - simpl. destruct (Z.ltb_spec cleared amt) as [Hlt|Hge].
    + destruct (handleSlowStream E vbid c (world s)) as [dropped w1] eqn:Hh.
      destruct dropped.
      * match goal with
        | |- context [dropCursors E vbid amt rest ?m ?st] =>
          destruct (IH m st) as (tr & Htr & Hover)
        end.
        simpl in Hover. eexists. split.
        -- rewrite Htr. simpl. rewrite <- !app_assoc. simpl. reflexivity.
        -- eapply CursorOver_dropped; eassumption.
      * match goal with
        | |- context [dropCursors E vbid amt rest ?m ?st] =>
          destruct (IH m st) as (tr & Htr & Hover)
        end.
        simpl in Hover. eexists. split.
        -- rewrite Htr. simpl. rewrite <- app_assoc. simpl. reflexivity.
        -- eapply CursorOver_kept; eassumption.
    + exists []. simpl. rewrite app_nil_r. split; [reflexivity|].
      apply CursorOver_break. assumption.
Qed.

Lemma expel_loop_over amt vbuckets :
  forall cleared (s : TaskState W),
  exists tr,
    trace (snd (recoverFrom E checkpointExpel amt vbuckets cleared s))
    = trace s ++ tr
    /\ ExpelPassOver E amt vbuckets cleared (world s) tr
         (fst (recoverFrom E checkpointExpel amt vbuckets cleared s))
         (world (snd (recoverFrom E checkpointExpel amt vbuckets cleared s))).
Proof.
  induction vbuckets as [|it rest IH]; intros cleared s.
  - exists []. simpl. rewrite app_nil_r. split; [reflexivity|constructor].
  - simpl. destruct (Z.leb_spec amt cleared) as [Hge|Hlt].
    + exists []. simpl. rewrite app_nil_r. split; [reflexivity|].
      apply ExpelOver_met. assumption.
    + destruct (getVBucket E (world s) (fst it)) eqn:Hvb; simpl.
      * destruct (expelUnreferencedCheckpointItems E (fst it) (world s))
          as [r w1] eqn:Hexp.
        match goal with
        | |- context [recoverFrom E checkpointExpel amt rest ?m ?st] =>
          destruct (IH m st) as (tr & Htr & Hover)
        end.
        simpl in Hover. exists (EvExpel (fst it) r :: tr). split.
        -- rewrite Htr. simpl. rewrite <- app_assoc. reflexivity.
        -- eapply ExpelOver_expel; eassumption.
      * destruct (IH cleared s) as (tr & Htr & Hover).
        exists tr. split; [exact Htr|].
        apply ExpelOver_gone; assumption.
Qed.

Lemma drop_loop_over amt vbuckets :
  forall cleared (s : TaskState W),
  exists tr,
    trace (snd (recoverFrom E cursorDrop amt vbuckets cleared s))
    = trace s ++ tr
    /\ DropPassOver E amt vbuckets cleared (world s) tr
         (fst (recoverFrom E cursorDrop amt vbuckets cleared s))
         (world (snd (recoverFrom E cursorDrop amt vbuckets cleared s))).
Proof.
  induction vbuckets as [|it rest IH]; intros cleared s.
  - exists []. simpl. rewrite app_nil_r. split; [reflexivity|constructor].
  - simpl. destruct (Z.leb_spec amt cleared) as [Hge|Hlt].
    + exists []. simpl. rewrite app_nil_r. split; [reflexivity|].
      apply DropOver_met. assumption.
    + destruct (getVBucket E (world s) (fst it)) eqn:Hvb; simpl.
      * set (cursors := getListOfCursorsToDrop E (fst it) (world s)).
        set (s0 := log (EvGetListOfCursorsToDrop (fst it) cursors) s).
        destruct (dropCursors_over (fst it) amt cursors cleared s0)
          as (trc & Htrc & Hloop).
        destruct (dropCursors E (fst it) amt cursors cleared s0)
          as [cleared1 s1].
        simpl in Htrc, Hloop.
        destruct (IH cleared1 s1) as (tr & Htr & Hpass).
        exists (EvGetListOfCursorsToDrop (fst it) cursors :: trc ++ tr).
        split.
        -- rewrite Htr, Htrc. subst s0. simpl.
           rewrite <- !app_assoc. reflexivity.
        -- subst cursors. eapply DropOver_step; eassumption.
      * destruct (IH cleared s) as (tr & Htr & Hpass).
        exists tr. split; [exact Htr|].
        apply DropOver_gone; assumption.
Qed.

Lemma expelPass_over amt (s : TaskState W) :
  exists tE,
    trace (snd (expelPass E amt s)) = trace s ++ tE
    /\ (chkExpelEnabled (config s) = true ->
        ExpelPassOver E amt (getVBucketsSortedByChkMgrMem E (world s)) 0
          (world s) tE (fst (expelPass E amt s))
          (world (snd (expelPass E amt s))))
    /\ (chkExpelEnabled (config s) = false ->
        fst (expelPass E amt s) = 0
        /\ world (snd (expelPass E amt s)) = world s).
Proof.
  unfold expelPass, attemptMemoryRecovery.
  destruct (chkExpelEnabled (config s)).
  - destruct (expel_loop_over amt
                (getVBucketsSortedByChkMgrMem E (world s)) 0 s)
      as (tr & Htr & Hover).
    exists tr. split; [exact Htr|]. split; [intros _; exact Hover|].
    discriminate.
  - exists []. simpl. rewrite app_nil_r. split; [reflexivity|].
    split; [discriminate|]. intros _. split; reflexivity.
Qed.

Lemma cursorDropPass_over amt recovered (s : TaskState W) :
  exists tD,
    trace (cursorDropPass E amt recovered s) = trace s ++ tD
    /\ (recovered < amt ->
        exists cleared,
          DropPassOver E (SizeT.sub amt recovered)
            (getVBucketsSortedByChkMgrMem E (world s)) 0 (world s) tD cleared
            (world (cursorDropPass E amt recovered s)))
    /\ (amt <= recovered ->
        tD = [] /\ world (cursorDropPass E amt recovered s) = world s).
Proof.
  unfold cursorDropPass, attemptMemoryRecovery.
  destruct (Z.ltb_spec recovered amt) as [Hlt|Hge].
  - destruct (drop_loop_over (SizeT.sub amt recovered)
                (getVBucketsSortedByChkMgrMem E (world s)) 0 s)
      as (tr & Htr & Hpass).
    exists tr. split; [exact Htr|]. split; [|lia].
    intros _. eexists. exact Hpass.
  - exists []. rewrite app_nil_r. split; [reflexivity|].
    split; [lia|]. intros _. split; reflexivity.
Qed.

Lemma ExpelPassOver_first_call amt it rest cleared w tr cleared' w' :
  ExpelPassOver E amt (it :: rest) cleared w tr cleared' w' ->
  cleared < amt ->
  getVBucket E w (fst it) = true ->
  exists tr',
    tr = EvExpel (fst it) (fst (expelUnreferencedCheckpointItems E (fst it) w))
         :: tr'.
Proof.
  intros Hover Hlt Hvb.
  inversion Hover as [| |? ? ? ? ? ? ? ? Hgone|? ? ? ? ? ? ? ? ? ? ? Hexp];
    subst; try lia; try congruence.
  eexists. rewrite Hexp. reflexivity.
Qed.

Lemma DropPassOver_first_call amt it rest cleared w tr cleared' w' :
  DropPassOver E amt (it :: rest) cleared w tr cleared' w' ->
  cleared < amt ->
  getVBucket E w (fst it) = true ->
  exists tr',
    tr = EvGetListOfCursorsToDrop (fst it)
           (getListOfCursorsToDrop E (fst it) w) :: tr'.
Proof.
  intros Hover Hlt Hvb.
  inversion Hover; subst; try lia; try congruence.
  eexists. reflexivity.
Qed.

(** *** The order of the visits *)

Lemma Subseq_In {A : Type} (l1 l2 : list A) :
  Subseq l1 l2 -> forall x, In x l1 -> In x l2.
Proof.
  induction 1 as [l|x l1 l2 _ IH|x l1 l2 _ IH]; intros y Hy.
  - destruct Hy.
  - destruct Hy as [<-|Hy]; [left; reflexivity|right; now apply IH].
  - right. now apply IH.
Qed.

Lemma Subseq_sorted {A : Type} (R : A -> A -> Prop) (l1 l2 : list A) :
  Subseq l1 l2 -> StronglySorted R l2 -> StronglySorted R l1.
Proof.
  induction 1 as [l|x l1 l2 Hsub IH|x l1 l2 Hsub IH]; intros Hs.
  - constructor.
  - inversion Hs as [|? ? Hs' Hall]; subst. constructor; [now apply IH|].
    rewrite Forall_forall in *. intros y Hy.
    apply Hall. eapply Subseq_In; eassumption.
  - inversion Hs; subst. now apply IH.
Qed.

Lemma Subseq_map_inv {A B : Type} (f : A -> B) (l : list A) :
  forall xs, Subseq xs (map f l) ->
  exists l', Subseq l' l /\ xs = map f l'.
Proof.
  induction l as [|a l IH]; intros xs Hsub.
  - inversion Hsub; subst. exists []. split; constructor.
  - simpl in Hsub. inversion Hsub as [|x l1 l2 Hsub'|x l1 l2 Hsub']; subst.
    + exists []. split; constructor.
    + destruct (IH _ Hsub') as (l' & Hl' & ->).
      exists (a :: l'). split; [now constructor|reflexivity].
    + destruct (IH _ Hsub') as (l' & Hl' & ->).
      exists l'. split; [now constructor|reflexivity].
Qed.

Lemma visits_in_list_order (tr : list Event) (vbuckets : list (Vbid * Z)) :
  Subseq (visitedVBuckets tr) (map fst vbuckets) ->
  exists visited,
    Subseq visited vbuckets
    /\ visitedVBuckets tr = map fst visited
    /\ (byChkMgrMemDescending vbuckets -> byChkMgrMemDescending visited).
Proof.
  intros Hsub. destruct (Subseq_map_inv fst vbuckets _ Hsub) as (l' & Hl' & Heq).
  exists l'. split; [exact Hl'|]. split; [exact Heq|].
  unfold byChkMgrMemDescending. now apply Subseq_sorted.
Qed.

(** C2, as the code has it.  A run that decides recovery is needed makes two
    passes over the partitions, each in the order of the list
    getVBucketsSortedByChkMgrMem returns, so by checkpoint memory usage
    descending when that list is.  The first pass, made when expel is
    enabled, calls expelUnreferencedCheckpointItems on partition after
    partition while the estimates added so far are short of the target: it
    passes over a partition only when its vbucket is gone and ends only at
    the end of the list or once the target is met.  The cursor-drop pass
    comes after the whole expel pass, and is made if and only if what the
    expel pass recovered is short of the target: it fetches the cursors of
    partition after partition, and runs the cursor loop on them, while the
    bytes it cleared are short of what is left of the target, again passing
    over a partition only when its vbucket is gone.  Then the visitor is
    scheduled and the task snoozes. *)
Theorem recovery_is_two_passes (s : TaskState W) :
  available s = true ->
  fst (isReductionInCheckpointMemoryNeeded E s) = true ->
  let amt := snd (isReductionInCheckpointMemoryNeeded E s) in
  let s0 := setAvailable false s in
  let recovered := fst (expelPass E amt s0) in
  let s1 := snd (expelPass E amt s0) in
  exists tE tD,
    trace (snd (run E s)) = trace s ++ tE ++ tD ++ [EvVisitAsync; EvSnooze]
    /\ ExpelPassTrace amt 0 tE recovered
    /\ Subseq (visitedVBuckets tE)
              (map fst (getVBucketsSortedByChkMgrMem E (world s)))
    /\ (chkExpelEnabled (config s) = false -> tE = [])
    /\ (exists cleared, DropPassTrace (SizeT.sub amt recovered) 0 tD cleared)
    /\ forallb isCursorDropEvent tD = true
    /\ Subseq (visitedVBuckets tD)
              (map fst (getVBucketsSortedByChkMgrMem E (world s1)))
    /\ (tD <> [] -> recovered < amt)
    /\ (chkExpelEnabled (config s) = true ->
        ExpelPassOver E amt (getVBucketsSortedByChkMgrMem E (world s)) 0
          (world s) tE recovered (world s1))
    /\ (chkExpelEnabled (config s) = false ->
        recovered = 0 /\ world s1 = world s)
    /\ (recovered < amt ->
        exists cleared,
          DropPassOver E (SizeT.sub amt recovered)
            (getVBucketsSortedByChkMgrMem E (world s1)) 0 (world s1) tD
            cleared (world (snd (run E s))))
    /\ (amt <= recovered -> tD = [] /\ world (snd (run E s)) = world s1)
    /\ (exists visitedE,
          Subseq visitedE (getVBucketsSortedByChkMgrMem E (world s))
          /\ visitedVBuckets tE = map fst visitedE
          /\ (byChkMgrMemDescending
                (getVBucketsSortedByChkMgrMem E (world s)) ->
              byChkMgrMemDescending visitedE))
    /\ (exists visitedD,
          Subseq visitedD (getVBucketsSortedByChkMgrMem E (world s1))
          /\ visitedVBuckets tD = map fst visitedD
          /\ (byChkMgrMemDescending
                (getVBucketsSortedByChkMgrMem E (world s1)) ->
              byChkMgrMemDescending visitedD)).
Proof.
  intros Ha Hneed.
  destruct (isReductionInCheckpointMemoryNeeded E s) as [b amt] eqn:Hred.
  simpl in Hneed. subst b. cbv zeta. cbn [fst snd].
  rewrite (run_needed s amt Ha Hred). unfold reduceMemory.
  destruct (expelPass_shape amt (setAvailable false s))
    as (tE & HtE & HshapeE & HsubE & HoffE).
  destruct (expelPass_over amt (setAvailable false s))
    as (tE' & HtE' & HonE & HnoE).
  rewrite HtE in HtE'. apply app_inv_head in HtE'. subst tE'.
  destruct (expelPass E amt (setAvailable false s)) as [recovered s1].
  simpl in *.
  destruct (cursorDropPass_shape amt recovered s1)
    as (tD & HtD & HpassD & HallD & HsubD & HshortD).
  destruct (cursorDropPass_over amt recovered s1)
    as (tD' & HtD' & HonD & HnoD).
  rewrite HtD in HtD'. apply app_inv_head in HtD'. subst tD'.
  exists tE, tD.
  split; [simpl; rewrite HtD, HtE, <- !app_assoc; reflexivity|].
  repeat (split; [assumption|]).
  split; [now apply visits_in_list_order|now apply visits_in_list_order].
Qed.

End WithEngine.
End RemoverFacts.

(** ** The paging visitor *)

Module PagingFacts.
Import Paging.

Section WithEngine.

Context {W : Type} (E : Paging.Engine W).

(** C8.  When the paging visitor removes the closed unreferenced checkpoints
    of a partition, notifyVBConnections is called, for that partition and
    with its high seqno after the removal, if and only if the manager reports
    that a new open checkpoint was created. *)
Theorem notify_iff_new_open_checkpoint (vbid : Vbid) (s : VisitorState W) :
  let result :=
    checkpointManager_removeClosedUnrefCheckpoints E vbid (world s) in
  let removed := fst (fst result) in
  let newCheckpointCreated := snd (fst result) in
  let w1 := snd result in
  exists tr,
    trace (removeClosedUnrefCheckpoints E vbid s)
    = trace s
      ++ EvRemoveClosedUnrefCheckpoints vbid removed newCheckpointCreated :: tr
    /\ (forall vb seqno,
          In (EvNotifyVBConnections vb seqno) tr <->
          newCheckpointCreated = true
          /\ vb = vbid /\ seqno = getHighSeqno E vbid w1)
    /\ List.length tr = (if newCheckpointCreated then 1 else 0)%nat.
Proof.
  unfold removeClosedUnrefCheckpoints.
  destruct (checkpointManager_removeClosedUnrefCheckpoints E vbid (world s))
    as [[removed created] w1].
  simpl. destruct created; simpl.
  - exists [EvNotifyVBConnections vbid (getHighSeqno E vbid w1)].
    split; [now rewrite <- app_assoc|]. split; [|reflexivity].
    intros vb seqno. simpl. split.
    + intros [H|[]]. inversion H. auto.
    + intros (_ & -> & ->). left. reflexivity.
  - exists []. split; [reflexivity|]. split; [|reflexivity].
    intros vb seqno. simpl. split; [intros []|intros [H _]; discriminate].
Qed.

End WithEngine.
End PagingFacts.

(** ** The task on the small bucket *)

Module ExampleFacts.
Import Remover Example.

Lemma reduction_needed_iff_witness :
  let s := start statsCheckpointTrigger twoVBuckets in
  fst (isReductionInCheckpointMemoryNeeded engine s) = true <->
  950 < 900 \/ (750 <= 900 /\ (1000 * 50) / 100 <= 600).
Proof.
  intros s.
  destruct (RemoverFacts.reduction_needed_iff engine s) as [_ H].
  apply H; simpl; unfold SizeT.modulus; lia.
Defined.

Lemma amount_to_clear_witness :
  let s := start statsCheckpointTrigger twoVBuckets in
  let s' := start statsBothTriggers twoVBuckets in
  let s'' := start statsBothTriggers oneSmall in
  snd (isReductionInCheckpointMemoryNeeded engine s) = 900 - 300
  /\ snd (isReductionInCheckpointMemoryNeeded engine s')
     = SizeT.sub 900 (SizeT.mul 1000 30 / 100)
  /\ snd (isReductionInCheckpointMemoryNeeded engine s'') = 900 - 800.
Proof.
  intros s s' s''. split; [|split].
  - destruct (RemoverFacts.amount_to_clear engine s eq_refl) as [H _].
    destruct (H eq_refl) as [_ Hexact].
    apply Hexact; vm_compute; split; congruence.
  - destruct (RemoverFacts.amount_to_clear engine s' eq_refl) as [H _].
    destruct (H eq_refl) as [Hwrap _]. exact Hwrap.
  - destruct (RemoverFacts.amount_to_clear engine s'' eq_refl) as [_ H].
    destruct (H eq_refl) as (_ & _ & Hexact).
    apply Hexact; vm_compute; split; congruence.
Defined.

Lemma run_without_trigger_witness :
  let s := start statsNoTrigger twoVBuckets in
  let s' := mkTaskState configuration statsNoTrigger false twoVBuckets [] in
  run engine s
  = (true, mkTaskState configuration statsNoTrigger false twoVBuckets
             [EvVisitAsync; EvSnooze])
  /\ In EvVisitAsync (trace (snd (run engine s)))
  /\ run engine s' = (true, log EvSnooze s').
Proof.
  intros s s'.
  destruct (RemoverFacts.run_without_trigger engine s) as (H1 & H2 & _).
  destruct (RemoverFacts.run_without_trigger engine s') as (_ & _ & H3).
  split; [|split].
  - rewrite (H1 eq_refl eq_refl). reflexivity.
  - exact (H2 eq_refl).
  - exact (H3 eq_refl).
Defined.

Lemma cursor_drop_loop_witness :
  let s := start statsCheckpointTrigger twoCursors in
  dropCursors engine 0 0 [1%nat; 3%nat] 0 s = (0, s)
  /\ (exists s3,
        dropCursors engine 0 1000 [1%nat; 3%nat] 0 s
        = dropCursors engine 0 1000 [3%nat] (SizeT.add 0 300) s3)
  /\ (exists s1,
        dropCursors engine 0 1000 [2%nat; 3%nat] 0 s
        = dropCursors engine 0 1000 [3%nat] 0 s1).
Proof.
  intros s. split; [|split].
  - destruct (RemoverFacts.cursor_drop_loop engine 0 0 [1%nat; 3%nat] 0 s)
      as (H & _ & _).
    apply H. lia.
  - destruct (RemoverFacts.cursor_drop_loop engine 0 1000 [1%nat; 3%nat] 0 s)
      as (_ & H & _).
    destruct (H 1%nat [3%nat] eq_refl ltac:(lia)) as [Htrue _].
    eexists. exact (Htrue eq_refl).
  - destruct (RemoverFacts.cursor_drop_loop engine 0 1000 [2%nat; 3%nat] 0 s)
      as (_ & H & _).
    destruct (H 2%nat [3%nat] eq_refl ltac:(lia)) as [_ Hfalse].
    eexists. exact (Hfalse eq_refl).
Defined.

Lemma each_drop_adds_whole_unref_memory_witness :
  let s := start statsCheckpointTrigger twoCursors in
  fst (dropCursors engine 0 1000 [1%nat; 3%nat] 0 s) = 0 + 300 + 400
  /\ 0 + 2 * 300 <= fst (dropCursors engine 0 1000 [1%nat; 3%nat] 0 s).
Proof.
  intros s.
  destruct (RemoverFacts.each_drop_adds_whole_unref_memory
              engine 0 1000 [1%nat; 3%nat] 0 s) as [_ H].
  destruct (H 1%nat 3%nat _ _ eq_refl eq_refl eq_refl) as [_ Hexact].
  - vm_compute. reflexivity.
  - vm_compute. reflexivity.
  - apply Hexact; vm_compute; try split; congruence.
Defined.

Lemma missing_vbucket_is_skipped_witness :
  let s := start statsCheckpointTrigger oneGone in
  recoverFrom engine checkpointExpel 600 [(0, 400); (1, 200)] 0 s
  = recoverFrom engine checkpointExpel 600 [(1, 200)] 0 s
  /\ recoverFrom engine cursorDrop 600 [(0, 400)] 0 s = (0, s).
Proof.
  intros s. split.
  - destruct (RemoverFacts.missing_vbucket_is_skipped engine checkpointExpel
                600 [(0, 400); (1, 200)] 0 s) as (H & _ & _).
    exact (H (0, 400) [(1, 200)] eq_refl eq_refl).
  - destruct (RemoverFacts.missing_vbucket_is_skipped engine cursorDrop
                600 [(0, 400)] 0 s) as (_ & H & _).
    apply H. intros it [<-|[]]. reflexivity.
Defined.

Lemma recovery_is_two_passes_witness :
  let s := start statsCheckpointTrigger twoVBuckets in
  let s1 := snd (expelPass engine 600 (setAvailable false s)) in
  exists tE tD,
    trace (snd (run engine s)) = tE ++ tD ++ [EvVisitAsync; EvSnooze]
    /\ forallb isExpelEvent tE = true
    /\ forallb isCursorDropEvent tD = true
    /\ (tD <> [] -> fst (expelPass engine 600 (setAvailable false s)) < 600)
    /\ ExpelPassOver engine 600 [(0, 400); (1, 200)] 0 twoVBuckets tE 30
         (world s1)
    /\ (exists cleared,
          DropPassOver engine 570 [(0, 390); (1, 180)] 0 (world s1) tD cleared
            (world (snd (run engine s))))
    /\ (exists visitedE,
          visitedVBuckets tE = map fst visitedE
          /\ byChkMgrMemDescending visitedE).
Proof.
  intros s s1.
  destruct (RemoverFacts.recovery_is_two_passes engine s eq_refl eq_refl)
    as (tE & tD & Htr & HshapeE & _ & _ & _ & HallD & _ & Hshort
        & HonE & _ & HonD & _ & (visitedE & _ & HeqE & HsortE) & _).
  exists tE, tD.
  split; [exact Htr|].
  split; [clear - HshapeE; induction HshapeE; simpl; auto|].
  split; [exact HallD|]. split; [exact Hshort|].
  split; [exact (HonE eq_refl)|].
  split; [exact (HonD eq_refl)|].
  exists visitedE. split; [exact HeqE|]. apply HsortE.
  change (byChkMgrMemDescending [(0, 400); (1, 200)]).
  unfold byChkMgrMemDescending. repeat constructor; simpl; lia.
Defined.

(** C2, the claim as it is worded: on this bucket the run expels from
    partition 1 before it fetches the cursors of partition 0, so its calls
    are not those of one loop that finishes a partition, expel then cursor
    drop, before it visits the next. *)
Lemma per_partition_order_counterexample :
  let s := start statsCheckpointTrigger twoVBuckets in
  let s0 := setAvailable false s in
  let amt := snd (isReductionInCheckpointMemoryNeeded engine s) in
  fst (isReductionInCheckpointMemoryNeeded engine s) = true
  /\ nth_error (trace (snd (run engine s))) 1
     = Some (EvExpel 1 (mkExpelResult 1 20))
  /\ nth_error (trace (snd (run engine s))) 2
     = Some (EvGetListOfCursorsToDrop 0 [1%nat])
  /\ trace (snd (run engine s))
     <> trace (snd (perPartitionRecovery engine amt
                      (getVBucketsSortedByChkMgrMem engine (world s0)) 0 s0))
        ++ [EvVisitAsync; EvSnooze].
Proof.
  vm_compute. repeat split; try reflexivity. discriminate.
Qed.

(** C3, the claim as it is worded: with both triggers the recovery is
    triggered by total memory, and the target is not the memory used minus
    the cursor_dropping_lower_mark threshold. *)
Lemma target_with_both_triggers_counterexample :
  let s := start statsBothTriggers twoVBuckets in
  fst (isReductionInCheckpointMemoryNeeded engine s) = true
  /\ memUsedExceedsCursorDroppingUpperMark s = true
  /\ snd (isReductionInCheckpointMemoryNeeded engine s) = 600
  /\ snd (isReductionInCheckpointMemoryNeeded engine s)
     <> estimatedTotalMemoryUsed (stats s) - cursorDroppingLThreshold (stats s).
Proof.
  vm_compute. repeat split; try reflexivity. discriminate.
Qed.

(** C4, the claim as it is worded: with neither trigger the run still
    schedules the visitor. *)
Lemma visitor_scheduled_without_trigger_counterexample :
  let s := start statsNoTrigger twoVBuckets in
  fst (isReductionInCheckpointMemoryNeeded engine s) = false
  /\ trace (snd (run engine s)) = [EvVisitAsync; EvSnooze].
Proof.
  vm_compute. split; reflexivity.
Qed.

End ExampleFacts.

(** ** The cursor operations of the manager *)

Module CheckpointManagerFacts.
Import CheckpointManager.

(** *** registerCursorBySeqno *)

Lemma lookupCursor_registered n startBySeqno m :
  exists cursor,
    lookupCursor n (connCursors (snd (registerCursorBySeqno n startBySeqno m)))
    = Some cursor
    /\ currentCheckpoint cursor = locateCheckpoint startBySeqno m
    /\ currentPos cursor
       = match nth_error (checkpointList m)
                         (locateCheckpoint startBySeqno m) with
         | Some c => locatePosition startBySeqno (items c)
         | None => O
         end.
Proof.
  eexists. simpl. rewrite String.eqb_refl. repeat split.
Qed.

Lemma remainingItems_suffix l :
  forall idx pos, exists pre, logOf l = pre ++ remainingItems l idx pos.
Proof.
  induction l as [|c l IH]; intros idx pos.
  - exists []. unfold remainingItems. destruct idx; reflexivity.
  - destruct idx as [|idx].
    + exists (firstn pos (items c)). unfold remainingItems, logOf. simpl.
      rewrite app_assoc, firstn_skipn. reflexivity.
    + destruct (IH idx pos) as [pre Hpre].
      exists (items c ++ pre). unfold logOf in *. simpl.
      rewrite Hpre, <- app_assoc. reflexivity.
Qed.

Lemma StronglySorted_suffix (l1 l2 : list Z) :
  StronglySorted Z.le (l1 ++ l2) -> StronglySorted Z.le l2.
Proof.
  induction l1 as [|x l1 IH]; simpl; intros H; [exact H|].
  apply IH. now inversion H.
Qed.

Lemma remainingItems_ascend l idx pos :
  seqnosAscend l ->
  StronglySorted Z.le (map bySeqno (remainingItems l idx pos)).
Proof.
  unfold seqnosAscend. intros H.
  destruct (remainingItems_suffix l idx pos) as [pre Hpre].
  rewrite Hpre, map_app in H. now apply StronglySorted_suffix in H.
Qed.

Lemma findIndex_none {A : Type} (p : A -> bool) (l : list A) :
  Forall (fun x => p x = false) l -> findIndex p l = None.
Proof.
  induction 1 as [|x l Hx _ IH]; simpl; [reflexivity|].
  rewrite Hx, IH. reflexivity.
Qed.

(** When the flag is set, the snapshot ranges ascend and the items of the
    earliest checkpoint lie in its range, the cursor is placed at the start
    of the earliest checkpoint: it observes the whole log the manager
    retains. *)
Lemma tryBackfill_places_cursor_at_start n startBySeqno m earliest later :
  checkpointList m = earliest :: later ->
  tryBackfill (fst (registerCursorBySeqno n startBySeqno m)) = true ->
  startBySeqno < lastBySeqno m ->
  Forall (fun c => snapStart earliest <= snapStart c) later ->
  Forall (fun it => snapStart earliest <= bySeqno it) (items earliest) ->
  lookupCursor n (connCursors (snd (registerCursorBySeqno n startBySeqno m)))
  = Some (mkCursor n 0 0 (negb (String.eqb n "persistence"))).
Proof.
  intros Hl Hflag Hlast Hranges Hitems.
  simpl in Hflag. rewrite Hl in Hflag. apply Z.ltb_lt in Hflag.
  simpl. rewrite String.eqb_refl. f_equal.
  assert (Hidx : locateCheckpoint startBySeqno m = O).
  { unfold locateCheckpoint.
    destruct (Z.leb_spec (lastBySeqno m) startBySeqno); [lia|].
    rewrite Hl, findIndex_none.
    - simpl. destruct (Z.ltb_spec startBySeqno (snapStart earliest));
        [reflexivity|lia].
    - constructor.
      + unfold containsSeqno.
        destruct (Z.leb_spec (snapStart earliest) startBySeqno);
          [lia|reflexivity].
      + eapply Forall_impl; [|exact Hranges].
        intros c Hc. cbv beta in Hc. unfold containsSeqno.
        destruct (Z.leb_spec (snapStart c) startBySeqno); [lia|reflexivity]. }
  rewrite Hidx, Hl. simpl. f_equal.
  unfold locatePosition.
  destruct Hitems as [|it its Hit _]; [reflexivity|].
  simpl. destruct (Z.ltb_spec startBySeqno (bySeqno it)); [reflexivity|lia].
Qed.

(** C7.  The result of registerCursorBySeqno holds a seqno and the
    tryBackfill flag.  The flag is true if and only if startBySeqno precedes
    the snapshot start of the earliest checkpoint the manager retains.  The
    seqno is that of the first item the registered cursor has still to
    observe, one past lastBySeqno when nothing is left; when the seqnos of
    the log ascend, every item the cursor has still to observe is at or after
    it. *)
Theorem registerCursorBySeqno_result (n : string) (startBySeqno : Z)
    (m : Manager) (earliest : Checkpoint) (later : list Checkpoint) :
  checkpointList m = earliest :: later ->
  let r := fst (registerCursorBySeqno n startBySeqno m) in
  let m' := snd (registerCursorBySeqno n startBySeqno m) in
  (tryBackfill r = true <-> startBySeqno < snapStart earliest)
  /\ exists cursor,
       lookupCursor n (connCursors m') = Some cursor
       /\ let toObserve :=
            remainingItems (checkpointList m')
                           (currentCheckpoint cursor) (currentPos cursor) in
          match toObserve with
          | it :: _ => seqno r = bySeqno it
          | [] => seqno r = lastBySeqno m + 1
          end
          /\ (seqnosAscend (checkpointList m) ->
              Forall (fun it => seqno r <= bySeqno it) toObserve).
Proof.
  intros Hl r m'. split.
  - subst r. simpl. rewrite Hl. apply Z.ltb_lt.
  - destruct (lookupCursor_registered n startBySeqno m)
      as (cursor & Hlook & Hidx & Hpos).
    exists cursor. split; [exact Hlook|].
    subst r m'. simpl. rewrite Hidx, Hpos.
    split.
    + destruct (remainingItems _ _ _); reflexivity.
    + intros Hasc.
      pose proof (remainingItems_ascend (checkpointList m)
                    (locateCheckpoint startBySeqno m)
                    match nth_error (checkpointList m)
                                    (locateCheckpoint startBySeqno m) with
                    | Some c => locatePosition startBySeqno (items c)
                    | None => O
                    end Hasc) as Hs.
      destruct (remainingItems _ _ _) as [|it rest]; [constructor|].
      simpl in Hs. inversion Hs as [|? ? _ Hall]; subst.
      constructor; [lia|].
      rewrite Forall_map in Hall. exact Hall.
Qed.

(** *** The drain of a cursor *)

Lemma CheckpointType_eqb_eq a b : CheckpointType_eqb a b = true <-> a = b.
Proof. destruct a, b; simpl; split; congruence. Qed.

Lemma numNonMeta_app l1 l2 :
  numNonMeta (l1 ++ l2) = numNonMeta l1 + numNonMeta l2.
Proof.
  unfold numNonMeta. rewrite filter_app, length_app. lia.
Qed.

Lemma last_default_irrelevant {A : Type} (x : A) l d1 d2 :
  last (x :: l) d1 = last (x :: l) d2.
Proof.
  revert x. induction l as [|y l IH]; intros x; [reflexivity|].
  change (last (y :: l) d1 = last (y :: l) d2). apply IH.
Qed.

Lemma last_cons {A : Type} (x : A) l d : last (x :: l) d = last l x.
Proof.
  destruct l as [|y l]; [reflexivity|].
  change (last (y :: l) d = last (y :: l) x). apply last_default_irrelevant.
Qed.

(** The checkpoints a walk visits: the current one, then the first [k] of
    those that follow, each fetched whole.  None of them differs in type
    from the current one; the limit is not reached at any boundary crossed;
    and the walk stops for one of four reasons. *)
Lemma visitCheckpoints_shape approxLimit next :
  forall count cur curItems,
  exists k,
    visitCheckpoints approxLimit count cur curItems next
    = (cur, curItems) :: map (fun c => (c, items c)) (firstn k next)
    /\ (k <= List.length next)%nat
    /\ Forall (fun c => ckptType c = ckptType cur) (firstn k next)
    /\ (forall j, (j < k)%nat ->
          limitReached approxLimit
            (count + numNonMeta
                       (curItems ++ concat (map items (firstn j next))))
          = false)
    /\ (k = List.length next
        \/ state (last (firstn k next) cur) = CHECKPOINT_OPEN
        \/ limitReached approxLimit
             (count + numNonMeta
                        (curItems ++ concat (map items (firstn k next))))
           = true
        \/ exists n, nth_error next k = Some n /\ ckptType n <> ckptType cur).
Proof.
  induction next as [|n next IH]; intros count cur curItems.
  - exists O. simpl. repeat split; auto; intros; lia.
  - simpl. destruct (state cur) eqn:Hstate.
    + exists O. simpl. repeat split; auto; intros; lia.
    + destruct (limitReached approxLimit (count + numNonMeta curItems))
        eqn:Hlimit.
      * exists O. simpl. rewrite app_nil_r.
        repeat split; auto; intros; lia.
      * destruct (CheckpointType_eqb (ckptType cur) (ckptType n)) eqn:Htype.
        -- apply CheckpointType_eqb_eq in Htype.
           destruct (IH (count + numNonMeta curItems) n (items n))
             as (k & Hvisit & Hlen & Hsame & Hbelow & Hstop).
           exists (S k). simpl. split; [|split; [|split; [|split]]].
           ++ rewrite Hvisit. reflexivity.
           ++ lia.
           ++ constructor; [now symmetry|].
              rewrite Htype. exact Hsame.
           ++ intros j Hj. destruct j as [|j].
              ** simpl. rewrite app_nil_r. exact Hlimit.
              ** simpl. rewrite numNonMeta_app, Z.add_assoc.
                 apply Hbelow. lia.
           ++ rewrite numNonMeta_app, Z.add_assoc, Htype.
              destruct Hstop as [H|[H|[H|H]]].
              ** left. now f_equal.
              ** right. left.
                 change (state (last (n :: firstn k next) cur)
                         = CHECKPOINT_OPEN).
                 rewrite last_cons. exact H.
              ** right. right. left. exact H.
              ** right. right. right. exact H.
        -- exists O. simpl.
           split; [reflexivity|]. split; [lia|]. split; [constructor|].
           split; [intros; lia|].
           right. right. right. exists n. split; [reflexivity|].
           intros Heq. symmetry in Heq.
           apply CheckpointType_eqb_eq in Heq. congruence.
Qed.

Lemma drainStart_nth l cursor idx pos c :
  drainStart l cursor = Some (idx, pos, c) -> nth_error l idx = Some c.
Proof.
  unfold drainStart.
  destruct (nth_error l (currentCheckpoint cursor)) as [c0|] eqn:H0;
    [|discriminate].
  destruct (state c0);
    [intros H; inversion H; subst; exact H0|].
  destruct (nth_error l (S (currentCheckpoint cursor))) as [c1|] eqn:H1;
    [|intros H; inversion H; subst; exact H0].
  destruct (List.length (items c0) <=? currentPos cursor)%nat;
    intros H; inversion H; subst; assumption.
Qed.

Lemma nth_error_skipn {A : Type} (l : list A) n j :
  nth_error (skipn n l) j = nth_error l (n + j).
Proof.
  revert l. induction n as [|n IH]; intros l; [reflexivity|].
  destruct l as [|x l]; simpl; [now destruct j|]. apply IH.
Qed.

Lemma same_type_until_change (c : Checkpoint) later k :
  Forall (fun c' => ckptType c' = ckptType c) (firstn k later) ->
  forall j n,
    nth_error later j = Some n -> ckptType n <> ckptType c -> (k <= j)%nat.
Proof.
  intros Hsame j n Hn Hdiff.
  destruct (Nat.le_gt_cases k j) as [Hle|Hgt]; [exact Hle|].
  exfalso. apply Hdiff.
  rewrite Forall_forall in Hsame. apply Hsame.
  apply nth_error_In with (n := j).
  rewrite nth_error_firstn.
  destruct (Nat.ltb_spec j k); [exact Hn|lia].
Qed.

Lemma boundary_checkpoint (l : list Checkpoint) idx c k :
  nth_error l idx = Some c ->
  (k <= List.length (skipn (S idx) l))%nat ->
  exists c', nth_error l (idx + k) = Some c'.
Proof.
  intros Hc Hk. destruct k as [|k].
  - exists c. now rewrite Nat.add_0_r.
  - destruct (nth_error l (idx + S k)) as [c'|] eqn:Hn; [now exists c'|].
    exfalso.
    assert (Hin : nth_error (skipn (S idx) l) k <> None)
      by (apply nth_error_Some; lia).
    apply Hin. rewrite nth_error_skipn.
    replace (S idx + k)%nat with (idx + S k)%nat by lia. exact Hn.
Qed.

Lemma drain_shape (approxLimit : option Z)
    (cursor : CheckpointCursor) (m : Manager)
    (fetched : list QueuedItem) (res : ItemsForCursor)
    (cursor' : CheckpointCursor) :
  drain approxLimit cursor m = Some (fetched, res, cursor') ->
  exists idx pos c k,
    drainStart (checkpointList m) cursor = Some (idx, pos, c)
    /\ let later := skipn (S idx) (checkpointList m) in
       (k <= List.length later)%nat
       /\ fetched = skipn pos (items c) ++ concat (map items (firstn k later))
       /\ currentCheckpoint cursor' = (idx + k)%nat
       /\ (exists c',
             nth_error (checkpointList m) (idx + k) = Some c'
             /\ currentPos cursor' = List.length (items c'))
       /\ checkpointType res = ckptType c
       /\ Forall (fun c' => ckptType c' = ckptType c) (firstn k later)
       /\ (forall j n,
             nth_error later j = Some n -> ckptType n <> ckptType c ->
             (k <= j)%nat)
       /\ (forall j, (j < k)%nat ->
             limitReached approxLimit
               (numNonMeta
                  (skipn pos (items c) ++ concat (map items (firstn j later))))
             = false)
       /\ (k = List.length later
           \/ state (last (firstn k later) c) = CHECKPOINT_OPEN
           \/ limitReached approxLimit (numNonMeta fetched) = true
           \/ exists n,
                nth_error later k = Some n /\ ckptType n <> ckptType c).
Proof.
  intros Hd. unfold drain in Hd.
  destruct (drainStart (checkpointList m) cursor) as [[[idx pos] c]|] eqn:Hs;
    [|discriminate].
  destruct (visitCheckpoints_shape approxLimit
              (skipn (S idx) (checkpointList m)) 0 c (skipn pos (items c)))
    as (k & Hv & Hlen & Hsame & Hbelow & Hstop).
  rewrite Hv in Hd. clear Hv.
  assert (Hk : (idx + Nat.pred
                        (List.length
                           ((c, skipn pos (items c))
                            :: map (fun c0 => (c0, items c0))
                                 (firstn k (skipn (S idx) (checkpointList m))))))%nat
               = (idx + k)%nat).
  { simpl. rewrite length_map, firstn_length_le by exact Hlen. reflexivity. }
  rewrite Hk in Hd.
  destruct (boundary_checkpoint _ _ _ k (drainStart_nth _ _ _ _ _ Hs) Hlen)
    as [c' Hc'].
  rewrite Hc' in Hd.
  assert (Hf : concat (map snd
                 ((c, skipn pos (items c))
                  :: map (fun c0 => (c0, items c0))
                       (firstn k (skipn (S idx) (checkpointList m)))))
               = skipn pos (items c)
                 ++ concat (map items
                              (firstn k (skipn (S idx) (checkpointList m))))).
  { simpl. rewrite map_map. reflexivity. }
  rewrite Hf in Hd.
  inversion Hd; subst; clear Hd.
  exists idx, pos, c, k. split; [reflexivity|]. cbv zeta. simpl.
  split; [exact Hlen|]. split; [reflexivity|]. split; [reflexivity|].
  split; [exists c'; split; [exact Hc'|reflexivity]|].
  split; [reflexivity|]. split; [exact Hsame|].
  split; [now apply same_type_until_change|].
  split; [exact Hbelow|exact Hstop].
Qed.

Lemma drain_total approxLimit cursor m :
  (currentCheckpoint cursor < List.length (checkpointList m))%nat ->
  exists out, drain approxLimit cursor m = Some out.
Proof.
  intros Hin. unfold drain, drainStart.
  destruct (nth_error (checkpointList m) (currentCheckpoint cursor))
    as [c0|] eqn:H0.
  - destruct (state c0); [eexists; reflexivity|].
    destruct (nth_error (checkpointList m) (S (currentCheckpoint cursor)));
      [|eexists; reflexivity].
    destruct (List.length (items c0) <=? currentPos cursor)%nat;
      eexists; reflexivity.
  - apply nth_error_None in H0. lia.
Qed.

(** C5.  For a cursor whose checkpoint is in the list a drain, bounded
    ([getItemsForCursor]) or not ([getNextItemsForCursor]), returns; it
    fetches what is left of the checkpoint it
    starts in and then whole checkpoints only, and leaves the cursor at the
    end of the last checkpoint fetched: it stops at a checkpoint boundary and
    never in the middle of a checkpoint.  The checkpoints fetched are
    contiguous and of one type: the drain does not go past a checkpoint of
    the other type, whatever the limit.  For the bounded drain the boundary
    is the first at or after approxLimit non-meta items: fewer than
    approxLimit non-meta items were fetched at every boundary it crossed,
    and it stops before the limit only at the end of the list, at the open
    checkpoint or at a change of type. *)
Theorem drain_stops_at_checkpoint_boundary (approxLimit : option Z)
    (cursor : CheckpointCursor) (m : Manager) :
  (currentCheckpoint cursor < List.length (checkpointList m))%nat ->
  exists fetched res cursor' idx pos c k,
    match approxLimit with
    | Some l => getItemsForCursor cursor m l
    | None => getNextItemsForCursor cursor m
    end = Some (fetched, res, cursor')
    /\ drainStart (checkpointList m) cursor = Some (idx, pos, c)
    /\ let later := skipn (S idx) (checkpointList m) in
       (k <= List.length later)%nat
       /\ fetched = skipn pos (items c) ++ concat (map items (firstn k later))
       /\ currentCheckpoint cursor' = (idx + k)%nat
       /\ (exists c',
             nth_error (checkpointList m) (idx + k) = Some c'
             /\ currentPos cursor' = List.length (items c'))
       /\ checkpointType res = ckptType c
       /\ Forall (fun c' => ckptType c' = ckptType c) (firstn k later)
       /\ (forall j n,
             nth_error later j = Some n -> ckptType n <> ckptType c ->
             (k <= j)%nat)
       /\ (forall j, (j < k)%nat ->
             limitReached approxLimit
               (numNonMeta
                  (skipn pos (items c) ++ concat (map items (firstn j later))))
             = false)
       /\ (k = List.length later
           \/ state (last (firstn k later) c) = CHECKPOINT_OPEN
           \/ limitReached approxLimit (numNonMeta fetched) = true
           \/ exists n,
                nth_error later k = Some n /\ ckptType n <> ckptType c).
Proof.
  intros Hin.
  destruct (drain_total approxLimit cursor m Hin) as [[[fetched res] cursor'] Hd].
  destruct (drain_shape _ _ _ _ _ _ Hd) as (idx & pos & c & k & Hs & H).
  exists fetched, res, cursor', idx, pos, c, k.
  split; [destruct approxLimit; exact Hd|]. split; [exact Hs|exact H].
Qed.

End CheckpointManagerFacts.

(** ** The cursor operations on the small manager *)

Module CheckpointExampleFacts.
Import CheckpointManager CheckpointExample.

Lemma seqnosAscend_managerFrom3 : seqnosAscend (checkpointList managerFrom3).
Proof.
  unfold seqnosAscend, logOf. simpl. repeat constructor; lia.
Qed.

Lemma registerCursorBySeqno_result_witness :
  let r := fst (registerCursorBySeqno "replica" 1 managerFrom3) in
  (tryBackfill r = true <-> 1 < 3)
  /\ seqno r = 3
  /\ Forall (fun it => seqno r <= bySeqno it)
            (remainingItems (checkpointList managerFrom3) 0 0).
Proof.
  intros r.
  destruct (CheckpointManagerFacts.registerCursorBySeqno_result
              "replica" 1 managerFrom3 ckpt2 [ckpt3; ckpt4] eq_refl)
    as (Hflag & cursor & Hlook & Hseqno & Hall).
  vm_compute in Hlook. inversion Hlook; subst cursor; clear Hlook.
  split; [exact Hflag|]. split; [exact Hseqno|].
  exact (Hall seqnosAscend_managerFrom3).
Defined.

Lemma drain_stops_at_checkpoint_boundary_witness :
  exists fetched res cursor' k,
    getItemsForCursor persistence manager 3 = Some (fetched, res, cursor')
    /\ fetched
       = skipn 0 (items ckpt1)
         ++ concat (map items (firstn k [ckpt2; ckpt3; ckpt4]))
    /\ currentCheckpoint cursor' = (0 + k)%nat
    /\ Forall (fun c' => ckptType c' = Memory) (firstn k [ckpt2; ckpt3; ckpt4]).
Proof.
  destruct (CheckpointManagerFacts.drain_stops_at_checkpoint_boundary
              (Some 3) persistence manager)
    as (fetched & res & cursor' & idx & pos & c & k & Hd & Hs & H).
  - simpl. lia.
  - vm_compute in Hs. inversion Hs; subst idx pos c; clear Hs.
    destruct H as (_ & Hf & Hc & _ & _ & Hsame & _).
    exists fetched, res, cursor', k.
    split; [exact Hd|]. split; [exact Hf|]. split; [exact Hc|exact Hsame].
Defined.

End CheckpointExampleFacts.

(** ** More on the remover task *)

Module RemoverExtraFacts.
Import Remover RemoverAccounting.

Section WithEngine.

Context {W : Type} (E : Engine W).

(** *** What a run leaves alone *)

Lemma dropCursors_frame vbid amt cursors :
  forall cleared (s : TaskState W),
    config (snd (dropCursors E vbid amt cursors cleared s)) = config s
    /\ available (snd (dropCursors E vbid amt cursors cleared s)) = available s
    /\ thresholdsOf (stats (snd (dropCursors E vbid amt cursors cleared s)))
       = thresholdsOf (stats s).
Proof.
  induction cursors as [|c rest IH]; intros cleared s; [repeat split|].
  simpl. destruct (cleared <? amt); [|repeat split].
  destruct (handleSlowStream E vbid c (world s)) as [dropped w1].
  destruct dropped;
    match goal with
    | |- context [dropCursors E vbid amt rest ?m ?st] =>
      destruct (IH m st) as (Hc & Ha & Ht); rewrite Hc, Ha, Ht
    end; repeat split.
Qed.

Lemma recoverFrom_frame mech amt vbuckets :
  forall cleared (s : TaskState W),
    config (snd (recoverFrom E mech amt vbuckets cleared s)) = config s
    /\ available (snd (recoverFrom E mech amt vbuckets cleared s))
       = available s
    /\ thresholdsOf (stats (snd (recoverFrom E mech amt vbuckets cleared s)))
       = thresholdsOf (stats s).
Proof.
  induction vbuckets as [|it rest IH]; intros cleared s; [repeat split|].
  simpl. destruct (amt <=? cleared); [repeat split|].
  destruct (getVBucket E (world s) (fst it)); simpl; [|apply IH].
  destruct mech.
  - destruct (expelUnreferencedCheckpointItems E (fst it) (world s))
      as [r w1].
    match goal with
    | |- context [recoverFrom E checkpointExpel amt rest ?m ?st] =>
      destruct (IH m st) as (Hc & Ha & Ht); rewrite Hc, Ha, Ht
    end.
    repeat split.
  - match goal with
    | |- context [dropCursors E ?v amt ?cs cleared ?st] =>
      destruct (dropCursors_frame v amt cs cleared st) as (Hc & Ha & Ht);
      destruct (dropCursors E v amt cs cleared st) as [cleared1 s1]
    end.
    simpl in Hc, Ha, Ht.
    destruct (IH cleared1 s1) as (Hc' & Ha' & Ht').
    rewrite Hc', Ha', Ht', Hc, Ha, Ht. repeat split.
Qed.

Lemma reduceMemory_frame amt (s : TaskState W) :
  config (reduceMemory E amt s) = config s
  /\ available (reduceMemory E amt s) = available s
  /\ thresholdsOf (stats (reduceMemory E amt s)) = thresholdsOf (stats s).
Proof.
  unfold reduceMemory.
  assert (He : config (snd (expelPass E amt s)) = config s
               /\ available (snd (expelPass E amt s)) = available s
               /\ thresholdsOf (stats (snd (expelPass E amt s)))
                  = thresholdsOf (stats s)).
  { unfold expelPass, attemptMemoryRecovery.
    destruct (chkExpelEnabled (config s)); [apply recoverFrom_frame|].
    repeat split. }
  destruct (expelPass E amt s) as [recovered s1]. simpl in He.
  destruct He as (Hc & Ha & Ht).
  unfold cursorDropPass, attemptMemoryRecovery.
  destruct (recovered <? amt); [|repeat split; assumption].
  match goal with
  | |- context [recoverFrom E cursorDrop ?a ?l 0 s1] =>
    destruct (recoverFrom_frame cursorDrop a l 0 s1) as (Hc' & Ha' & Ht')
  end.
  rewrite Hc', Ha', Ht'. repeat split; assumption.
Qed.

(** X2.  After any run the [available] flag is clear: the task takes the
    flag and never gives it back (the visitor it schedules does).  A run that
    follows before the flag is set again makes no call but the snooze. *)
Theorem run_clears_available_flag (s : TaskState W) :
  available (snd (run E s)) = false
  /\ run E (snd (run E s)) = (true, log EvSnooze (snd (run E s))).
Proof.
  assert (H : available (snd (run E s)) = false).
  { unfold run. destruct (available s) eqn:Ha; [|exact Ha].
    destruct (isReductionInCheckpointMemoryNeeded E (setAvailable false s))
      as [need amt].
    destruct need; [|reflexivity].
    destruct (reduceMemory_frame amt (setAvailable false s)) as (_ & Hav & _).
    simpl. exact Hav. }
  split; [exact H|].
  unfold run at 1. rewrite H. reflexivity.
Qed.

(** *** The counters of dropped cursors *)

Lemma droppedCursors_app tr1 tr2 :
  droppedCursors (tr1 ++ tr2) = droppedCursors tr1 ++ droppedCursors tr2.
Proof.
  induction tr1 as [|e tr1 IH]; [reflexivity|].
  destruct e as [| |? ? []| | |]; simpl; rewrite IH; reflexivity.
Qed.

Lemma unrefReadings_app tr1 tr2 :
  unrefReadings (tr1 ++ tr2) = unrefReadings tr1 ++ unrefReadings tr2.
Proof.
  induction tr1 as [|e tr1 IH]; [reflexivity|].
  destruct e; simpl; rewrite IH; reflexivity.
Qed.

Lemma Accounted_refl (s : TaskState W) : Accounted s s.
Proof. exists []. rewrite app_nil_r. repeat split. Qed.

Lemma Accounted_quiet (s s1 s2 : TaskState W) tr :
  Accounted s s1 ->
  trace s2 = trace s1 ++ tr ->
  droppedCursors tr = [] -> unrefReadings tr = [] ->
  stats s2 = stats s1 ->
  Accounted s s2.
Proof.
  intros (tr1 & Htr & Hd & Hm) Htr2 Hnd Hnm Hst.
  exists (tr1 ++ tr). rewrite Htr2, Htr, app_assoc.
  rewrite droppedCursors_app, unrefReadings_app, Hnd, Hnm, !app_nil_r, Hst.
  repeat split; assumption.
Qed.

Lemma Accounted_dropped (s s1 s2 : TaskState W) vbid c m :
  Accounted s s1 ->
  trace s2
  = trace s1 ++ [EvHandleSlowStream vbid c true;
                 EvGetChkMgrMemUsageOfUnrefCheckpoints vbid m] ->
  stats s2 = countDroppedCursor m (stats s1) ->
  Accounted s s2.
Proof.
  intros (tr1 & Htr & Hd & Hm) Htr2 Hst.
  exists (tr1 ++ [EvHandleSlowStream vbid c true;
                  EvGetChkMgrMemUsageOfUnrefCheckpoints vbid m]).
  rewrite Htr2, Htr, app_assoc.
  rewrite droppedCursors_app, unrefReadings_app, !fold_left_app, Hst.
  simpl. rewrite Hd, Hm. repeat split.
Qed.

Lemma dropCursors_accounted (s0 : TaskState W) vbid amt cursors :
  forall cleared s,
    Accounted s0 s ->
    Accounted s0 (snd (dropCursors E vbid amt cursors cleared s)).
Proof.
  induction cursors as [|c rest IH]; intros cleared s Hacc; [exact Hacc|].
  simpl. destruct (cleared <? amt); [|exact Hacc].
  destruct (handleSlowStream E vbid c (world s)) as [dropped w1].
  destruct dropped; apply IH.
  - eapply Accounted_dropped; [exact Hacc| |reflexivity].
    simpl. rewrite <- app_assoc. reflexivity.
  - eapply (Accounted_quiet _ _ _ [EvHandleSlowStream vbid c false]);
      [exact Hacc|reflexivity..].
Qed.

Lemma recoverFrom_accounted (s0 : TaskState W) mech amt vbuckets :
  forall cleared s,
    Accounted s0 s ->
    Accounted s0 (snd (recoverFrom E mech amt vbuckets cleared s)).
Proof.
  induction vbuckets as [|it rest IH]; intros cleared s Hacc; [exact Hacc|].
  simpl. destruct (amt <=? cleared); [exact Hacc|].
  destruct (getVBucket E (world s) (fst it)); simpl; [|now apply IH].
  destruct mech.
  - destruct (expelUnreferencedCheckpointItems E (fst it) (world s))
      as [r w1].
    apply IH.
    eapply (Accounted_quiet _ _ _ [EvExpel (fst it) r]);
      [exact Hacc|reflexivity..].
  - match goal with
    | |- context [dropCursors E ?v amt ?cs cleared ?st] =>
      assert (Hd : Accounted s0 (snd (dropCursors E v amt cs cleared st)));
      [|destruct (dropCursors E v amt cs cleared st) as [cleared1 s1]]
    end.
    { apply dropCursors_accounted.
      eapply (Accounted_quiet _ _ _ [EvGetListOfCursorsToDrop _ _]);
        [exact Hacc|reflexivity..]. }
    apply IH. exact Hd.
Qed.

(** X3.  The statistics of a run account for the calls it made: after the
    run [cursorsDropped] has been incremented once per cursor for which
    handleSlowStream returned true, and [cursorMemoryFreed] has grown by
    each reading of the unreferenced checkpoint memory ([size_t] additions);
    expels, failed drops and skipped partitions leave both untouched. *)
Theorem run_accounts_for_dropped_cursors (s : TaskState W) :
  exists tr,
    trace (snd (run E s)) = trace s ++ tr
    /\ cursorsDropped (stats (snd (run E s)))
       = fold_left (fun n _ => SizeT.add n 1) (droppedCursors tr)
                   (cursorsDropped (stats s))
    /\ cursorMemoryFreed (stats (snd (run E s)))
       = fold_left SizeT.add (unrefReadings tr) (cursorMemoryFreed (stats s)).
Proof.
  change (Accounted s (snd (run E s))).
  unfold run.
  destruct (available s).
  - destruct (isReductionInCheckpointMemoryNeeded E (setAvailable false s))
      as [need amt].
    assert (H0 : Accounted s (setAvailable false s)).
    { eapply (Accounted_quiet _ _ _ []); [apply Accounted_refl| | | |];
        try reflexivity. simpl. now rewrite app_nil_r. }
    assert (H1 : Accounted s (if need
                              then reduceMemory E amt (setAvailable false s)
                              else setAvailable false s)).
    { destruct need; [|exact H0].
      unfold reduceMemory.
      assert (He : Accounted s (snd (expelPass E amt (setAvailable false s)))).
      { unfold expelPass, attemptMemoryRecovery.
        destruct (chkExpelEnabled (config (setAvailable false s)));
          [now apply recoverFrom_accounted|exact H0]. }
      destruct (expelPass E amt (setAvailable false s)) as [recovered s1].
      unfold cursorDropPass, attemptMemoryRecovery.
      destruct (recovered <? amt); [|exact He].
      now apply recoverFrom_accounted. }
    simpl.
    eapply (Accounted_quiet _ _ _ [EvVisitAsync; EvSnooze]);
      [exact H1| | | |]; try reflexivity.
    simpl. rewrite <- app_assoc. reflexivity.
  - simpl. eapply (Accounted_quiet _ _ _ [EvSnooze]);
      [apply Accounted_refl|reflexivity..].
Qed.

(** *** The decision and the target at the edges *)

Lemma wrap_negative z :
  - SizeT.modulus <= z < 0 -> SizeT.wrap z = z + SizeT.modulus.
Proof.
  intros H. unfold SizeT.wrap.
  rewrite <- (Z_mod_plus_full z 1 SizeT.modulus).
  apply Z.mod_small. lia.
Qed.

Lemma target_in_range (s : TaskState W) :
  SizeT.in_range (snd (isReductionInCheckpointMemoryNeeded E s)).
Proof.
  unfold isReductionInCheckpointMemoryNeeded.
  destruct (memUsedExceedsCursorDroppingUpperMark s
            || ckptMemExceedsCheckpointMemoryThreshold E s); simpl.
  - destruct (ckptMemExceedsCheckpointMemoryThreshold E s);
      apply SizeTFacts.wrap_in_range.
  - unfold SizeT.in_range, SizeT.modulus. lia.
Qed.

(** X4.  The subtraction that gives the target is unsigned: when recovery
    is triggered while the memory used is below the lower limit it is
    measured against (a low watermark set under the checkpoint lower mark,
    or a lower threshold above the upper one), the target is not zero or
    negative but wraps to 2^64 minus the shortfall, more than any memory the
    bucket uses. *)
Theorem target_wraps_below_lower_limit (s : TaskState W) :
  fst (isReductionInCheckpointMemoryNeeded E s) = true ->
  let used := estimatedTotalMemoryUsed (stats s) in
  let limit :=
    if ckptMemExceedsCheckpointMemoryThreshold E s
    then SizeT.mul (maxSize (config s))
                   (cursorDroppingCheckpointMemLowerMark (config s)) / 100
    else cursorDroppingLThreshold (stats s) in
  0 <= used < limit -> limit < SizeT.modulus ->
  snd (isReductionInCheckpointMemoryNeeded E s)
  = SizeT.modulus - (limit - used)
  /\ used < snd (isReductionInCheckpointMemoryNeeded E s).
Proof.
  intros Hneed used limit Hused Hlimit.
  assert (Ht : snd (isReductionInCheckpointMemoryNeeded E s)
               = SizeT.sub used limit).
  { apply RemoverFacts.needed_iff_triggers in Hneed.
    subst used limit. unfold isReductionInCheckpointMemoryNeeded.
    destruct (ckptMemExceedsCheckpointMemoryThreshold E s).
    - rewrite orb_true_r. reflexivity.
    - destruct Hneed as [Hm|Hm]; [|discriminate]. rewrite Hm. reflexivity. }
  rewrite Ht. unfold SizeT.sub. rewrite wrap_negative by lia. lia.
Qed.

(** X5.  More memory pressure never turns recovery off: with the same
    configuration and thresholds, if recovery is needed it is still needed
    when the memory used and the checkpoint memory are no smaller. *)
Theorem reduction_needed_monotone (s s' : TaskState W) :
  config s' = config s ->
  mem_low_wat (stats s') = mem_low_wat (stats s) ->
  cursorDroppingUThreshold (stats s') = cursorDroppingUThreshold (stats s) ->
  estimatedTotalMemoryUsed (stats s) <= estimatedTotalMemoryUsed (stats s') ->
  getVBucketsTotalCheckpointMemoryUsage E (world s)
    <= getVBucketsTotalCheckpointMemoryUsage E (world s') ->
  fst (isReductionInCheckpointMemoryNeeded E s) = true ->
  fst (isReductionInCheckpointMemoryNeeded E s') = true.
Proof.
  intros Hc Hl Hu Hused Hchk.
  rewrite !RemoverFacts.needed_iff_triggers, !RemoverFacts.memTrigger_iff,
    !RemoverFacts.ckptTrigger_iff.
  rewrite Hc, Hl, Hu. lia.
Qed.

(** X6.  A target of zero, which recovery has when the memory used sits
    exactly on the lower limit, is met before anything is tried: the run
    makes no expel and drops no cursor, it only schedules the visitor and
    snoozes. *)
Theorem zero_target_recovers_nothing (s : TaskState W) :
  available s = true ->
  isReductionInCheckpointMemoryNeeded E s = (true, 0) ->
  run E s = (true, log EvSnooze (log EvVisitAsync (setAvailable false s))).
Proof.
  intros Ha Hred. unfold run.
  rewrite Ha, RemoverFacts.isReduction_setAvailable, Hred.
  assert (Hz : forall mech (st : TaskState W),
             attemptMemoryRecovery E mech 0 st = (0, st)).
  { intros mech st. unfold attemptMemoryRecovery.
    destruct (getVBucketsSortedByChkMgrMem E (world st)); reflexivity. }
  unfold reduceMemory, expelPass.
  destruct (chkExpelEnabled (config (setAvailable false s)));
    [rewrite Hz|]; reflexivity.
Qed.

(** *** A pass that ends short of its target *)

Lemma recoverFrom_exhausts mech amt vbuckets :
  (forall w vbid, getVBucket E w vbid = true) ->
  forall cleared (s : TaskState W),
    fst (recoverFrom E mech amt vbuckets cleared s) < amt ->
    exists tr,
      trace (snd (recoverFrom E mech amt vbuckets cleared s)) = trace s ++ tr
      /\ visitedVBuckets tr = map fst vbuckets.
Proof.
  intros Hpresent.
  induction vbuckets as [|it rest IH]; intros cleared s Hshort.
  - exists []. simpl. now rewrite app_nil_r.
  - simpl in Hshort |- *.
    destruct (Z.leb_spec amt cleared) as [Hge|Hlt]; [simpl in Hshort; lia|].
    rewrite Hpresent in Hshort |- *. simpl in Hshort |- *.
    destruct mech.
    + destruct (expelUnreferencedCheckpointItems E (fst it) (world s))
        as [r w1].
      destruct (IH _ _ Hshort) as (tr & Htr & Hv).
      exists (EvExpel (fst it) r :: tr). split.
      * rewrite Htr. simpl. now rewrite <- app_assoc.
      * simpl. now rewrite Hv.
    + set (cursors := getListOfCursorsToDrop E (fst it) (world s)) in *.
      set (s0 := log (EvGetListOfCursorsToDrop (fst it) cursors) s) in *.
      destruct (RemoverFacts.dropCursors_shape E (fst it) amt cursors cleared s0)
        as (trc & Htrc & Hloop).
      apply RemoverFacts.CursorLoopTrace_events in Hloop.
      destruct Hloop as [_ Hnone].
      destruct (dropCursors E (fst it) amt cursors cleared s0)
        as [cleared1 s1].
      simpl in Htrc.
      destruct (IH _ _ Hshort) as (tr & Htr & Hv).
      exists (EvGetListOfCursorsToDrop (fst it) cursors :: trc ++ tr). split.
      * rewrite Htr, Htrc. subst s0. simpl. now rewrite <- !app_assoc.
      * simpl. rewrite RemoverFacts.visitedVBuckets_app, Hnone, Hv.
        reflexivity.
Qed.

(** X7.  Recovery gives up only after it has tried every partition: in a
    bucket whose vbuckets are all there, a pass of attemptMemoryRecovery
    that returns less than its target has visited every partition of the
    list getVBucketsSortedByChkMgrMem returned, each once and in that
    order. *)
Theorem short_of_target_visits_every_partition mech amt (s : TaskState W) :
  (forall w vbid, getVBucket E w vbid = true) ->
  fst (attemptMemoryRecovery E mech amt s) < amt ->
  exists tr,
    trace (snd (attemptMemoryRecovery E mech amt s)) = trace s ++ tr
    /\ visitedVBuckets tr
       = map fst (getVBucketsSortedByChkMgrMem E (world s)).
Proof.
  intros Hpresent. unfold attemptMemoryRecovery.
  now apply recoverFrom_exhausts.
Qed.

(** *** Without expel the run is the loop of the specification *)

Lemma perPartition_is_cursorDrop amt vbuckets :
  forall cleared (s : TaskState W),
    chkExpelEnabled (config s) = false ->
    perPartitionRecovery E amt vbuckets cleared s
    = recoverFrom E cursorDrop amt vbuckets cleared s.
Proof.
  induction vbuckets as [|it rest IH]; intros cleared s Hoff; [reflexivity|].
  simpl. destruct (Z.leb_spec amt cleared) as [Hge|Hlt]; [reflexivity|].
  destruct (getVBucket E (world s) (fst it)); simpl; [|now apply IH].
  rewrite Hoff. destruct (Z.ltb_spec cleared amt); [|lia].
  match goal with
  | |- context [dropCursors E ?v amt ?cs cleared ?st] =>
    destruct (dropCursors_frame v amt cs cleared st) as (Hc & _ & _);
    destruct (dropCursors E v amt cs cleared st) as [cleared1 s1]
  end.
  simpl in Hc. apply IH. rewrite Hc. exact Hoff.
Qed.

(** X8.  With expel disabled the two passes of the code and the single
    loop over the partitions of section 4.4 are the same computation: the
    run ends in the state the per-partition loop ends in, followed by the
    scheduling of the visitor and the snooze. *)
Theorem no_expel_run_is_per_partition (s : TaskState W) :
  available s = true ->
  chkExpelEnabled (config s) = false ->
  fst (isReductionInCheckpointMemoryNeeded E s) = true ->
  snd (run E s)
  = log EvSnooze
      (log EvVisitAsync
         (snd (perPartitionRecovery E
                 (snd (isReductionInCheckpointMemoryNeeded E s))
                 (getVBucketsSortedByChkMgrMem E (world s)) 0
                 (setAvailable false s)))).
Proof.
  intros Ha Hoff Hneed.
  pose proof (target_in_range s) as Hrange.
  destruct (isReductionInCheckpointMemoryNeeded E s) as [need amt] eqn:Hred.
  simpl in Hneed, Hrange. cbn [fst snd]. subst need.
  rewrite (RemoverFacts.run_needed E s amt Ha Hred).
  do 2 f_equal.
  rewrite perPartition_is_cursorDrop by exact Hoff.
  unfold reduceMemory, expelPass. simpl. rewrite Hoff.
  unfold cursorDropPass, attemptMemoryRecovery. simpl.
  destruct (Z.ltb_spec 0 amt) as [Hpos|Hzero].
  - unfold SizeT.sub. rewrite Z.sub_0_r, SizeTFacts.wrap_small by exact Hrange.
    reflexivity.
  - assert (amt = 0) by (unfold SizeT.in_range in Hrange; lia). subst amt.
    destruct (getVBucketsSortedByChkMgrMem E (world s)); reflexivity.
Qed.

End WithEngine.
End RemoverExtraFacts.

Module RemoverExtraExampleFacts.
Import Remover RemoverAccounting Example.

Lemma target_wraps_below_lower_limit_witness :
  let s := start statsBelowLowerMark twoVBuckets in
  snd (isReductionInCheckpointMemoryNeeded engine s)
  = SizeT.modulus - (300 - 200)
  /\ 200 < snd (isReductionInCheckpointMemoryNeeded engine s).
Proof.
  intros s.
  apply (RemoverExtraFacts.target_wraps_below_lower_limit engine s eq_refl);
    vm_compute; try split; congruence.
Defined.

Lemma reduction_needed_monotone_witness :
  let s := start statsCheckpointTrigger twoVBuckets in
  let s' := start (mkEPStats 940 750 950 800 0 0) twoCursors in
  fst (isReductionInCheckpointMemoryNeeded engine s') = true.
Proof.
  intros s s'.
  apply (RemoverExtraFacts.reduction_needed_monotone engine s s');
    try reflexivity; vm_compute; congruence.
Defined.

Lemma zero_target_recovers_nothing_witness :
  let s := start statsAtLowerMark twoVBuckets in
  run engine s
  = (true, mkTaskState configuration statsAtLowerMark false twoVBuckets
             [EvVisitAsync; EvSnooze]).
Proof.
  intros s.
  rewrite (RemoverExtraFacts.zero_target_recovers_nothing engine s
             eq_refl eq_refl).
  reflexivity.
Defined.

Lemma short_of_target_visits_every_partition_witness :
  let s := start statsCheckpointTrigger twoVBuckets in
  exists tr,
    trace (snd (attemptMemoryRecovery engineAllPresent checkpointExpel 600 s))
    = tr
    /\ visitedVBuckets tr = [0; 1].
Proof.
  intros s.
  destruct (RemoverExtraFacts.short_of_target_visits_every_partition
              engineAllPresent checkpointExpel 600 s)
    as (tr & Htr & Hv).
  - intros w vbid. reflexivity.
  - vm_compute. reflexivity.
  - exists tr. split; [exact Htr|exact Hv].
Defined.

Lemma no_expel_run_is_per_partition_witness :
  let s := mkTaskState configurationNoExpel statsCheckpointTrigger true
             twoVBuckets [] in
  trace (snd (run engine s))
  = trace (snd (perPartitionRecovery engine 600
                  (getVBucketsSortedByChkMgrMem engine twoVBuckets) 0
                  (setAvailable false s)))
    ++ [EvVisitAsync; EvSnooze].
Proof.
  intros s.
  rewrite (RemoverExtraFacts.no_expel_run_is_per_partition engine s
             eq_refl eq_refl eq_refl).
  reflexivity.
Defined.

End RemoverExtraExampleFacts.

(** ** The paging visitor: visit, doEviction, update, complete *)

Module PagingVisitorFacts.
Import PagingVisitor.

Section WithStore.

Context {D IE W : Type} (S : Store D IE W).

Lemma pageOutCalls_app tr1 tr2 :
  pageOutCalls (tr1 ++ tr2) = pageOutCalls tr1 ++ pageOutCalls tr2.
Proof.
  induction tr1 as [|e tr1 IH]; [reflexivity|].
  destruct e; simpl; rewrite IH; reflexivity.
Qed.

Lemma filterAdds_app tr1 tr2 :
  filterAdds (tr1 ++ tr2) = filterAdds tr1 ++ filterAdds tr2.
Proof.
  induction tr1 as [|e tr1 IH]; [reflexivity|].
  destruct e; simpl; rewrite IH; reflexivity.
Qed.

(** The tail of a visit calls neither [pageOut] nor [addToFilter], and
    leaves the counters, the queue of expired items and the world alone. *)
Lemma recordVisit_quiet evicted freq age (s : State D IE W) :
  exists tr,
    trace (recordVisit S evicted freq age s) = trace s ++ tr
    /\ pageOutCalls tr = [] /\ filterAdds tr = []
    /\ ejected (visitor (recordVisit S evicted freq age s))
       = ejected (visitor s)
    /\ expired (visitor (recordVisit S evicted freq age s))
       = expired (visitor s)
    /\ world (recordVisit S evicted freq age s) = world s.
Proof.
  unfold recordVisit.
  destruct evicted; simpl;
    match goal with
    | |- context [if ?b then _ else _] => destruct b
    end;
    try match goal with
        | |- context [getThresholds S ?d ?a ?ie] =>
          destruct (getThresholds S d a ie) as [thresholds ie']
        end;
    simpl; eexists; (split; [rewrite <- ?app_assoc; reflexivity|]);
    repeat split.
Qed.

(** What [doEviction] does, in terms of the call of [pageOut] it makes. *)
Lemma doEviction_effects (v : StoredValue) (s : State D IE W) :
  let pagedOut := fst (fst (pageOut S v (world s))) in
  fst (fst (doEviction S v s)) = pagedOut
  /\ snd (fst (doEviction S v s)) = snd (fst (pageOut S v (world s)))
  /\ trace (snd (doEviction S v s))
     = trace s
       ++ EvPageOut (svKey v) pagedOut
          :: (if pagedOut then
                match getItemEvictionPolicy S (world s) with
                | Full => [EvAddToFilter (svKey v)]
                | Value => []
                end
              else [])
  /\ ejected (visitor (snd (doEviction S v s)))
     = (if pagedOut then SizeT.add (ejected (visitor s)) 1
        else ejected (visitor s))
  /\ expired (visitor (snd (doEviction S v s))) = expired (visitor s).
Proof.
  unfold doEviction.
  destruct (pageOut S v (world s)) as [[pagedOut v1] w1]. simpl.
  destruct pagedOut; simpl; [|repeat split].
  destruct (getItemEvictionPolicy S (world s)); simpl; repeat split.
  now rewrite <- app_assoc.
Qed.

(** The effects of a visit, branch by branch, in one statement the
    properties below are read off. *)
Lemma visit_effects (v : StoredValue) (s : State D IE W) :
  let pagedOut := fst (fst (pageOut S v (world s))) in
  let policy := getItemEvictionPolicy S (world s) in
  fst (fst (visit S v s)) = true
  /\ exists tr,
       trace (snd (visit S v s)) = trace s ++ tr
       /\ pageOutCalls tr
          = (if attemptsEviction S v s then [(svKey v, pagedOut)] else [])
       /\ filterAdds tr
          = (if attemptsEviction S v s && pagedOut then
               match policy with Full => [svKey v] | Value => [] end
             else [])
       /\ ejected (visitor (snd (visit S v s)))
          = (if attemptsEviction S v s && pagedOut
             then SizeT.add (ejected (visitor s)) 1
             else ejected (visitor s))
       /\ expired (visitor (snd (visit S v s)))
          = (if negb (svPending v || svCompleted v) && toBeExpired S v s
             then expired (visitor s) ++ [(v, getId S (world s))]
             else expired (visitor s))
       /\ (negb (svPending v || svCompleted v) && toBeExpired S v s = true ->
           tr = [] /\ snd (fst (visit S v s)) = v
           /\ world (snd (visit S v s)) = world s).
Proof.
  intros pagedOut policy.
  unfold visit, attemptsEviction, reachesEviction.
  destruct (svPending v || svCompleted v); simpl.
  { split; [reflexivity|]. exists []. rewrite app_nil_r.
    repeat split; discriminate. }
  destruct (toBeExpired S v s); simpl.
  { split; [reflexivity|]. exists []. rewrite app_nil_r. repeat split. }
  destruct (notItemPager S (visitor s)); simpl.
  { split; [reflexivity|]. exists []. rewrite app_nil_r.
    repeat split; discriminate. }
  destruct (selectedForEviction (visitor s) (svFreqCounterValue v)
              (itemAge S (maxCas (visitor s)) (svCas v))); simpl.
  - destruct (doEviction_effects v s) as (Hr & _ & Htr & Hej & Hex).
    fold pagedOut policy in Hr, Htr, Hej.
    destruct (doEviction S v s) as [[done v1] s1]. simpl in Hr, Htr, Hej, Hex.
    subst done.
    destruct pagedOut; simpl;
      match goal with
      | |- context [recordVisit S ?e ?f ?a s1] =>
        destruct (recordVisit_quiet e f a s1)
          as (tr & Hq & Hp & Hf & Hqe & Hqx & _)
      end;
      (split; [reflexivity|]);
      eexists; cbn [fst snd];
      (split; [rewrite Hq, Htr, <- app_assoc; reflexivity|]);
      simpl; rewrite ?pageOutCalls_app, ?filterAdds_app, Hp, Hf, Hqe, Hqx,
               Hej, Hex;
      destruct policy; simpl; repeat split; discriminate.
  - destruct (eligibleToPageOut S v (world s)); simpl;
      [destruct (0 <? svFreqCounterValue v)|];
      match goal with
      | |- context [recordVisit S ?e ?f ?a s] =>
        destruct (recordVisit_quiet e f a s)
          as (tr & Hq & Hp & Hf & Hqe & Hqx & _)
      end;
      (split; [reflexivity|]);
      exists tr; cbn [fst snd]; rewrite Hp, Hf, Hqe, Hqx;
      repeat split; try assumption; discriminate.
Qed.

(** X9.  A visit always returns true, so the walk of the hash table goes
    on, and it calls pageOut at most once, on the value it visits, exactly
    when the value is not a prepare, is not queued for expiry, the visitor
    runs for the item pager (percent above zero and a phase given) and the
    frequency counter and the age of the value pass the thresholds. *)
Theorem visit_pages_out_only_selected (v : StoredValue) (s : State D IE W) :
  fst (fst (visit S v s)) = true
  /\ exists tr,
       trace (snd (visit S v s)) = trace s ++ tr
       /\ pageOutCalls tr
          = (if attemptsEviction S v s
             then [(svKey v, fst (fst (pageOut S v (world s))))]
             else []).
Proof.
  destruct (visit_effects v s) as (Hr & tr & Htr & Hp & _).
  split; [exact Hr|]. exists tr. split; assumption.
Qed.

(** X10.  The counters of a visit follow its calls: [ejected] is
    incremented exactly when the visit paged the value out, and the queue of
    expired items grows, by the item of the value, exactly when the value is
    not a prepare and is expired on an active vbucket or temporary.  A value
    queued for expiry is not paged out by the same visit: the visit makes no
    call and leaves the value and the vbucket as they are. *)
Theorem visit_counts_ejected_and_expired (v : StoredValue)
    (s : State D IE W) :
  exists tr,
    trace (snd (visit S v s)) = trace s ++ tr
    /\ ejected (visitor (snd (visit S v s)))
       = (if existsb snd (pageOutCalls tr)
          then SizeT.add (ejected (visitor s)) 1
          else ejected (visitor s))
    /\ expired (visitor (snd (visit S v s)))
       = (if negb (svPending v || svCompleted v) && toBeExpired S v s
          then expired (visitor s) ++ [(v, getId S (world s))]
          else expired (visitor s))
    /\ (negb (svPending v || svCompleted v) && toBeExpired S v s = true ->
        tr = [] /\ snd (fst (visit S v s)) = v
        /\ world (snd (visit S v s)) = world s).
Proof.
  destruct (visit_effects v s) as (_ & tr & Htr & Hp & _ & Hej & Hex & Hquiet).
  exists tr. split; [exact Htr|]. split; [|split; assumption].
  rewrite Hej, Hp.
  destruct (attemptsEviction S v s); simpl; [|reflexivity].
  now rewrite orb_false_r.
Qed.

(** X11.  Under full eviction the bloom filter is given the key of every
    value a visit pages out, and no other key; under value eviction a visit
    adds nothing to it.  The policy is the one read before the page-out. *)
Theorem visit_filter_gets_ejected_keys (v : StoredValue) (s : State D IE W) :
  exists tr,
    trace (snd (visit S v s)) = trace s ++ tr
    /\ filterAdds tr
       = match getItemEvictionPolicy S (world s) with
         | Full => map fst (filter snd (pageOutCalls tr))
         | Value => []
         end.
Proof.
  destruct (visit_effects v s) as (_ & tr & Htr & Hp & Hf & _).
  exists tr. split; [exact Htr|]. rewrite Hf, Hp.
  destruct (attemptsEviction S v s); simpl.
  - destruct (fst (fst (pageOut S v (world s)))); simpl;
      destruct (getItemEvictionPolicy S (world s)); reflexivity.
  - destruct (getItemEvictionPolicy S (world s)); reflexivity.
Qed.

(** X12.  A visit that does not attempt eviction changes the value only by
    the decay of its frequency counter: the counter goes down by one when the
    visit reached the eviction test, the value is eligible to be paged out
    and the counter is above zero, and the value is untouched otherwise; a
    counter that is not negative never becomes negative and never grows. *)
Theorem visit_decays_frequency_counter (v : StoredValue) (s : State D IE W) :
  attemptsEviction S v s = false ->
  snd (fst (visit S v s))
  = (if reachesEviction S v s && eligibleToPageOut S v (world s)
        && (0 <? svFreqCounterValue v)
     then setFreqCounterValue (svFreqCounterValue v - 1) v
     else v)
  /\ (0 <= svFreqCounterValue v ->
      0 <= svFreqCounterValue (snd (fst (visit S v s)))
        <= svFreqCounterValue v).
Proof.
  intros Hno.
  assert (Hv : snd (fst (visit S v s))
               = (if reachesEviction S v s && eligibleToPageOut S v (world s)
                     && (0 <? svFreqCounterValue v)
                  then setFreqCounterValue (svFreqCounterValue v - 1) v
                  else v)).
  { unfold attemptsEviction in Hno. unfold visit, reachesEviction in *.
    destruct (svPending v || svCompleted v); simpl in *; [reflexivity|].
    destruct (toBeExpired S v s); simpl in *; [reflexivity|].
    destruct (notItemPager S (visitor s)); simpl in *; [reflexivity|].
    rewrite Hno.
    destruct (eligibleToPageOut S v (world s)); simpl; [|reflexivity].
    destruct (0 <? svFreqCounterValue v); reflexivity. }
  split; [exact Hv|].
  intros Hpos. rewrite Hv.
  destruct (reachesEviction S v s && eligibleToPageOut S v (world s));
    simpl; [|lia].
  destruct (Z.ltb_spec 0 (svFreqCounterValue v)); simpl; lia.
Qed.

(** X13.  The age of a value is never negative and never wraps: a value
    whose cas is at or above maxCas has age zero, the age is at most maxCas
    shifted right by casBitsNotTime, and a value with a higher cas is never
    older. *)
Theorem itemAge_bounds (maxCasValue cas : Z) :
  SizeT.in_range maxCasValue -> 0 <= cas -> 0 <= casBitsNotTime S ->
  0 <= itemAge S maxCasValue cas <= maxCasValue / 2 ^ casBitsNotTime S
  /\ (maxCasValue <= cas -> itemAge S maxCasValue cas = 0)
  /\ (forall cas', cas <= cas' ->
        itemAge S maxCasValue cas' <= itemAge S maxCasValue cas).
Proof.
  intros Hmax Hcas Hbits.
  assert (Hpow : 0 < 2 ^ casBitsNotTime S) by (apply Z.pow_pos_nonneg; lia).
  assert (Hage : forall c, 0 <= c ->
            itemAge S maxCasValue c
            = (if c <? maxCasValue then maxCasValue - c else 0)
              / 2 ^ casBitsNotTime S).
  { intros c Hc. unfold itemAge. rewrite Z.shiftr_div_pow2 by exact Hbits.
    destruct (Z.ltb_spec c maxCasValue); [|reflexivity].
    rewrite SizeTFacts.sub_exact by (try assumption; lia). reflexivity. }
  unfold SizeT.in_range in Hmax.
  split; [|split].
  - rewrite Hage by exact Hcas.
    destruct (Z.ltb_spec cas maxCasValue).
    + split; [apply Z.div_pos; lia|apply Z.div_le_mono; lia].
    + rewrite Z.div_0_l by lia. split; [lia|apply Z.div_pos; lia].
  - intros Hge. rewrite Hage by exact Hcas.
    destruct (Z.ltb_spec cas maxCasValue); [lia|]. apply Z.div_0_l. lia.
  - intros cas' Hle. rewrite !Hage by lia.
    destruct (Z.ltb_spec cas' maxCasValue);
      destruct (Z.ltb_spec cas maxCasValue); try lia.
    + apply Z.div_le_mono; lia.
    + rewrite Z.div_0_l by lia. apply Z.div_pos; lia.
Qed.

(** *** update and complete *)

Lemma deletedExpired_app tr1 tr2 :
  deletedExpired (tr1 ++ tr2) = deletedExpired tr1 ++ deletedExpired tr2.
Proof.
  induction tr1 as [|e tr1 IH]; [reflexivity|].
  destruct e; simpl; rewrite IH; reflexivity.
Qed.

(** The visitor after [complete]: the counters cleared, the finalizer set,
    the phase advanced. *)
Lemma complete_visitor (s : State D IE W) :
  visitor (complete S s)
  = mkVisitor 0 (freqCounterThreshold (visitor s)) (ageThreshold (visitor s))
      (percent (visitor s)) (startTime (visitor s)) true (owner (visitor s))
      (isBelowLowWaterMark (visitor s)) (wasHighMemoryUsage (visitor s))
      match pager_phase (visitor s) with
      | Some p =>
        if negb (isBelowLowWaterMark (visitor s))
        then Some (nextPhase (isEphemeral (visitor s)) p)
        else Some p
      | None => None
      end
      (isEphemeral (visitor s)) (agePercentage (visitor s))
      (freqCounterAgeThreshold (visitor s)) (maxCas (visitor s)) []
      (itemEviction (visitor s)).
Proof.
  destruct s as [vs w tr]. destruct vs. unfold complete, update. simpl.
  repeat match goal with
         | |- context [if ?b then _ else _] => destruct b; simpl
         | |- context [match ?o with Some _ => _ | None => _ end] =>
           destruct o; simpl
         | |- context [match ?o with ITEM_PAGER => _ | EXPIRY_PAGER => _ end] =>
           destruct o; simpl
         end;
    reflexivity.
Qed.

Lemma complete_trace (s : State D IE W) :
  exists tr,
    trace (complete S s)
    = trace s ++ EvDeleteExpiredItems (expired (visitor s)) :: tr
    /\ deletedExpired tr = [].
Proof.
  destruct s as [vs w tr]. destruct vs. unfold complete, update. simpl.
  repeat match goal with
         | |- context [if ?b then _ else _] => destruct b; simpl
         | |- context [match ?o with Some _ => _ | None => _ end] =>
           destruct o; simpl
         | |- context [match ?o with ITEM_PAGER => _ | EXPIRY_PAGER => _ end] =>
           destruct o; simpl
         end;
    eexists; (split; [rewrite <- ?app_assoc; reflexivity|]); reflexivity.
Qed.

(** X14.  Completing item-pager runs alternate the phase of a persistent
    bucket between REPLICA_ONLY and ACTIVE_AND_PENDING_ONLY, so two
    completions bring the phase back; an ephemeral bucket is left in
    ACTIVE_AND_PENDING_ONLY for good; and a visitor that found the memory
    below the low watermark leaves the phase as it is. *)
Theorem complete_alternates_phases (s : State D IE W) (p : item_pager_phase) :
  pager_phase (visitor s) = Some p ->
  (isBelowLowWaterMark (visitor s) = false ->
   isEphemeral (visitor s) = false ->
   pager_phase (visitor (complete S s)) <> Some p
   /\ pager_phase (visitor (complete S (complete S s))) = Some p)
  /\ (isBelowLowWaterMark (visitor s) = false ->
      isEphemeral (visitor s) = true ->
      pager_phase (visitor (complete S s)) = Some ACTIVE_AND_PENDING_ONLY
      /\ pager_phase (visitor (complete S (complete S s)))
         = Some ACTIVE_AND_PENDING_ONLY)
  /\ (isBelowLowWaterMark (visitor s) = true ->
      pager_phase (visitor (complete S s)) = Some p).
Proof.
  intros Hp. rewrite (complete_visitor (complete S s)), !complete_visitor.
  simpl. rewrite Hp.
  split; [|split].
  - intros -> ->. simpl. destruct p; simpl; split; congruence.
  - intros -> ->. simpl. destruct p; simpl; split; reflexivity.
  - intros ->. reflexivity.
Qed.

(** X15.  A completion always leaves the finalizer set, whatever it was,
    and hands the queued expired items to deleteExpiredItems exactly once:
    the queue is empty and [ejected] is zero afterwards, and a completion
    that follows hands over an empty list. *)
Theorem complete_signals_and_hands_over_once (s : State D IE W) :
  stateFinalizer (visitor (complete S s)) = true
  /\ expired (visitor (complete S s)) = []
  /\ ejected (visitor (complete S s)) = 0
  /\ (exists tr,
        trace (complete S s) = trace s ++ tr
        /\ deletedExpired tr = [expired (visitor s)])
  /\ (exists tr,
        trace (complete S (complete S s)) = trace (complete S s) ++ tr
        /\ deletedExpired tr = [[]]).
Proof.
  rewrite complete_visitor. simpl. repeat split.
  - destruct (complete_trace s) as (tr & Htr & Hd).
    eexists. split; [exact Htr|]. simpl. now rewrite Hd.
  - destruct (complete_trace (complete S s)) as (tr & Htr & Hd).
    eexists. split; [exact Htr|]. simpl. rewrite Hd, complete_visitor.
    reflexivity.
Qed.

(** X16.  An item a visit queues for expiry reaches the store with the next
    update, after the items queued before it, and the update empties the
    queue. *)
Theorem queued_item_reaches_store (v : StoredValue) (s : State D IE W) :
  svPending v || svCompleted v = false ->
  toBeExpired S v s = true ->
  trace (update S (snd (visit S v s)))
  = trace s
    ++ [EvDeleteExpiredItems (expired (visitor s) ++ [(v, getId S (world s))])]
  /\ world (update S (snd (visit S v s)))
     = deleteExpiredItems S (expired (visitor s) ++ [(v, getId S (world s))])
                          (world s)
  /\ expired (visitor (update S (snd (visit S v s)))) = [].
Proof.
  intros Hnp Hexp. unfold visit. rewrite Hnp, Hexp. repeat split.
Qed.

End WithStore.
End PagingVisitorFacts.

Module PagingVisitorExampleFacts.
Import PagingVisitor PagingExample.

Lemma visit_counts_ejected_and_expired_witness :
  expired (visitor (snd (visit store expiredValue start)))
  = [(value "old" 0 0, 0); (expiredValue, 0)]
  /\ snd (fst (visit store expiredValue start)) = expiredValue
  /\ world (snd (visit store expiredValue start)) = fullEviction.
Proof.
  destruct (PagingVisitorFacts.visit_counts_ejected_and_expired
              store expiredValue start)
    as (tr & _ & _ & Hex & Hquiet).
  destruct (Hquiet eq_refl) as (_ & Hv & Hw).
  split; [exact Hex|]. split; [exact Hv|exact Hw].
Defined.

Lemma visit_decays_frequency_counter_witness :
  snd (fst (visit store (value "a" 9 0) start)) = value "a" 8 0
  /\ 0 <= svFreqCounterValue (snd (fst (visit store (value "a" 9 0) start)))
       <= 9.
Proof.
  destruct (PagingVisitorFacts.visit_decays_frequency_counter
              store (value "a" 9 0) start eq_refl) as [Hv Hbound].
  split; [exact Hv|]. apply Hbound. simpl. lia.
Defined.

Lemma itemAge_bounds_witness :
  0 <= itemAge store (Z.shiftl 10 16) 0 <= Z.shiftl 10 16 / 2 ^ 16
  /\ (Z.shiftl 10 16 <= 0 -> itemAge store (Z.shiftl 10 16) 0 = 0)
  /\ (forall cas', 0 <= cas' ->
        itemAge store (Z.shiftl 10 16) cas' <= itemAge store (Z.shiftl 10 16) 0).
Proof.
  apply (PagingVisitorFacts.itemAge_bounds store (Z.shiftl 10 16) 0).
  - vm_compute. split; congruence.
  - lia.
  - simpl. lia.
Defined.

Lemma complete_alternates_phases_witness :
  pager_phase (visitor (complete store (complete store start)))
  = Some REPLICA_ONLY
  /\ pager_phase
       (visitor (complete store (mkState ephemeralPager fullEviction [])))
     = Some ACTIVE_AND_PENDING_ONLY
  /\ pager_phase
       (visitor (complete store (mkState belowLowWaterMark fullEviction [])))
     = Some REPLICA_ONLY.
Proof.
  destruct (PagingVisitorFacts.complete_alternates_phases
              store start REPLICA_ONLY eq_refl) as (H1 & _ & _).
  destruct (PagingVisitorFacts.complete_alternates_phases
              store (mkState ephemeralPager fullEviction []) REPLICA_ONLY
              eq_refl) as (_ & H2 & _).
  destruct (PagingVisitorFacts.complete_alternates_phases
              store (mkState belowLowWaterMark fullEviction []) REPLICA_ONLY
              eq_refl) as (_ & _ & H3).
  split; [exact (proj2 (H1 eq_refl eq_refl))|].
  split; [exact (proj1 (H2 eq_refl eq_refl))|exact (H3 eq_refl)].
Defined.

Lemma queued_item_reaches_store_witness :
  trace (update store (snd (visit store expiredValue start)))
  = [EvDeleteExpiredItems [(value "old" 0 0, 0); (expiredValue, 0)]]
  /\ wExpired (world (update store (snd (visit store expiredValue start))))
     = [(value "old" 0 0, 0); (expiredValue, 0)].
Proof.
  destruct (PagingVisitorFacts.queued_item_reaches_store
              store expiredValue start eq_refl eq_refl) as (Htr & Hw & _).
  split; [exact Htr|]. rewrite Hw. reflexivity.
Defined.

End PagingVisitorExampleFacts.

(** ** The durability completion task *)

Module DurabilityCompletionTaskFacts.
Import DurabilityCompletionTask.

Lemma length_storeAt i b l : List.length (storeAt i b l) = List.length l.
Proof.
  revert i. induction l as [|x l IH]; intros i; [now destruct i|].
  destruct i; simpl; [reflexivity|]. now rewrite IH.
Qed.

Lemma nth_storeAt_same i b l :
  (i < List.length l)%nat -> nth i (storeAt i b l) false = b.
Proof.
  revert i. induction l as [|x l IH]; intros i Hi; simpl in Hi; [lia|].
  destruct i; simpl; [reflexivity|]. apply IH. lia.
Qed.

Lemma nth_storeAt_other i j b l :
  i <> j -> nth i (storeAt j b l) false = nth i l false.
Proof.
  revert i j. induction l as [|x l IH]; intros i j Hij.
  - destruct i, j; reflexivity.
  - destruct j; destruct i; simpl; try reflexivity; try lia.
    apply IH. lia.
Qed.

Lemma wakes_app tr1 tr2 : wakes (tr1 ++ tr2) = (wakes tr1 + wakes tr2)%nat.
Proof.
  induction tr1 as [|e tr1 IH]; [reflexivity|].
  destruct e; simpl; rewrite IH; reflexivity.
Qed.

Section WithEngine.

Context {W : Type} (E : Engine W).

(** *** One vbucket of the loop *)

Lemma processPending_fields (s : Task W) :
  vbid (processPending E s) = vbid s
  /\ wakeUpScheduled (processPending E s) = wakeUpScheduled s
  /\ List.length (pendingVBs (processPending E s))
     = List.length (pendingVBs s)
  /\ (forall i, i <> vbid s ->
        nth i (pendingVBs (processPending E s)) false
        = nth i (pendingVBs s) false)
  /\ ((vbid s < List.length (pendingVBs s))%nat ->
      nth (vbid s) (pendingVBs (processPending E s)) false = false).
Proof.
  unfold processPending.
  destruct (nth (vbid s) (pendingVBs s) false) eqn:Hflag.
  - simpl.
    destruct (getVBucket E (world s) (vbid s)); simpl;
      rewrite length_storeAt; repeat split;
      try (intros i Hi; now apply nth_storeAt_other);
      try (intros Hin; now apply nth_storeAt_same).
  - repeat split. intros _. exact Hflag.
Qed.

Lemma processPending_trace (s : Task W) :
  trace (processPending E s)
  = trace s
    ++ (if nth (vbid s) (pendingVBs s) false && getVBucket E (world s) (vbid s)
        then [EvProcessResolvedSyncWrites (vbid s)] else []).
Proof.
  unfold processPending.
  destruct (nth (vbid s) (pendingVBs s) false); simpl;
    [|now rewrite app_nil_r].
  destruct (getVBucket E (world s) (vbid s)); simpl;
    [reflexivity|now rewrite app_nil_r].
Qed.

(** *** The loop *)

(** What the loop keeps whatever the clock says: the vector keeps its
    length, [vbid] stays an index, no flag is set, only vbuckets whose flag
    was set are processed, and the loop ends with every flag clear or with a
    wakeUp as its last call. *)
Lemma sweep_invariant remaining startTime :
  forall s : Task W,
    (vbid s < List.length (pendingVBs s))%nat ->
    (forall i, nth i (pendingVBs s) false = true ->
       exists j, (j < remaining)%nat
                 /\ i = Nat.modulo (vbid s + j) (List.length (pendingVBs s))) ->
    let s' := sweep E remaining startTime s in
    List.length (pendingVBs s') = List.length (pendingVBs s)
    /\ (vbid s' < List.length (pendingVBs s'))%nat
    /\ wakeUpScheduled s' = wakeUpScheduled s
    /\ (forall i, nth i (pendingVBs s') false = true ->
          nth i (pendingVBs s) false = true)
    /\ exists tr,
         trace s' = trace s ++ tr
         /\ wakes tr = O
         /\ (forall i, In (EvProcessResolvedSyncWrites i) tr ->
               nth i (pendingVBs s) false = true)
         /\ (Forall (fun b => b = false) (pendingVBs s')
             \/ last tr EvSnooze = EvWakeUp).
Proof.
  induction remaining as [|n IH]; intros s Hin Hcov s'.
  - subst s'. simpl. repeat split; auto.
    exists []. rewrite app_nil_r. repeat split; try (intros i []).
    left. apply Forall_forall. intros b Hb.
    destruct b; [|reflexivity].
    apply In_nth with (d := false) in Hb. destruct Hb as (i & _ & Hi).
    destruct (Hcov i Hi) as (j & Hj & _). lia.
  - subst s'. simpl.
    destruct (processPending_fields s) as (Hv & Hw & Hl & Hother & Hsame).
    pose proof (processPending_trace s) as Htr1.
    set (s1 := processPending E s) in *.
    destruct (now E (world s1)) as [t w1].
    destruct (maxChunkDuration E <? t - startTime).
    + simpl. rewrite Hl, Hv, Hw. repeat split; auto.
      * intros i Hi. destruct (Nat.eq_dec i (vbid s)) as [->|Hne].
        -- rewrite Hsame in Hi by exact Hin. discriminate.
        -- now rewrite <- Hother.
      * eexists. split; [rewrite Htr1, <- app_assoc; reflexivity|].
        split; [|split].
        -- rewrite wakes_app.
           destruct (nth (vbid s) (pendingVBs s) false
                     && getVBucket E (world s) (vbid s)); reflexivity.
        -- intros i Hi. apply in_app_or in Hi. destruct Hi as [Hi|[Hi|[]]];
             [|discriminate].
           destruct (nth (vbid s) (pendingVBs s) false) eqn:Hflag;
             simpl in Hi; [|destruct Hi].
           destruct (getVBucket E (world s) (vbid s)); simpl in Hi;
             [|destruct Hi].
           destruct Hi as [Hi|[]]. inversion Hi; subst. exact Hflag.
        -- right. apply last_last.
    + match goal with
      | |- context [sweep E n startTime ?st] =>
        specialize (IH st); set (s3 := st) in *
      end.
      assert (Hlen3 : List.length (pendingVBs s3) = List.length (pendingVBs s))
        by (subst s3; simpl; exact Hl).
      assert (Hv3 : vbid s3
                    = Nat.modulo (vbid s + 1) (List.length (pendingVBs s)))
        by (subst s3; simpl; now rewrite Hv, Hl).
      assert (Hp3 : pendingVBs s3 = pendingVBs s1) by reflexivity.
      destruct IH as (Hl' & Hin' & Hw' & Hclr & tr & Htr & Hwk & Hproc & Hend).
      * rewrite Hlen3, Hv3. apply Nat.mod_upper_bound. lia.
      * intros i Hi. rewrite Hp3 in Hi.
        destruct (Nat.eq_dec i (vbid s)) as [->|Hne].
        { rewrite Hsame in Hi by exact Hin. discriminate. }
        rewrite Hother in Hi by exact Hne.
        destruct (Hcov i Hi) as (j & Hj & Hij).
        destruct j as [|j].
        { rewrite Nat.add_0_r, Nat.mod_small in Hij by exact Hin. lia. }
        exists j. split; [lia|].
        rewrite Hlen3, Hv3, Nat.Div0.add_mod_idemp_l, Hij. f_equal. lia.
      * rewrite Hl', Hlen3. split; [reflexivity|].
        split; [now rewrite Hl', Hlen3 in Hin'|].
        split; [rewrite Hw'; subst s3; simpl; exact Hw|].
        split.
        -- intros i Hi. apply Hclr in Hi. rewrite Hp3 in Hi.
           destruct (Nat.eq_dec i (vbid s)) as [->|Hne].
           ++ rewrite Hsame in Hi by exact Hin. discriminate.
           ++ now rewrite <- Hother.
        -- eexists. split; [rewrite Htr; subst s3; simpl; rewrite Htr1,
                             <- app_assoc; reflexivity|].
           split; [|split].
           ++ rewrite wakes_app, Hwk.
              destruct (nth (vbid s) (pendingVBs s) false
                        && getVBucket E (world s) (vbid s)); reflexivity.
           ++ intros i Hi. apply in_app_or in Hi. destruct Hi as [Hi|Hi].
              ** destruct (nth (vbid s) (pendingVBs s) false) eqn:Hflag;
                   simpl in Hi; [|destruct Hi].
                 destruct (getVBucket E (world s) (vbid s)); simpl in Hi;
                   [|destruct Hi].
                 destruct Hi as [Hi|[]]. inversion Hi; subst. exact Hflag.
              ** apply Hproc in Hi. rewrite Hp3 in Hi.
                 destruct (Nat.eq_dec i (vbid s)) as [->|Hne].
                 --- rewrite Hsame in Hi by exact Hin. discriminate.
                 --- now rewrite <- Hother.
           ++ destruct Hend as [Hall|Hlast]; [left; exact Hall|right].
              destruct tr as [|e tr]; [discriminate|].
              destruct (nth (vbid s) (pendingVBs s) false
                        && getVBucket E (world s) (vbid s)); simpl;
                [|exact Hlast].
              exact Hlast.
Qed.

Lemma every_flag_in_window (l : list bool) v i :
  (v < List.length l)%nat ->
  nth i l false = true ->
  exists j, (j < List.length l)%nat
            /\ i = Nat.modulo (v + j) (List.length l).
Proof.
  intros Hv Hi.
  assert (Hlt : (i < List.length l)%nat).
  { destruct (Nat.lt_ge_cases i (List.length l)) as [H|H]; [exact H|].
    rewrite nth_overflow in Hi by exact H. discriminate. }
  exists (Nat.modulo (i + List.length l - v) (List.length l)). split.
  - apply Nat.mod_upper_bound. lia.
  - rewrite Nat.Div0.add_mod_idemp_r.
    replace (v + (i + List.length l - v))%nat
      with (i + 1 * List.length l)%nat by lia.
    rewrite Nat.Div0.mod_add. symmetry. now apply Nat.mod_small.
Qed.

Lemma run_invariant (s : Task W) :
  isShutdown E (world s) = false ->
  (vbid s < List.length (pendingVBs s))%nat ->
  let s' := snd (run E s) in
  List.length (pendingVBs s') = List.length (pendingVBs s)
  /\ (vbid s' < List.length (pendingVBs s'))%nat
  /\ wakeUpScheduled s' = false
  /\ (forall i, nth i (pendingVBs s') false = true ->
        nth i (pendingVBs s) false = true)
  /\ exists tr,
       trace s' = trace s ++ EvSnooze :: tr
       /\ wakes tr = O
       /\ (forall i, In (EvProcessResolvedSyncWrites i) tr ->
             nth i (pendingVBs s) false = true)
       /\ (Forall (fun b => b = false) (pendingVBs s')
           \/ last tr EvSnooze = EvWakeUp).
Proof.
  intros Hup Hin. unfold run. rewrite Hup. simpl.
  destruct (now E (world s)) as [startTime w1]. simpl.
  match goal with
  | |- context [sweep E ?n startTime ?st] =>
    destruct (sweep_invariant n startTime st) as
      (Hl & Hv & Hw & Hclr & tr & Htr & Hwk & Hproc & Hend)
  end.
  - exact Hin.
  - intros i Hi. simpl in *. now apply every_flag_in_window.
  - simpl in *. repeat split; try assumption.
    exists tr. rewrite Htr, <- app_assoc. repeat split; assumption.
Qed.

(** X17.  A run of the durability completion task never sets a pending
    flag and processes the resolved SyncWrites only of vbuckets whose flag
    was set when it began; the vector keeps its length and [vbid] stays an
    index into it. *)
Theorem run_only_clears_and_processes_pending (s : Task W) :
  isShutdown E (world s) = false ->
  (vbid s < List.length (pendingVBs s))%nat ->
  List.length (pendingVBs (snd (run E s))) = List.length (pendingVBs s)
  /\ (vbid (snd (run E s)) < List.length (pendingVBs (snd (run E s))))%nat
  /\ (forall i, nth i (pendingVBs (snd (run E s))) false = true ->
        nth i (pendingVBs s) false = true)
  /\ exists tr,
       trace (snd (run E s)) = trace s ++ tr
       /\ forall i, In (EvProcessResolvedSyncWrites i) tr ->
            nth i (pendingVBs s) false = true.
Proof.
  intros Hup Hin.
  destruct (run_invariant s Hup Hin)
    as (Hl & Hv & _ & Hclr & tr & Htr & _ & Hproc & _).
  repeat split; try assumption.
  exists (EvSnooze :: tr). split; [exact Htr|].
  intros i [Hi|Hi]; [discriminate|now apply Hproc].
Qed.

(** X18.  A run that finds the engine shutting down returns false and
    changes nothing.  Any other run returns true, begins with the snooze and
    leaves wakeUpScheduled clear, and no pending vbucket is left without a
    run to come: when the run returns, either every pending flag is clear or
    the last thing the run did was to call wakeUp(). *)
Theorem run_clears_or_rewakes (s : Task W) :
  (isShutdown E (world s) = true -> run E s = (false, s))
  /\ (isShutdown E (world s) = false ->
      (vbid s < List.length (pendingVBs s))%nat ->
      fst (run E s) = true
      /\ wakeUpScheduled (snd (run E s)) = false
      /\ exists tr,
           trace (snd (run E s)) = trace s ++ EvSnooze :: tr
           /\ (Forall (fun b => b = false) (pendingVBs (snd (run E s)))
               \/ last tr EvSnooze = EvWakeUp)).
Proof.
  split.
  - intros Hdown. unfold run. rewrite Hdown. reflexivity.
  - intros Hup Hin.
    destruct (run_invariant s Hup Hin)
      as (_ & _ & Hw & _ & tr & Htr & _ & _ & Hend).
    split.
    { unfold run. rewrite Hup. simpl.
      destruct (now E (world s)). reflexivity. }
    split; [exact Hw|].
    exists tr. split; [exact Htr|exact Hend].
Qed.

(** *** A run the clock does not cut short *)

Lemma sweep_trace_extends remaining startTime :
  forall s : Task W,
  exists tr, trace (sweep E remaining startTime s) = trace s ++ tr.
Proof.
  induction remaining as [|n IH]; intros s.
  - exists []. simpl. now rewrite app_nil_r.
  - simpl. pose proof (processPending_trace s) as Htr1.
    destruct (now E (world (processPending E s))) as [t w1].
    destruct (maxChunkDuration E <? t - startTime).
    + eexists. simpl. rewrite Htr1, <- app_assoc. reflexivity.
    + match goal with
      | |- context [sweep E n startTime ?st] =>
        destruct (IH st) as [tr Htr]
      end.
      eexists. rewrite Htr. simpl. rewrite Htr1, <- app_assoc. reflexivity.
Qed.

Lemma last_In {A : Type} (l : list A) (d : A) : l <> [] -> In (last l d) l.
Proof.
  induction l as [|x l IH]; [congruence|]. intros _.
  destruct l as [|y l]; [left; reflexivity|].
  right. apply IH. discriminate.
Qed.

Lemma sweep_not_cut_short remaining startTime :
  forall s : Task W,
    (vbid s < List.length (pendingVBs s))%nat ->
    (forall tr,
       trace (sweep E remaining startTime s) = trace s ++ tr ->
       ~ In EvWakeUp tr) ->
    vbid (sweep E remaining startTime s)
    = Nat.modulo (vbid s + remaining) (List.length (pendingVBs s)).
Proof.
  induction remaining as [|n IH]; intros s Hin.
  - intros _. simpl. now rewrite Nat.add_0_r, Nat.mod_small.
  - simpl.
    destruct (processPending_fields s) as (Hv & _ & Hl & _ & _).
    pose proof (processPending_trace s) as Htr1.
    destruct (now E (world (processPending E s))) as [t w1].
    destruct (maxChunkDuration E <? t - startTime); intros Hno.
    + exfalso. eapply Hno.
      * simpl. rewrite Htr1, <- app_assoc. reflexivity.
      * apply in_or_app. right. left. reflexivity.
    + match goal with
      | |- context [sweep E n startTime ?st] =>
        specialize (IH st); set (s3 := st) in *
      end.
      assert (Ht3 : trace s3 = trace (processPending E s)) by reflexivity.
      rewrite IH.
      * subst s3. simpl. rewrite Hl, Hv, Nat.Div0.add_mod_idemp_l.
        f_equal. lia.
      * subst s3. simpl. rewrite Hl. apply Nat.mod_upper_bound. lia.
      * intros tr Htr Hw. eapply Hno.
        -- rewrite Htr, Ht3, Htr1, <- app_assoc. reflexivity.
        -- apply in_or_app. right. exact Hw.
Qed.

(** X19.  A run the clock does not cut short, one that is not shut down and
    returns without having called wakeUp(), has been round the whole vector:
    every pending flag is clear afterwards and [vbid] is back where it
    started. *)
Theorem uninterrupted_run_sweeps_every_vbucket (s : Task W) :
  isShutdown E (world s) = false ->
  (vbid s < List.length (pendingVBs s))%nat ->
  (forall tr, trace (snd (run E s)) = trace s ++ tr -> ~ In EvWakeUp tr) ->
  Forall (fun b => b = false) (pendingVBs (snd (run E s)))
  /\ vbid (snd (run E s)) = vbid s.
Proof.
  intros Hup Hin Hno.
  destruct (run_invariant s Hup Hin)
    as (_ & _ & _ & _ & tr & Htr & _ & _ & Hend).
  split.
  - destruct Hend as [Hall|Hlast]; [exact Hall|].
    exfalso. apply (Hno _ Htr). right.
    rewrite <- Hlast. apply last_In. intros ->. discriminate.
  - revert Hno. unfold run. rewrite Hup. simpl.
    destruct (now E (world s)) as [startTime w1]. simpl. intros Hno.
    rewrite sweep_not_cut_short.
    + simpl.
      replace (vbid s + List.length (pendingVBs s))%nat
        with (vbid s + 1 * List.length (pendingVBs s))%nat by lia.
      rewrite Nat.Div0.mod_add. now apply Nat.mod_small.
    + exact Hin.
    + simpl. intros tr' Htr' Hw. eapply Hno.
      * rewrite Htr', <- app_assoc. reflexivity.
      * apply in_or_app. right. exact Hw.
Qed.

(** *** A pending vbucket is processed or still pending *)

Lemma sweep_pending_or_processed remaining startTime (v : nat) :
  (forall w, getVBucket E w v = true) ->
  forall s : Task W,
    (vbid s < List.length (pendingVBs s))%nat ->
    nth v (pendingVBs s) false = true ->
    (exists j, (j < remaining)%nat
               /\ v = Nat.modulo (vbid s + j) (List.length (pendingVBs s))) ->
    exists tr,
      trace (sweep E remaining startTime s) = trace s ++ tr
      /\ (In (EvProcessResolvedSyncWrites v) tr
          \/ (nth v (pendingVBs (sweep E remaining startTime s)) false = true
              /\ last tr EvSnooze = EvWakeUp)).
Proof.
  intros Hthere.
  induction remaining as [|n IH]; intros s Hin Hflag (j & Hj & Hv); [lia|].
  simpl.
  destruct (processPending_fields s) as (Hvb & _ & Hl & Hother & _).
  pose proof (processPending_trace s) as Htr1.
  destruct (now E (world (processPending E s))) as [t w1].
  destruct (maxChunkDuration E <? t - startTime).
  - eexists. split; [simpl; rewrite Htr1, <- app_assoc; reflexivity|].
    destruct (Nat.eq_dec v (vbid s)) as [->|Hne].
    + left. rewrite Hflag, Hthere. simpl. left. reflexivity.
    + right. simpl. split; [now rewrite Hother|]. apply last_last.
  - match goal with
    | |- context [sweep E n startTime ?st] =>
      specialize (IH st); set (s3 := st) in *
    end.
    assert (Ht3 : trace s3 = trace (processPending E s)) by reflexivity.
    destruct (Nat.eq_dec v (vbid s)) as [->|Hne].
    + destruct (sweep_trace_extends n startTime s3) as [tr3 Htr3].
      eexists. split; [rewrite Htr3, Ht3, Htr1, <- app_assoc; reflexivity|].
      left. rewrite Hflag, Hthere. simpl. left. reflexivity.
    + destruct IH as (tr3 & Htr3 & Hcase).
      * subst s3. simpl. rewrite Hl. apply Nat.mod_upper_bound. lia.
      * subst s3. simpl. now rewrite Hother.
      * destruct j as [|j].
        { rewrite Nat.add_0_r, Nat.mod_small in Hv by exact Hin. lia. }
        exists j. split; [lia|].
        subst s3. simpl. rewrite Hl, Hvb, Nat.Div0.add_mod_idemp_l, Hv.
        f_equal. lia.
      * eexists. split; [rewrite Htr3, Ht3, Htr1, <- app_assoc; reflexivity|].
        destruct Hcase as [Hproc|[Hstill Hlast]].
        -- left. apply in_or_app. right. exact Hproc.
        -- right. split; [exact Hstill|].
           destruct tr3 as [|e tr3]; [discriminate|].
           destruct (nth (vbid s) (pendingVBs s) false
                     && getVBucket E (world s) (vbid s)); simpl;
             exact Hlast.
Qed.

Lemma run_pending_or_processed (s : Task W) (v : nat) :
  isShutdown E (world s) = false ->
  (vbid s < List.length (pendingVBs s))%nat ->
  (forall w, getVBucket E w v = true) ->
  nth v (pendingVBs s) false = true ->
  exists tr,
    trace (snd (run E s)) = trace s ++ EvSnooze :: tr
    /\ (In (EvProcessResolvedSyncWrites v) tr
        \/ (nth v (pendingVBs (snd (run E s))) false = true
            /\ last tr EvSnooze = EvWakeUp)).
Proof.
  intros Hup Hin Hthere Hflag.
  unfold run. rewrite Hup. simpl.
  destruct (now E (world s)) as [startTime w1]. simpl.
  match goal with
  | |- context [sweep E ?n startTime ?st] =>
    destruct (sweep_pending_or_processed n startTime v Hthere st)
      as (tr & Htr & Hcase)
  end.
  - exact Hin.
  - exact Hflag.
  - simpl. now apply every_flag_in_window.
  - exists tr. split; [|exact Hcase].
    rewrite Htr. simpl. rewrite <- app_assoc. reflexivity.
Qed.

(** *** Notifications *)

Lemma notify_fields (v : nat) (s : Task W) :
  let s' := notifySyncWritesToComplete v s in
  vbid s' = vbid s /\ world s' = world s
  /\ List.length (pendingVBs s') = List.length (pendingVBs s)
  /\ ((v < List.length (pendingVBs s))%nat ->
      nth v (pendingVBs s') false = true)
  /\ (forall i, nth i (pendingVBs s) false = true ->
        nth i (pendingVBs s') false = true)
  /\ wakeUpScheduled s'
     = (wakeUpScheduled s || negb (nth v (pendingVBs s) false))
  /\ trace s'
     = trace s
       ++ (if negb (nth v (pendingVBs s) false) && negb (wakeUpScheduled s)
           then [EvExecutorPoolWake] else []).
Proof.
  unfold notifySyncWritesToComplete.
  destruct (nth v (pendingVBs s) false) eqn:Hflag; simpl.
  - rewrite orb_false_r, app_nil_r. repeat split; auto.
  - assert (Hmono : forall i, nth i (pendingVBs s) false = true ->
                      nth i (storeAt v true (pendingVBs s)) false = true).
    { intros i Hi. destruct (Nat.eq_dec i v) as [->|Hne]; [congruence|].
      now rewrite nth_storeAt_other. }
    destruct (wakeUpScheduled s) eqn:Hw; simpl; rewrite ?Hw; simpl;
      rewrite length_storeAt, ?app_nil_r;
      (split; [reflexivity|]); (split; [reflexivity|]);
      (split; [reflexivity|]);
      (split; [intros Hv; now apply nth_storeAt_same|]);
      (split; [exact Hmono|]); split; reflexivity.
Qed.

Lemma notifyAll_scheduled vs :
  forall s : Task W,
    wakeUpScheduled s = true ->
    trace (notifyAll vs s) = trace s
    /\ wakeUpScheduled (notifyAll vs s) = true.
Proof.
  induction vs as [|v vs IH]; intros s Hw; [split; [reflexivity|exact Hw]|].
  simpl. destruct (notify_fields v s) as (_ & _ & _ & _ & _ & Hws & Htr).
  rewrite Hw in Hws, Htr. rewrite andb_false_r, app_nil_r in Htr.
  destruct (IH _ Hws) as [Htr' Hw']. rewrite <- Htr. split; assumption.
Qed.

Lemma notifyAll_flags vs :
  forall s : Task W,
    List.length (pendingVBs (notifyAll vs s)) = List.length (pendingVBs s)
    /\ (forall i, nth i (pendingVBs s) false = true ->
          nth i (pendingVBs (notifyAll vs s)) false = true)
    /\ (forall v, In v vs -> (v < List.length (pendingVBs s))%nat ->
          nth v (pendingVBs (notifyAll vs s)) false = true).
Proof.
  induction vs as [|v vs IH]; intros s; [repeat split; auto; intros ? []|].
  simpl. destruct (notify_fields v s) as (_ & _ & Hl & Hset & Hmono & _).
  destruct (IH (notifySyncWritesToComplete v s)) as (Hl' & Hmono' & Hset').
  split; [now rewrite Hl', Hl|]. split.
  - intros i Hi. apply Hmono', Hmono, Hi.
  - intros u [<-|Hu] Hlt.
    + apply Hmono', Hset, Hlt.
    + apply Hset'; [exact Hu|]. now rewrite Hl.
Qed.

(** X20.  A burst of notifications wakes the task at most once: whatever
    vbuckets are notified, in whatever order, ExecutorPool::wake is called
    once if the task was not yet scheduled to wake and some notified vbucket
    was not already pending, and not at all otherwise.  Every notified
    vbucket is pending afterwards and no pending flag is lost. *)
Theorem notifications_wake_at_most_once (vs : list nat) (s : Task W) :
  Forall (fun v => (v < List.length (pendingVBs s))%nat) vs ->
  (exists tr,
     trace (notifyAll vs s) = trace s ++ tr
     /\ tr = (if negb (wakeUpScheduled s)
                 && existsb (fun v => negb (nth v (pendingVBs s) false)) vs
              then [EvExecutorPoolWake] else []))
  /\ (forall v, In v vs ->
        nth v (pendingVBs (notifyAll vs s)) false = true)
  /\ (forall i, nth i (pendingVBs s) false = true ->
        nth i (pendingVBs (notifyAll vs s)) false = true).
Proof.
  intros Hrange. split; [|split].
  - clear Hrange. revert s.
    induction vs as [|v vs IH]; intros s.
    + exists []. simpl. rewrite app_nil_r, andb_false_r. split; reflexivity.
    + simpl.
      destruct (notify_fields v s) as (_ & _ & _ & _ & Hmono & Hws & Htr).
      destruct (wakeUpScheduled s) eqn:Hw; simpl in *.
      * destruct (notifyAll_scheduled vs _ Hws) as [Htr' _].
        exists []. rewrite Htr', Htr, andb_false_r. split; reflexivity.
      * destruct (nth v (pendingVBs s) false) eqn:Hflag; simpl in *.
        -- unfold notifySyncWritesToComplete in *. rewrite Hflag in *.
           destruct (IH s) as (tr & Htr2 & Heq). rewrite Hw in Heq.
           exists tr. split; assumption.
        -- destruct (notifyAll_scheduled vs _ Hws) as [Htr' _].
           exists [EvExecutorPoolWake]. rewrite Htr', Htr.
           split; reflexivity.
  - intros v Hv. apply notifyAll_flags; [exact Hv|].
    rewrite Forall_forall in Hrange. now apply Hrange.
  - apply notifyAll_flags.
Qed.

(** X21.  A notification is not lost.  In the run, of an engine that is
    not shutting down, that follows notifySyncWritesToComplete for a vbucket
    that is there, either the resolved SyncWrites of the vbucket are
    processed, or the clock cut the run short: then the flag of the vbucket
    is still set and the last thing the run did was to call wakeUp().  A run
    that did not call wakeUp() has processed the vbucket. *)
Theorem notified_vbucket_is_processed (s : Task W) (v : nat) :
  isShutdown E (world s) = false ->
  (vbid s < List.length (pendingVBs s))%nat ->
  (v < List.length (pendingVBs s))%nat ->
  (forall w, getVBucket E w v = true) ->
  let s1 := notifySyncWritesToComplete v s in
  exists tr,
    trace (snd (run E s1)) = trace s1 ++ EvSnooze :: tr
    /\ (In (EvProcessResolvedSyncWrites v) tr
        \/ (nth v (pendingVBs (snd (run E s1))) false = true
            /\ last tr EvSnooze = EvWakeUp))
    /\ (~ In EvWakeUp tr -> In (EvProcessResolvedSyncWrites v) tr).
Proof.
  intros Hup Hin Hv Hthere s1.
  destruct (notify_fields v s) as (Hvb & Hw & Hl & Hset & _).
  destruct (run_pending_or_processed s1 v) as (tr & Htr & Hcase).
  - subst s1. now rewrite Hw.
  - subst s1. now rewrite Hvb, Hl.
  - exact Hthere.
  - subst s1. now apply Hset.
  - exists tr. split; [exact Htr|]. split; [exact Hcase|].
    intros Hno. destruct Hcase as [Hproc|[_ Hlast]]; [exact Hproc|].
    exfalso. apply Hno. rewrite <- Hlast. apply last_In.
    intros ->. discriminate.
Qed.

(** X22.  The wake-up is re-armed by every run: a run clears
    wakeUpScheduled, so the first notification of a vbucket that is not
    pending after the run calls ExecutorPool::wake again. *)
Theorem notification_after_run_wakes (s : Task W) (v : nat) :
  isShutdown E (world s) = false ->
  (vbid s < List.length (pendingVBs s))%nat ->
  (v < List.length (pendingVBs s))%nat ->
  nth v (pendingVBs (snd (run E s))) false = false ->
  trace (notifySyncWritesToComplete v (snd (run E s)))
  = trace (snd (run E s)) ++ [EvExecutorPoolWake]
  /\ nth v (pendingVBs (notifySyncWritesToComplete v (snd (run E s)))) false
     = true.
Proof.
  intros Hup Hin Hv Hflag.
  destruct (run_invariant s Hup Hin) as (Hl & _ & Hw & _).
  destruct (notify_fields v (snd (run E s)))
    as (_ & _ & _ & Hset & _ & _ & Htr).
  rewrite Hflag, Hw in Htr. split; [exact Htr|].
  apply Hset. now rewrite Hl.
Qed.

End WithEngine.
End DurabilityCompletionTaskFacts.

Module DurabilityCompletionTaskExampleFacts.
Import DurabilityCompletionTask.

Lemma run_only_clears_and_processes_pending_witness :
  List.length (pendingVBs (snd (run quietEngine fourVBuckets))) = 4%nat
  /\ (vbid (snd (run quietEngine fourVBuckets)) < 4)%nat.
Proof.
  destruct (DurabilityCompletionTaskFacts.run_only_clears_and_processes_pending
              quietEngine fourVBuckets eq_refl) as (Hl & Hv & _).
  - simpl. lia.
  - rewrite Hl in Hv. split; [exact Hl|exact Hv].
Defined.

Lemma run_clears_or_rewakes_witness :
  run stoppedEngine fourVBuckets = (false, fourVBuckets)
  /\ wakeUpScheduled (snd (run (tickingEngine 1) fourVBucketsTicking)) = false
  /\ exists tr,
       trace (snd (run (tickingEngine 1) fourVBucketsTicking))
       = EvSnooze :: tr
       /\ (Forall (fun b => b = false)
             (pendingVBs (snd (run (tickingEngine 1) fourVBucketsTicking)))
           \/ last tr EvSnooze = EvWakeUp).
Proof.
  destruct (DurabilityCompletionTaskFacts.run_clears_or_rewakes
              stoppedEngine fourVBuckets) as [Hdown _].
  destruct (DurabilityCompletionTaskFacts.run_clears_or_rewakes
              (tickingEngine 1) fourVBucketsTicking) as [_ Hup].
  destruct (Hup eq_refl) as (_ & Hw & tr & Htr & Hend); [simpl; lia|].
  split; [exact (Hdown eq_refl)|]. split; [exact Hw|].
  exists tr. split; [exact Htr|exact Hend].
Defined.

Lemma uninterrupted_run_sweeps_every_vbucket_witness :
  Forall (fun b => b = false)
    (pendingVBs (snd (run (tickingEngine 25) fourVBucketsTicking)))
  /\ vbid (snd (run (tickingEngine 25) fourVBucketsTicking)) = 2%nat.
Proof.
  apply (DurabilityCompletionTaskFacts.uninterrupted_run_sweeps_every_vbucket
           (tickingEngine 25) fourVBucketsTicking eq_refl).
  - simpl. lia.
  - intros tr Htr. vm_compute in Htr. subst tr.
    intros [H|[H|[H|[]]]]; discriminate H.
Defined.

Lemma notifications_wake_at_most_once_witness :
  exists tr,
    trace (notifyAll [0; 1; 2]%nat
             (mkTask [false; true; false; true] 2 false tt []))
    = tr
    /\ tr = [EvExecutorPoolWake].
Proof.
  destruct (DurabilityCompletionTaskFacts.notifications_wake_at_most_once
              [0; 1; 2]%nat
              (mkTask [false; true; false; true] 2 false tt []))
    as ((tr & Htr & Heq) & _).
  - repeat constructor.
  - exists tr. split; [exact Htr|exact Heq].
Defined.

Lemma notified_vbucket_is_processed_witness :
  (exists tr,
     trace (snd (run (tickingEngine 25)
                   (notifySyncWritesToComplete 0 fourVBucketsTicking)))
     = EvSnooze :: tr
     /\ (~ In EvWakeUp tr -> In (EvProcessResolvedSyncWrites 0) tr))
  /\ (exists tr,
        trace (snd (run (tickingEngine 1)
                      (notifySyncWritesToComplete 1 fourVBucketsTicking)))
        = EvSnooze :: tr
        /\ (In (EvProcessResolvedSyncWrites 1) tr
            \/ (nth 1 (pendingVBs
                         (snd (run (tickingEngine 1)
                                 (notifySyncWritesToComplete 1
                                    fourVBucketsTicking))))
                    false = true
                /\ last tr EvSnooze = EvWakeUp))).
Proof.
  split.
  - destruct (DurabilityCompletionTaskFacts.notified_vbucket_is_processed
                (tickingEngine 25) fourVBucketsTicking 0 eq_refl)
      as (tr & Htr & _ & Hno);
      [simpl; lia|simpl; lia|reflexivity|].
    exists tr. split; [exact Htr|exact Hno].
  - destruct (DurabilityCompletionTaskFacts.notified_vbucket_is_processed
                (tickingEngine 1) fourVBucketsTicking 1 eq_refl)
      as (tr & Htr & Hcase & _);
      [simpl; lia|simpl; lia|reflexivity|].
    exists tr. split; [exact Htr|exact Hcase].
Defined.

Lemma notification_after_run_wakes_witness :
  trace (notifySyncWritesToComplete 1
           (snd (run quietEngine fourVBuckets)))
  = trace (snd (run quietEngine fourVBuckets)) ++ [EvExecutorPoolWake].
Proof.
  destruct (DurabilityCompletionTaskFacts.notification_after_run_wakes
              quietEngine fourVBuckets 1 eq_refl) as [H _];
    [simpl; lia|simpl; lia|reflexivity|exact H].
Defined.

End DurabilityCompletionTaskExampleFacts.

(** ** Prefix tests (string_utils.cc) *)

Module StringUtilsFacts.
Import StringUtils.

Lemma compare_refl (s : string) : String.compare s s = Eq.
Proof.
  induction s as [|c s IH]; [reflexivity|].
  simpl. unfold Ascii.compare. now rewrite N.compare_refl.
Qed.

Lemma compare_is_equality (a b : string) :
  match String.compare a b with Eq => true | _ => false end = true
  <-> a = b.
Proof.
  split.
  - destruct (String.compare a b) eqn:Hc; try discriminate.
    intros _. now apply String.compare_eq_iff.
  - intros ->. now rewrite compare_refl.
Qed.

Lemma string_length_append (a b : string) :
  String.length (a ++ b) = (String.length a + String.length b)%nat.
Proof. induction a as [|c a IH]; simpl; [reflexivity|]. now rewrite IH. Qed.

Lemma substring_is_prefix (prefix : string) :
  forall input,
    substring 0 (String.length prefix) input = prefix
    <-> exists rest, input = (prefix ++ rest)%string.
Proof.
  induction prefix as [|c p IH]; intros input.
  - simpl. split.
    + intros _. now exists input.
    + intros _. now destruct input.
  - destruct input as [|d i]; simpl.
    + split; [discriminate|]. intros [rest H]. discriminate.
    + split.
      * intros H. injection H as -> H. apply IH in H as [rest ->].
        now exists rest.
      * intros [rest H]. injection H as -> ->. f_equal.
        apply IH. now exists rest.
Qed.

Lemma memcmp_is_prefix (prefix : string) :
  forall input,
    (if (String.length input <? String.length prefix)%nat then false
     else memcmp_eq input prefix (String.length prefix)) = true
    <-> exists rest, input = (prefix ++ rest)%string.
Proof.
  induction prefix as [|c p IH]; intros input.
  - simpl.
    destruct (String.length input <? 0)%nat eqn:Hl.
    + apply Nat.ltb_lt in Hl. lia.
    + split; [intros _; now exists input|reflexivity].
  - destruct input as [|d i].
    + simpl. split; [discriminate|]. intros [rest H]. discriminate.
    + specialize (IH i).
      change (String.length (String d i) <? String.length (String c p))%nat
        with (String.length i <? String.length p)%nat.
      destruct (String.length i <? String.length p)%nat eqn:Hl.
      * split; [discriminate|]. intros [rest H].
        injection H as -> ->. apply Nat.ltb_lt in Hl.
        rewrite string_length_append in Hl. lia.
      * simpl. rewrite andb_true_iff, Ascii.eqb_eq, IH.
        split.
        -- intros [-> [rest ->]]. now exists rest.
        -- intros [rest H]. injection H as -> ->. split; [reflexivity|].
           now exists rest.
Qed.

(** X23.  Both overloads of cb_isPrefix decide the same thing: each one
    answers true exactly when the input is the prefix followed by some rest
    (an empty prefix matches every input, a prefix longer than the input
    matches none), so the two always return the same answer. *)
Theorem cb_isPrefix_overloads_agree (input prefix : string) :
  (cb_isPrefix input prefix = true
   <-> exists rest, input = (prefix ++ rest)%string)
  /\ cb_isPrefix_buffer input prefix = cb_isPrefix input prefix.
Proof.
  assert (H1 : cb_isPrefix input prefix = true
               <-> exists rest, input = (prefix ++ rest)%string).
  { unfold cb_isPrefix. rewrite compare_is_equality.
    apply substring_is_prefix. }
  assert (H2 : cb_isPrefix_buffer input prefix = true
               <-> exists rest, input = (prefix ++ rest)%string).
  { unfold cb_isPrefix_buffer. apply memcmp_is_prefix. }
  split; [exact H1|].
  destruct (cb_isPrefix_buffer input prefix);
    destruct (cb_isPrefix input prefix); try reflexivity.
  - symmetry. apply H1. apply H2. reflexivity.
  - apply H2. apply H1. reflexivity.
Qed.

End StringUtilsFacts.
